(** * POD-UQNN: the Bayesian regression core ([podnn/custombnn.py])

    A shallow embedding of [DenseVariational] and [BayesianNeuralNetwork]:
    the variational layer with its KL term, the negative log-likelihood,
    the training step, the input normalizer, Monte Carlo prediction and
    persistence.

    Numbers.  The Python code computes in [float64].  The embedding is
    written once over a scalar interface and read at two instances:
    - the real numbers [R], the exact-arithmetic reading used for the
      algebraic statements (what the formulas compute before rounding);
    - IEEE binary64 ([PrimFloat.float]), used where a statement is about
      rounding, division by zero or non-finite values; only the
      arithmetic part of the interface exists there ([exp] and [log] are
      not primitive floats operations).

    Arrays.  A rank-1 array is a list, a rank-2 array a list of rows; the
    rows of an array have one length.  Input arrays are [float64], as
    the class fixes its dtype.

    Reductions along axis 0 start at the first row and fold the later
    rows in, in order, as numpy does on a C-ordered array of two or more
    columns.  A one-column array of eight or more rows is added by numpy
    along its contiguous axis in blocks; over the reals the sum is the
    same, in binary64 the rounding can differ, so a binary64 statement
    that depends on the rounding of a sum is made on an array of two or
    three rows, or on the bounds as they are stored.

    Widths.  Elementwise operations of a matrix with a vector ([bcast])
    and the matrix product ([K_dot]) are read on operands whose widths
    fit; numpy and TensorFlow raise on the others, and a statement
    about the result of such an operation fixes the widths in its
    hypotheses.

    Randomness.  [tf.random.normal] is a stream of draws with a cursor;
    every drawn element advances the cursor by one. *)

From Stdlib Require Import Reals Lra Lia ZArith Floats Bool String.
From stdpp Require Import gmap strings list fin_maps pretty.

Set Warnings "-inexact-float".

(** ** Scalars *)

(** Arithmetic of the array element type (numpy ufuncs on [float64]). *)
Class Arith (T : Type) := {
  add_ : T -> T -> T;
  sub_ : T -> T -> T;
  mul_ : T -> T -> T;
  div_ : T -> T -> T;
  neg_ : T -> T;
  sqrt_ : T -> T;
  (** [np.minimum], [np.maximum] on two elements *)
  minimum : T -> T -> T;
  maximum : T -> T -> T;
  (** an integer converted to the element type *)
  of_Z : Z -> T
}.

(** [exp] and [log] of the backend, where the element type has them. *)
Class Transcendental (T : Type) := {
  exp_ : T -> T;
  log_ : T -> T;
  pi_ : T
}.

Declare Scope sc_scope.
Delimit Scope sc_scope with sc.
Infix "+" := add_ : sc_scope.
Infix "-" := sub_ : sc_scope.
Infix "*" := mul_ : sc_scope.
Infix "/" := div_ : sc_scope.
Notation "- x" := (neg_ x) : sc_scope.

(** A decimal literal [n/d] of the source ([0.5] is [dec 5 10]); on
    binary64 the one division rounds it to the nearest double, which is
    what the Python literal denotes. *)
Definition dec `{Arith T} (n d : Z) : T := (of_Z n / of_Z d)%sc.

(** The exact reading. *)
#[export] Instance R_arith : Arith R := {|
  add_ := Rplus; sub_ := Rminus; mul_ := Rmult; div_ := Rdiv; neg_ := Ropp;
  sqrt_ := R_sqrt.sqrt; minimum := Rmin; maximum := Rmax; of_Z := IZR
|}.

#[export] Instance R_transcendental : Transcendental R := {|
  exp_ := exp; log_ := ln; pi_ := PI
|}.

(** binary64.  numpy's loops for [minimum] and [maximum] keep the left
    operand when it compares [<=] (resp. [>=]) or is NaN. *)
Definition float_of_Z (z : Z) : float :=
  match z with
  | Z0 => 0%float
  | Zpos _ => PrimFloat.of_uint63 (Uint63.of_Z z)
  | Zneg p => PrimFloat.opp (PrimFloat.of_uint63 (Uint63.of_Z (Zpos p)))
  end.

Definition float_minimum (x y : float) : float :=
  if PrimFloat.leb x y || PrimFloat.is_nan x then x else y.

Definition float_maximum (x y : float) : float :=
  if PrimFloat.leb y x || PrimFloat.is_nan x then x else y.

#[export] Instance float_arith : Arith float := {|
  add_ := PrimFloat.add; sub_ := PrimFloat.sub; mul_ := PrimFloat.mul;
  div_ := PrimFloat.div; neg_ := PrimFloat.opp; sqrt_ := PrimFloat.sqrt;
  minimum := float_minimum; maximum := float_maximum; of_Z := float_of_Z
|}.

(** A float that is NaN or an infinity. *)
Definition non_finite (x : float) : bool :=
  PrimFloat.is_nan x || PrimFloat.is_infinity x.

(** ** Exceptions *)

Inductive exn :=
| ValueError (msg : string)
| IndexError (msg : string)
| FileNotFoundError (msg : string)
| UnpicklingError
| OSError (msg : string).

Inductive result (A : Type) :=
| Ok (a : A)
| Raise (e : exn).
Arguments Ok {A} a.
Arguments Raise {A} e.

Definition rbind {A B} (r : result A) (k : A -> result B) : result B :=
  match r with Ok a => k a | Raise e => Raise e end.

Notation "x <-! r ;; k" := (rbind r (fun x => k))
  (at level 100, r at next level, right associativity).

(** ** Arrays (numpy) *)

Abbreviation vec T := (list T) (only parsing).
Abbreviation matrix T := (list (list T)) (only parsing).

Section Numpy.
Context {T : Type} `{Arith T}.
Local Open Scope sc_scope.

(** [X.shape[1]] *)
Definition ncols (X : matrix T) : nat :=
  match X with [] => 0 | r :: _ => length r end.

(** [np.zeros(n)], [np.zeros((n, k))] *)
Definition zeros1 (k : nat) : vec T := replicate k (of_Z 0).
Definition zeros2 (n k : nat) : matrix T := replicate n (zeros1 k).

(** [ufunc.reduce] along axis 0: the first row, then every later row
    folded in; no rows and no identity is a [ValueError]. *)
Definition reduce0 (f : T -> T -> T) (name : string) (X : matrix T)
  : result (vec T) :=
  match X with
  | [] => Raise (ValueError
      ("zero-size array to reduction operation " +:+ name +:+
       " which has no identity"))
  | r :: rs => Ok (foldl (zip_with f) r rs)
  end.

(** [X.min(0)], [X.max(0)] *)
Definition np_min0 (X : matrix T) : result (vec T) := reduce0 minimum "minimum" X.
Definition np_max0 (X : matrix T) : result (vec T) := reduce0 maximum "maximum" X.

(** [np.add.reduce(X, axis=0)], the rows added in order; the sum of no
    rows is the identity. *)
Definition np_sum0 (X : matrix T) : vec T :=
  match X with
  | [] => []
  | r :: rs => foldl (zip_with add_) r rs
  end.

(** [X.mean(0)]: the column sums divided by the row count. *)
Definition np_mean0 (X : matrix T) : vec T :=
  (fun s => s / of_Z (Z.of_nat (length X))) <$> np_sum0 X.

(** [X.var(0)] with [ddof=0]: the mean of the squared deviations from
    the column means. *)
Definition np_var0 (X : matrix T) : vec T :=
  let arrmean := np_mean0 X in
  let x := (fun row : list T => zip_with sub_ row arrmean) <$> X in
  let x := (fun row : list T => (fun e => e * e) <$> row) <$> x in
  (fun s => s / of_Z (Z.of_nat (length X))) <$> np_sum0 x.

(** [X.std(0)] *)
Definition np_std0 (X : matrix T) : vec T := sqrt_ <$> np_var0 X.

(** [X.astype("float64")] on a [float64] array: a copy, element for
    element. *)
Definition astype_float64 (X : matrix T) : matrix T := 
  (fun row : list T => (fun e : T => e) <$> row) <$> X.

(** [X op v] for a matrix and a vector of the width of its rows: the
    operation row by row, element by element. *)
Definition bcast (f : T -> T -> T) (X : matrix T) (v : vec T) : matrix T :=
  (fun row : list T => zip_with f row v) <$> X.
End Numpy.

(** ** Tensors of rank 1 and 2

    The layer code is rank polymorphic: the same [kl_loss] runs on the
    kernel (rank 2) and on the bias (rank 1). *)

Fixpoint zip_with3 {A B C D} (f : A -> B -> C -> D)
    (l1 : list A) (l2 : list B) (l3 : list C) : list D :=
  match l1, l2, l3 with
  | a :: l1, b :: l2, c :: l3 => f a b c :: zip_with3 f l1 l2 l3
  | _, _, _ => []
  end.

(** Fill the positions of a matrix, row-major, with [f 0], [f 1], ... *)
Fixpoint mfill {T} (M : matrix T) (f : nat -> T) : matrix T :=
  match M with
  | [] => []
  | r :: rs => (f <$> seq 0 (length r)) :: mfill rs (fun i => f (length r + i)%nat)
  end.

Class Tensor (T A : Type) := {
  (** elementwise unary, binary and ternary operations on equal shapes *)
  tmap : (T -> T) -> A -> A;
  tzip : (T -> T -> T) -> A -> A -> A;
  tzip3 : (T -> T -> T -> T) -> A -> A -> A -> A;
  (** the elements in row-major order *)
  telems : A -> list T;
  (** a tensor of the same shape whose [i]-th element is [f i] *)
  tfill : A -> (nat -> T) -> A
}.

#[export] Instance vec_tensor {T} : Tensor T (vec T) := {|
  tmap f v := f <$> v;
  tzip f u v := zip_with f u v;
  tzip3 f u v w := zip_with3 f u v w;
  telems v := v;
  tfill v f := f <$> seq 0 (length v)
|}.

#[export] Instance matrix_tensor {T} : Tensor T (matrix T) := {|
  tmap f M := (fun row : list T => f <$> row) <$> M;
  tzip f M N := zip_with (zip_with f) M N;
  tzip3 f M N P := zip_with3 (zip_with3 f) M N P;
  telems M := concat M;
  tfill M f := mfill M f
|}.

(** ** State: the random generator and the losses collected by
    [add_loss] *)

Record world (T : Type) := {
  noise : nat -> T;      (** the stream behind [tf.random.normal] *)
  cursor : nat;          (** how many draws were taken *)
  losses : list T        (** [model.losses] *)
}.
Arguments noise {T} w.
Arguments cursor {T} w.
Arguments losses {T} w.

Definition State (S A : Type) : Type := S -> A * S.

Definition ret {S A} (a : A) : State S A := fun s => (a, s).
Definition bind {S A B} (m : State S A) (k : A -> State S B) : State S B :=
  fun s => let (a, s') := m s in k a s'.

Notation "x <~ m ;; k" := (bind m (fun x => k))
  (at level 100, m at next level, right associativity).
Notation "m ;;; k" := (bind m (fun _ => k))
  (at level 100, right associativity).

Section Backend.
Context {T : Type} `{Arith T} `{Transcendental T}.
Local Open Scope sc_scope.

(** [K.sum]: the sum of all elements. *)
Definition K_sum {A} `{Tensor T A} (a : A) : T :=
  foldl add_ (of_Z 0) (telems a).

(** [tf.random.normal(shape)] for the shape of [a]: one fresh draw per
    element. *)
Definition random_normal {A} `{Tensor T A} (a : A) : State (world T) A :=
  fun w =>
    (tfill a (fun i => noise w (cursor w + i)%nat),
     {| noise := noise w;
        cursor := (cursor w + length (telems a))%nat;
        losses := losses w |}).

(** [layer.add_loss] *)
Definition add_loss (l : T) : State (world T) unit :=
  fun w =>
    (tt, {| noise := noise w; cursor := cursor w;
            losses := losses w ++ [l] |}).

(** Keras clears the collected losses when the model is called. *)
Definition clear_losses : State (world T) unit :=
  fun w => (tt, {| noise := noise w; cursor := cursor w; losses := [] |}).

(** [tf.math.softplus] *)
Definition softplus (x : T) : T := log_ (exp_ x + of_Z 1).

(** [tfd.Normal(loc, scale).log_prob(x)] on one element:
    [-0.5 * squared_difference(x / scale, loc / scale)
     - (0.5 * log(2 pi) + log(scale))]. *)
Definition normal_log_prob (loc scale x : T) : T :=
  let d := x / scale - loc / scale in
  let log_unnormalized := dec (-5) 10 * (d * d) in
  let log_normalization := dec 5 10 * log_ (of_Z 2 * pi_) + log_ scale in
  log_unnormalized - log_normalization.

(** [tfd.Normal(loc, scale).prob(x)] *)
Definition normal_prob (loc scale x : T) : T :=
  exp_ (normal_log_prob loc scale x).

(** [K.dot(inputs, kernel)] for inputs as wide as the kernel has rows:
    each input row times the kernel, the row of sums starting from
    zeros of the output width. *)
Definition vecmat (units : nat) (x : vec T) (W : matrix T) : vec T :=
  foldl (fun acc xw => zip_with add_ acc ((fun e => xw.1 * e) <$> xw.2))
        (zeros1 units) (zip x W).

Definition K_dot (units : nat) (X : matrix T) (W : matrix T) : matrix T :=
  (fun x : list T => vecmat units x W) <$> X.
End Backend.

(** ** [class DenseVariational] *)

Inductive Activation := relu | linear.

Record DenseVariational (T : Type) := {
  units : nat;
  kl_weight : T;
  activation : Activation;
  prior_sigma_1 : T;
  prior_sigma_2 : T;
  prior_pi : T;
  prior_pi_1 : T;
  prior_pi_2 : T;
  init_sigma : T;
  (** the weights made by [build]; all four are trainable *)
  kernel_mu : matrix T;
  bias_mu : vec T;
  kernel_rho : matrix T;
  bias_rho : vec T
}.
Arguments units {T} d.
Arguments kl_weight {T} d.
Arguments activation {T} d.
Arguments prior_sigma_1 {T} d.
Arguments prior_sigma_2 {T} d.
Arguments prior_pi {T} d.
Arguments prior_pi_1 {T} d.
Arguments prior_pi_2 {T} d.
Arguments init_sigma {T} d.
Arguments kernel_mu {T} d.
Arguments bias_mu {T} d.
Arguments kernel_rho {T} d.
Arguments bias_rho {T} d.

Section Layer.
Context {T : Type} `{Arith T} `{Transcendental T}.
Local Open Scope sc_scope.

(** The defaults of [__init__]: [prior_sigma_1=1.5],
    [prior_sigma_2=0.1], [prior_pi=0.5]. *)
Definition default_prior_sigma_1 : T := dec 15 10.
Definition default_prior_sigma_2 : T := dec 1 10.
Definition default_prior_pi : T := dec 5 10.

(** [DenseVariational.__init__]; the weights exist after [build]. *)
Definition DenseVariational_init (units : nat) (kl_weight : T)
    (activation : Activation) (prior_sigma_1 prior_sigma_2 prior_pi : T)
  : DenseVariational T :=
  let prior_pi_1 := prior_pi in
  let prior_pi_2 := of_Z 1 - prior_pi in
  {| units := units;
     kl_weight := kl_weight;
     activation := activation;
     prior_sigma_1 := prior_sigma_1;
     prior_sigma_2 := prior_sigma_2;
     prior_pi := prior_pi;
     prior_pi_1 := prior_pi_1;
     prior_pi_2 := prior_pi_2;
     init_sigma := sqrt_ (prior_pi_1 * (prior_sigma_1 * prior_sigma_1) +
                          prior_pi_2 * (prior_sigma_2 * prior_sigma_2));
     kernel_mu := []; bias_mu := []; kernel_rho := []; bias_rho := [] |}.

(** [DenseVariational.build]: [kernel_mu] and [bias_mu] from
    [RandomNormal(stddev=init_sigma)], the two [rho] constant [0.].
    Only the weights are modelled: what Keras records in [model.losses]
    while it assembles the model is symbolic and is not part of the
    state here; every call of the model starts from cleared losses. *)
Definition build (input_dim : nat) (self : DenseVariational T)
  : State (world T) (DenseVariational T) :=
  z_k <~ random_normal (zeros2 input_dim (units self)) ;;
  z_b <~ random_normal (zeros1 (units self)) ;;
  ret {| units := units self;
         kl_weight := kl_weight self;
         activation := activation self;
         prior_sigma_1 := prior_sigma_1 self;
         prior_sigma_2 := prior_sigma_2 self;
         prior_pi := prior_pi self;
         prior_pi_1 := prior_pi_1 self;
         prior_pi_2 := prior_pi_2 self;
         init_sigma := init_sigma self;
         kernel_mu := tmap (fun z => init_sigma self * z) z_k;
         bias_mu := tmap (fun z => init_sigma self * z) z_b;
         kernel_rho := zeros2 input_dim (units self);
         bias_rho := zeros1 (units self) |}.

(** [DenseVariational.log_prior_prob] *)
Definition log_prior_prob {A} `{Tensor T A} (self : DenseVariational T)
    (w : A) : A :=
  let c := log_ (exp_ (of_Z 1) - of_Z 1) in
  tmap (fun x =>
          log_ (c + prior_pi_1 self * normal_prob (of_Z 0) (prior_sigma_1 self) x
                  + prior_pi_2 self * normal_prob (of_Z 0) (prior_sigma_2 self) x))
       w.

(** [DenseVariational.kl_loss] *)
Definition kl_loss {A} `{Tensor T A} (self : DenseVariational T)
    (w mu sigma : A) : T :=
  let variational_log_prob := tzip3 normal_log_prob mu sigma w in
  kl_weight self * K_sum (tzip sub_ variational_log_prob (log_prior_prob self w)).

Definition apply_activation (a : Activation) (Y : matrix T) : matrix T :=
  match a with
  | relu => tmap (fun y => maximum y (of_Z 0)) Y
  | linear => Y
  end.

(** The effective standard deviation [1e-3 + softplus(0.1 * rho)]. *)
Definition sigma_of {A} `{Tensor T A} (rho : A) : A :=
  tmap (fun r => dec 1 1000 + softplus (dec 1 10 * r)) rho.

(** [DenseVariational.call] *)
Definition call (self : DenseVariational T) (inputs : matrix T)
  : State (world T) (matrix T) :=
  let kernel_sigma := sigma_of (kernel_rho self) in
  eps_k <~ random_normal (kernel_mu self) ;;
  let kernel := tzip add_ (kernel_mu self) (tzip mul_ kernel_sigma eps_k) in
  let bias_sigma := sigma_of (bias_rho self) in
  eps_b <~ random_normal (bias_mu self) ;;
  let bias := tzip add_ (bias_mu self) (tzip mul_ bias_sigma eps_b) in
  add_loss (kl_loss self kernel (kernel_mu self) kernel_sigma +
            kl_loss self bias (bias_mu self) bias_sigma) ;;;
  ret (apply_activation (activation self)
         (bcast add_ (K_dot (units self) inputs kernel) bias)).

(** The variables [add_weight] registered with [trainable=True], in
    order; the prior's [sigma]s and [pi] are plain attributes. *)
Inductive variable :=
| VMat (name : string) (m : matrix T)
| VVec (name : string) (v : vec T).

Definition layer_trainable_variables (self : DenseVariational T)
  : list variable :=
  [ VMat "kernel_mu" (kernel_mu self); VVec "bias_mu" (bias_mu self);
    VMat "kernel_rho" (kernel_rho self); VVec "bias_rho" (bias_rho self) ].
End Layer.
Arguments variable T : clear implicits.

(** ** [class BayesianNeuralNetwork] *)

Definition NORM_NONE : string := "none".
Definition NORM_MEANSTD : string := "meanstd".
Definition NORM_CENTER : string := "center".
Definition NORM_MINMAX : string := "minmax".

(** [tfk.models.Sequential]: the input width and the layers in order. *)
Record Sequential (T : Type) := {
  input_width : nat;
  seq_layers : list (DenseVariational T)
}.
Arguments input_width {T} s.
Arguments seq_layers {T} s.

(** [tf.optimizers.Adam]: its learning rate and its slots. *)
Record Adam (T : Type) := {
  learning_rate : T;
  iterations : nat;
  slots : list (variable T)
}.
Arguments learning_rate {T} a.
Arguments iterations {T} a.
Arguments slots {T} a.

(** What a logger object was told. *)
Inductive log_event (T : Type) :=
| log_train_start
| log_train_epoch (e : nat) (loss_value : T)
| log_train_end (epochs : nat) (err : T).
Arguments log_train_start {T}.
Arguments log_train_epoch {T} e loss_value.
Arguments log_train_end {T} epochs err.

Record BayesianNeuralNetwork (T : Type) := {
  dtype : string;
  optimizer : Adam T;
  layers : list nat;
  lr : T;
  klw : T;
  norm_bounds : option (vec T * vec T);
  logger : option (list (log_event T));
  batch_size : nat;
  norm : string;
  adv_eps : option T;
  soft_0 : T;
  sigma_alea : T;
  model : Sequential T
}.
Arguments dtype {T} b.
Arguments optimizer {T} b.
Arguments layers {T} b.
Arguments lr {T} b.
Arguments klw {T} b.
Arguments norm_bounds {T} b.
Arguments logger {T} b.
Arguments batch_size {T} b.
Arguments norm {T} b.
Arguments adv_eps {T} b.
Arguments soft_0 {T} b.
Arguments sigma_alea {T} b.
Arguments model {T} b.

Section Attributes.
Context {T : Type}.

(** [self.norm_bounds = nb] *)
Definition set_norm_bounds (nb : option (vec T * vec T))
    (self : BayesianNeuralNetwork T) : BayesianNeuralNetwork T :=
  {| dtype := dtype self; optimizer := optimizer self;
     layers := layers self; lr := lr self; klw := klw self;
     norm_bounds := nb;
     logger := logger self; batch_size := batch_size self;
     norm := norm self; adv_eps := adv_eps self; soft_0 := soft_0 self;
     sigma_alea := sigma_alea self; model := model self |}.

(** [self.logger = lg] *)
Definition set_logger (lg : option (list (log_event T)))
    (self : BayesianNeuralNetwork T) : BayesianNeuralNetwork T :=
  {| dtype := dtype self; optimizer := optimizer self;
     layers := layers self; lr := lr self; klw := klw self;
     norm_bounds := norm_bounds self;
     logger := lg; batch_size := batch_size self;
     norm := norm self; adv_eps := adv_eps self; soft_0 := soft_0 self;
     sigma_alea := sigma_alea self; model := model self |}.

(** The optimizer and the model's variables after an optimizer step. *)
Definition set_trained (o : Adam T) (m : Sequential T)
    (self : BayesianNeuralNetwork T) : BayesianNeuralNetwork T :=
  {| dtype := dtype self; optimizer := o;
     layers := layers self; lr := lr self; klw := klw self;
     norm_bounds := norm_bounds self;
     logger := logger self; batch_size := batch_size self;
     norm := norm self; adv_eps := adv_eps self; soft_0 := soft_0 self;
     sigma_alea := sigma_alea self; model := m |}.

(** A call on the logger, when there is one. *)
Definition log (ev : log_event T) (self : BayesianNeuralNetwork T)
  : BayesianNeuralNetwork T :=
  match logger self with
  | None => self
  | Some evs => set_logger (Some (evs ++ [ev])) self
  end.
End Attributes.

(** *** The normalizer *)

Section Normalizer.
Context {T : Type} `{Arith T}.
Local Open Scope sc_scope.

(** [BayesianNeuralNetwork.tensor] *)
Definition tensor (X : matrix T) : matrix T := astype_float64 X.

(** [BayesianNeuralNetwork.set_normalize_bounds] *)
Definition set_normalize_bounds (self : BayesianNeuralNetwork T)
    (X : matrix T) : result (BayesianNeuralNetwork T) :=
  if String.eqb (norm self) NORM_CENTER || String.eqb (norm self) NORM_MINMAX
  then
    lb <-! np_min0 X ;;
    ub <-! np_max0 X ;;
    Ok (set_norm_bounds (Some (lb, ub)) self)
  else if String.eqb (norm self) NORM_MEANSTD then
    let lb := np_mean0 X in
    let ub := np_std0 X in
    Ok (set_norm_bounds (Some (lb, ub)) self)
  else Ok self.

(** [BayesianNeuralNetwork.normalize] *)
Definition normalize (self : BayesianNeuralNetwork T) (X : matrix T)
  : matrix T :=
  match norm_bounds self with
  | None => tensor X
  | Some bounds =>
      if String.eqb (norm self) NORM_CENTER then
        let '(lb, ub) := bounds in
        let X := bcast sub_ (bcast sub_ X lb)
                   ((fun e => dec 5 10 * e) <$> zip_with sub_ ub lb) in
        tensor X
      else if String.eqb (norm self) NORM_MEANSTD then
        let '(mean, std) := bounds in
        let X := bcast div_ (bcast sub_ X mean) std in
        tensor X
      else tensor X
  end.
End Normalizer.

(** *** The model and its loss *)

Section Network.
Context {T : Type} `{Arith T} `{Transcendental T}.
Local Open Scope sc_scope.

(** Build the layers of given widths and activations, each on the
    width of the one before. *)
Fixpoint build_layers (input_dim : nat) (klw : T)
    (specs : list (nat * Activation))
  : State (world T) (list (DenseVariational T)) :=
  match specs with
  | [] => ret []
  | (width, act) :: rest =>
      l <~ build input_dim
             (DenseVariational_init width klw act default_prior_sigma_1
                default_prior_sigma_2 default_prior_pi) ;;
      ls <~ build_layers width klw rest ;;
      ret (l :: ls)
  end.

(** [BayesianNeuralNetwork.build_model]: [layers[-1]] and [layers[0]]
    need a non-empty list; [layers[1:-1]] are the hidden widths. *)
Definition build_model (layers : list nat) (klw : T)
  : State (world T) (result (Sequential T)) :=
  match last layers, head layers with
  | Some n_L, Some n_0 =>
      let hidden := take (length layers - 2) (drop 1 layers) in
      ls <~ build_layers n_0 klw
              (((fun width => (width, relu)) <$> hidden) ++ [(n_L, linear)]) ;;
      ret (Ok {| input_width := n_0; seq_layers := ls |})
  | _, _ => ret (Raise (IndexError "list index out of range"))
  end.

(** [BayesianNeuralNetwork.__init__]; an argument left out is [None]
    and takes the default of the signature. *)
Definition BayesianNeuralNetwork_init (layers : list nat) (lr klw : T)
    (soft_0 sigma_alea adv_eps : option T) (norm : option string)
    (model : option (Sequential T)) (norm_bounds : option (vec T * vec T))
  : State (world T) (result (BayesianNeuralNetwork T)) :=
  let self m :=
    {| dtype := "float64";
       optimizer := {| learning_rate := lr; iterations := 0; slots := [] |};
       layers := layers;
       lr := lr;
       klw := klw;
       norm_bounds := norm_bounds;
       logger := None;
       batch_size := 0;
       norm := default NORM_NONE norm;
       adv_eps := adv_eps;
       soft_0 := default (dec 1 100) soft_0;
       sigma_alea := default (dec 1 100) sigma_alea;
       model := m |} in
  match model with
  | None =>
      r <~ build_model layers klw ;;
      ret (m <-! r ;; Ok (self m))
  | Some m => ret (Ok (self m))
  end.

(** The model called on a batch: the layers in order, every layer
    leaving its KL term in [losses]. *)
Fixpoint run_layers (ls : list (DenseVariational T)) (X : matrix T)
  : State (world T) (matrix T) :=
  match ls with
  | [] => ret X
  | l :: ls => Y <~ call l X ;; run_layers ls Y
  end.

Definition Sequential_call (m : Sequential T) (X : matrix T)
  : State (world T) (matrix T) :=
  clear_losses ;;; run_layers (seq_layers m) X.

(** [model.trainable_variables] and the model with new values in
    them. *)
Definition trainable_variables (m : Sequential T) : list (variable T) :=
  concat (layer_trainable_variables <$> seq_layers m).

Definition layer_assign (self : DenseVariational T) (vs : list (variable T))
  : DenseVariational T * list (variable T) :=
  match vs with
  | VMat _ km :: VVec _ bm :: VMat _ kr :: VVec _ br :: rest =>
      ({| units := units self;
          kl_weight := kl_weight self;
          activation := activation self;
          prior_sigma_1 := prior_sigma_1 self;
          prior_sigma_2 := prior_sigma_2 self;
          prior_pi := prior_pi self;
          prior_pi_1 := prior_pi_1 self;
          prior_pi_2 := prior_pi_2 self;
          init_sigma := init_sigma self;
          kernel_mu := km; bias_mu := bm;
          kernel_rho := kr; bias_rho := br |}, rest)
  | _ => (self, vs)
  end.

Fixpoint layers_assign (ls : list (DenseVariational T))
    (vs : list (variable T)) : list (DenseVariational T) :=
  match ls with
  | [] => []
  | l :: ls => let (l', rest) := layer_assign l vs in l' :: layers_assign ls rest
  end.

Definition assign (m : Sequential T) (vs : list (variable T)) : Sequential T :=
  {| input_width := input_width m;
     seq_layers := layers_assign (seq_layers m) vs |}.

(** [BayesianNeuralNetwork.loss]: the negative log-likelihood. *)
Definition loss (self : BayesianNeuralNetwork T) (y_obs y_pred : matrix T) : T :=
  let log_prob :=
    tzip (fun loc x => normal_log_prob loc (sigma_alea self) x) y_pred y_obs in
  K_sum (tmap neg_ log_prob).

(** [BayesianNeuralNetwork.predict_dist]: the location and scale of
    the returned [Normal]. *)
Definition predict_dist (self : BayesianNeuralNetwork T) (X : matrix T)
  : State (world T) (matrix T * T) :=
  let X := normalize self X in
  loc <~ Sequential_call (model self) X ;;
  ret (loc, sigma_alea self).

(** *** Training

    [tape.gradient] and [optimizer.apply_gradients] belong to
    TensorFlow: the first maps the taped scalar, as a function of the
    watched variables, and their current values to the gradients; the
    second maps the optimizer and the (gradient, variable) pairs to
    the optimizer and the new values. *)
Section Training.
Variable tape_gradient :
  (list (variable T) -> T) -> list (variable T) -> list (variable T).
Variable apply_gradients :
  Adam T -> list (variable T * variable T) -> Adam T * list (variable T).

(** The scalar that [grad] puts on the tape for the variable
    values [theta], at the draws of state [w]. *)
Definition taped_loss (self : BayesianNeuralNetwork T) (X v : matrix T)
    (w : world T) (theta : list (variable T)) : T :=
  loss self v (Sequential_call (assign (model self) theta) X w).1.

(** [BayesianNeuralNetwork.grad] *)
Definition grad (self : BayesianNeuralNetwork T) (X v : matrix T)
  : State (world T) (T * list (variable T)) :=
  fun w =>
    let (y_pred, w') := Sequential_call (model self) X w in
    let loss_value := loss self v y_pred in
    let grads :=
      tape_gradient (taped_loss self X v w)
                    (trainable_variables (model self)) in
    ((loss_value, grads), w').

(** One pass of the loop of [fit]. *)
Definition fit_epoch (X_v v : matrix T) (self : BayesianNeuralNetwork T)
    (e : nat) : State (world T) (BayesianNeuralNetwork T) :=
  lg <~ grad self X_v v ;;
  let '(loss_value, grads) := lg in
  let (opt, values) :=
    apply_gradients (optimizer self)
      (zip grads (trainable_variables (model self))) in
  let self := set_trained opt (assign (model self) values) self in
  ret (log (log_train_epoch e loss_value) self).

Fixpoint fit_loop (X_v v : matrix T) (self : BayesianNeuralNetwork T)
    (es : list nat) : State (world T) (BayesianNeuralNetwork T) :=
  match es with
  | [] => ret self
  | e :: es => self <~ fit_epoch X_v v self e ;; fit_loop X_v v self es
  end.

(** [BayesianNeuralNetwork.fit] *)
Definition fit (self : BayesianNeuralNetwork T) (X_v v : matrix T)
    (epochs : nat) (logger : option (list (log_event T)))
  : State (world T) (result (BayesianNeuralNetwork T)) :=
  let self := set_logger logger self in
  let self := log log_train_start self in
  match set_normalize_bounds self X_v with
  | Raise e => ret (Raise e)
  | Ok self =>
      let X_v := normalize self X_v in
      let v := tensor v in
      self <~ fit_loop X_v v self (seq 0 epochs) ;;
      ret (Ok (log (log_train_end epochs (of_Z 0)) self))
  end.
End Training.
End Network.

(** *** Monte Carlo prediction *)

Section Predict.
Context {T : Type} `{Arith T} `{Transcendental T}.
Local Open Scope sc_scope.

(** numpy's text for a shape of rank 2, and its refusal to assign an
    array of shape [(a, b)] to a slice of shape [(n, k)]. *)
Definition shape_string (n k : nat) : string :=
  "(" +:+ pretty n +:+ "," +:+ pretty k +:+ ")".

Definition broadcast_error (a b n k : nat) : exn :=
  ValueError ("could not broadcast input array from shape " +:+
              shape_string a b +:+ " into shape " +:+ shape_string n k).

(** The value of [a[i, ...] = Y] for a target slice of shape [(n, k)]:
    a dimension of [Y] is the target's or 1, else numpy refuses with
    [e]. *)
Definition broadcast_row (e : exn) (k : nat) (row : vec T) : result (vec T) :=
  if decide (length row = k) then Ok row
  else match row with
       | [x] => Ok (replicate k x)
       | _ => Raise e
       end.

Fixpoint broadcast_rows (e : exn) (k : nat) (Y : matrix T)
  : result (matrix T) :=
  match Y with
  | [] => Ok []
  | row :: rest =>
      r <-! broadcast_row e k row ;;
      rs <-! broadcast_rows e k rest ;;
      Ok (r :: rs)
  end.

Definition broadcast_to (n k : nat) (Y : matrix T) : result (matrix T) :=
  let e := broadcast_error (length Y) (ncols Y) n k in
  Y' <-! broadcast_rows e k Y ;;
  if decide (length Y' = n) then Ok Y'
  else match Y' with
       | [row] => Ok (replicate n row)
       | _ => Raise e
       end.

(** Reductions of a rank-3 array of shape [(s, n, k)] along axis 0. *)
Definition np_sum0_3 (n k : nat) (S : list (matrix T)) : matrix T :=
  match S with
  | [] => zeros2 n k
  | M :: Ms => foldl (tzip add_) M Ms
  end.

Definition np_mean0_3 (n k : nat) (S : list (matrix T)) : matrix T :=
  tmap (fun s => s / of_Z (Z.of_nat (length S))) (np_sum0_3 n k S).

Definition np_var0_3 (n k : nat) (S : list (matrix T)) : matrix T :=
  let arrmean := np_mean0_3 n k S in
  let x := (fun M : matrix T => tzip sub_ M arrmean) <$> S in
  let x := (fun M : matrix T => tmap (fun e => e * e) M) <$> x in
  tmap (fun s => s / of_Z (Z.of_nat (length S))) (np_sum0_3 n k x).

(** The loop of [predict]: pass [i] writes its output into slot [i]. *)
Fixpoint predict_loop (self : BayesianNeuralNetwork T) (X : matrix T)
    (n k : nat) (idx : list nat) (y_pred_samples : list (matrix T))
  : State (world T) (result (list (matrix T))) :=
  match idx with
  | [] => ret (Ok y_pred_samples)
  | i :: idx =>
      Y <~ Sequential_call (model self) X ;;
      match broadcast_to n k Y with
      | Raise e => ret (Raise e)
      | Ok Y' => predict_loop self X n k idx (<[i := Y']> y_pred_samples)
      end
  end.

(** [BayesianNeuralNetwork.predict] *)
Definition predict (self : BayesianNeuralNetwork T) (X : matrix T)
    (samples : nat)
  : State (world T) (result (matrix T * matrix T)) :=
  let X := normalize self X in
  match last (layers self) with
  | None => ret (Raise (IndexError "list index out of range"))
  | Some n_L =>
      let n := length X in
      let y_pred_samples := replicate samples (zeros2 n n_L) in
      r <~ predict_loop self X n n_L (seq 0 samples) y_pred_samples ;;
      ret (y_pred_samples <-! r ;;
           let y_pred := np_mean0_3 n n_L y_pred_samples in
           let y_pred_var := np_var0_3 n n_L y_pred_samples in
           Ok (y_pred, y_pred_var))
  end.

(** [samples=200] when the caller leaves it out. *)
Definition predict_default (self : BayesianNeuralNetwork T) (X : matrix T)
  : State (world T) (result (matrix T * matrix T)) :=
  predict self X 200.
End Predict.

(** *** Persistence *)

(** What a path holds: the pickled tuple of [save_to], or a Keras model
    written by [tf.keras.models.save_model]. *)
Inductive artifact (T : Type) :=
| Pickle (layers : list nat) (lr klw : T) (norm : string)
         (norm_bounds : option (vec T * vec T))
| SavedModel (m : Sequential T).
Arguments Pickle {T} layers lr klw norm norm_bounds.
Arguments SavedModel {T} m.

(** What [load_from] does to the outside, in order. *)
Inductive io_event :=
| Printed (line : string)
| OpenedForRead (path : string)
| LoadedModel (path : string).

Section Persistence.
Context {T : Type} `{Arith T} `{Transcendental T}.

(** [BayesianNeuralNetwork.save_to], for a save that completes: the
    pickle, then the model, each under its path. *)
Definition save_to (self : BayesianNeuralNetwork T)
    (model_path params_path : string) (fs : gmap string (artifact T))
  : gmap string (artifact T) :=
  let fs := <[params_path :=
                Pickle (layers self) (lr self) (klw self) (norm self)
                       (norm_bounds self)]> fs in
  <[model_path := SavedModel (model self)]> fs.

(** [os.path.exists] *)
Definition exists_ (fs : gmap string (artifact T)) (path : string) : bool :=
  bool_decide (is_Some (fs !! path)).

(** [BayesianNeuralNetwork.load_from]: the result and the trace of
    its prints and reads. *)
Definition load_from (model_path params_path : string)
    (fs : gmap string (artifact T))
  : State (world T) (result (BayesianNeuralNetwork T) * list io_event) :=
  if negb (exists_ fs model_path) then
    ret (Raise (FileNotFoundError "Can't find cached model."), [])
  else if negb (exists_ fs params_path) then
    ret (Raise (FileNotFoundError "Can't find cached model params."), [])
  else
    let out := [Printed ("Loading model from " +:+ model_path);
                OpenedForRead params_path] in
    match fs !! params_path with
    | Some (Pickle layers lr klw norm norm_bounds) =>
        let out := out ++
          [Printed ("Loading model params from " +:+ params_path);
           LoadedModel model_path] in
        match fs !! model_path with
        | Some (SavedModel model) =>
            r <~ BayesianNeuralNetwork_init layers lr klw None None None
                   (Some norm) (Some model) norm_bounds ;;
            ret (r, out)
        | _ => ret (Raise (OSError "Unable to open the saved model"), out)
        end
    | _ => ret (Raise UnpicklingError, out)
    end.
End Persistence.

(** * Properties *)

(** ** The normalizer *)

Section NormalizerFacts.
Context {T : Type} `{Arith T}.

Lemma astype_float64_id (X : matrix T) : astype_float64 X = X.
Proof.
  unfold astype_float64.
  induction X as [|row X IH]; [reflexivity|].
  rewrite fmap_cons, IH. f_equal. apply list_fmap_id.
Qed.

Lemma tensor_id (X : matrix T) : tensor X = X.
Proof. apply astype_float64_id. Qed.

(** Outside of [center] and [meanstd] no branch of [normalize] uses
    the bounds. *)
Lemma normalize_other_mode (self : BayesianNeuralNetwork T) (X : matrix T) :
  String.eqb (norm self) NORM_CENTER = false ->
  String.eqb (norm self) NORM_MEANSTD = false ->
  normalize self X = tensor X.
Proof.
  intros Hc Hm. unfold normalize.
  destruct (norm_bounds self); [|reflexivity].
  rewrite Hc, Hm. reflexivity.
Qed.
End NormalizerFacts.

(** Every row of [X] has [k] entries: an array of shape [(n, k)]. *)
Definition array_of_width {T : Type} (k : nat) (X : matrix T) : Prop :=
  Forall (fun row : list T => length row = k) X.

(** The stored bounds, if there are any, are two vectors of [k]
    entries: they combine entry by entry with the rows of an array of
    width [k]. *)
Definition bounds_fit {T : Type} (self : BayesianNeuralNetwork T) (k : nat)
  : Prop :=
  match norm_bounds self with
  | None => True
  | Some (lb, ub) => length lb = k /\ length ub = k
  end.

(** A network in binary64 with the given mode and no bounds yet; its
    model plays no part in normalization. *)
Definition float_network (mode : string) : BayesianNeuralNetwork float :=
  {| dtype := "float64";
     optimizer := {| learning_rate := 0.01%float; iterations := 0; slots := [] |};
     layers := [2; 1];
     lr := 0.01%float;
     klw := 1%float;
     norm_bounds := None;
     logger := None;
     batch_size := 0;
     norm := mode;
     adv_eps := None;
     soft_0 := 0.01%float;
     sigma_alea := 0.01%float;
     model := {| input_width := 2; seq_layers := [] |} |}.

(** C8. For every input matrix [X], [normalize] on a network whose
    bounds were never set ([norm_bounds] is [None]) returns
    [tensor X], the [float64] cast of [X], which holds the values of
    [X]; this is so for every value of the mode, and [normalize] is a
    total function: it raises nothing. *)
Theorem normalize_before_bounds_is_identity_cast
    {T : Type} `{Arith T} (self : BayesianNeuralNetwork T) (X : matrix T) :
  norm_bounds self = None ->
  normalize self X = tensor X /\ tensor X = X.
Proof.
  intros Hnone. split; [|apply tensor_id].
  unfold normalize. rewrite Hnone. reflexivity.
Qed.

Lemma normalize_before_bounds_witness :
  normalize (float_network NORM_MEANSTD) [[1; 3]; [1; 5]]%float
    = tensor [[1; 3]; [1; 5]]%float
  /\ tensor [[1; 3]; [1; 5]]%float = [[1; 3]; [1; 5]]%float.
Proof.
  apply (normalize_before_bounds_is_identity_cast
           (float_network NORM_MEANSTD) [[1; 3]; [1; 5]]%float).
  reflexivity.
Defined.

(** C5. In mode [minmax], [set_normalize_bounds] stores the column
    minima and maxima, and [normalize] then returns its input as it
    was: on the rows (1, 3), (1, 5) the bounds are ((1, 3), (1, 5)) and
    the output is the input, where a shift by the stored bounds would
    have moved the second column. *)
Theorem normalize_minmax_leaves_input :
  exists self',
    set_normalize_bounds (float_network NORM_MINMAX) [[1; 3]; [1; 5]]%float
      = Ok self'
    /\ norm_bounds self' = Some ([1; 3], [1; 5])%float
    /\ normalize self' [[1; 3]; [1; 5]]%float = [[1; 3]; [1; 5]]%float
    /\ normalize (set_norm_bounds (norm_bounds self') (float_network NORM_CENTER))
         [[1; 3]; [1; 5]]%float = [[0; -1]; [0; 1]]%float.
Proof.
  eexists. split; [vm_compute; reflexivity|].
  split; [reflexivity|]. split; vm_compute; reflexivity.
Qed.

(** In mode [minmax], whatever was stored, [normalize] is the cast. *)
Lemma normalize_minmax_general {T : Type} `{Arith T}
    (self : BayesianNeuralNetwork T) (X : matrix T) :
  norm self = NORM_MINMAX -> normalize self X = X.
Proof.
  intros Hmode. rewrite normalize_other_mode, tensor_id; [reflexivity| |];
    rewrite Hmode; reflexivity.
Qed.

(** ** Division by a zero standard deviation (binary64) *)

Lemma is_zero_Prim2SF (s : float) :
  PrimFloat.is_zero s = true -> exists b, Prim2SF s = S754_zero b.
Proof.
  unfold PrimFloat.is_zero. rewrite FloatAxioms.eqb_spec.
  change (Prim2SF 0%float) with (S754_zero false).
  destruct (Prim2SF s) as [b|b| |b m e]; cbn; [eauto| | |];
    try destruct b; discriminate.
Qed.

Lemma non_finite_of_Prim2SF (y : float) :
  Prim2SF y = S754_nan \/ (exists b, Prim2SF y = S754_infinity b) ->
  non_finite y = true.
Proof.
  unfold non_finite, PrimFloat.is_nan, PrimFloat.is_infinity.
  rewrite !FloatAxioms.eqb_spec, abs_spec.
  change (Prim2SF infinity) with (S754_infinity false).
  intros [-> | [b ->]]; [reflexivity|].
  destruct b; reflexivity.
Qed.

(** Any float divided by a zero is NaN or an infinity. *)
Lemma div_by_zero_non_finite (a s : float) :
  PrimFloat.is_zero s = true -> non_finite (a / s)%float = true.
Proof.
  intros [b Hs]%is_zero_Prim2SF.
  apply non_finite_of_Prim2SF.
  rewrite div_spec, Hs. unfold SF64div, SFdiv.
  destruct (Prim2SF a) as [sa|sa| |sa m e]; eauto.
Qed.

Lemma bcast_lookup {T : Type} (f : T -> T -> T) (X : matrix T) (v : vec T)
    (i j : nat) (row : list T) (x y : T) :
  X !! i = Some row -> row !! j = Some x -> v !! j = Some y ->
  exists row', bcast f X v !! i = Some row' /\ row' !! j = Some (f x y).
Proof.
  intros HX Hrow Hv. exists (zip_with f row v). split.
  - unfold bcast. rewrite list_lookup_fmap, HX. reflexivity.
  - rewrite lookup_zip_with, Hrow. cbn. rewrite Hv. reflexivity.
Qed.

Lemma set_normalize_bounds_meanstd {T : Type} `{Arith T}
    (self : BayesianNeuralNetwork T) (X : matrix T) :
  norm self = NORM_MEANSTD ->
  set_normalize_bounds self X
    = Ok (set_norm_bounds (Some (np_mean0 X, np_std0 X)) self).
Proof.
  intros Hmode. unfold set_normalize_bounds. rewrite Hmode. reflexivity.
Qed.

Lemma normalize_meanstd {T : Type} `{Arith T}
    (self : BayesianNeuralNetwork T) (mean std : vec T) (X : matrix T) :
  norm self = NORM_MEANSTD ->
  normalize (set_norm_bounds (Some (mean, std)) self) X
    = bcast div_ (bcast sub_ X mean) std.
Proof.
  intros Hmode. unfold normalize. cbn. rewrite Hmode. cbn.
  apply tensor_id.
Qed.

(** The three rows (0.1), (0.1), (0.1): one constant column. *)
Definition three_tenths : matrix float := [[0.1]; [0.1]; [0.1]]%float.

(** C10, as stated, fails: the column of [three_tenths] is constant,
    but its mean rounds to 0.10000000000000002, so the stored standard
    deviation is 1.3877787807814457e-17, not zero; [normalize] divides
    by it and returns -1 in every row, a finite value. *)
Lemma meanstd_constant_column_stays_finite :
  exists self',
    set_normalize_bounds (float_network NORM_MEANSTD) three_tenths = Ok self'
    /\ norm_bounds self'
         = Some ([0.10000000000000002], [1.3877787807814457e-17])%float
    /\ normalize self' three_tenths = [[-1]; [-1]; [-1]]%float
    /\ non_finite (-1)%float = false.
Proof.
  eexists. split; [vm_compute; reflexivity|].
  repeat split; vm_compute; reflexivity.
Qed.

(** C10, amended. In mode [meanstd], [normalize] divides by the stored
    standard deviation without a guard: for every instance whose
    stored bounds are a mean and a standard deviation of the width of
    the array [X] (the pair that [set_normalize_bounds] keeps in
    [norm_bounds]), wherever the stored standard deviation of column
    [j] is a zero, every entry of column [j] of [normalize X] is
    [(x - mean) / 0], a NaN or an infinity, and nothing is raised. *)
Theorem normalize_zero_std_is_non_finite
    (self : BayesianNeuralNetwork float) (X : matrix float)
    (mean std : vec float) (i j : nat)
    (row : list float) (x m s : float) :
  norm self = NORM_MEANSTD ->
  norm_bounds self = Some (mean, std) ->
  array_of_width (length mean) X -> length std = length mean ->
  X !! i = Some row -> row !! j = Some x ->
  mean !! j = Some m -> std !! j = Some s ->
  PrimFloat.is_zero s = true ->
  exists row',
    normalize self X !! i = Some row'
    /\ row' !! j = Some ((x - m) / s)%float
    /\ non_finite ((x - m) / s)%float = true.
Proof.
  intros Hmode Hbounds _ _ HX Hrow Hm Hs Hzero.
  unfold normalize. rewrite Hbounds, Hmode. cbn [String.eqb].
  change (String.eqb NORM_MEANSTD NORM_CENTER) with false.
  change (String.eqb NORM_MEANSTD NORM_MEANSTD) with true. cbv iota.
  rewrite tensor_id.
  destruct (bcast_lookup sub_ X mean i j row x m HX Hrow Hm)
    as (r1 & Hr1 & Hx1).
  destruct (bcast_lookup div_ _ std i j r1 _ s Hr1 Hx1 Hs)
    as (r2 & Hr2 & Hx2).
  exists r2. split; [exact Hr2|]. split; [exact Hx2|].
  apply div_by_zero_non_finite, Hzero.
Qed.

(** On the rows (1, 3), (1, 5) [set_normalize_bounds] stores the means
    (1, 4) and the standard deviations (0, 1), and the first column of
    [normalize] is [(1 - 1) / 0]. *)
Lemma normalize_zero_std_witness :
  exists self',
    set_normalize_bounds (float_network NORM_MEANSTD) [[1; 3]; [1; 5]]%float
      = Ok self'
    /\ norm_bounds self' = Some ([1; 4], [0; 1])%float
    /\ exists row',
         normalize self' [[1; 3]; [1; 5]]%float !! 0 = Some row'
         /\ row' !! 0 = Some ((1 - 1) / 0)%float
         /\ non_finite ((1 - 1) / 0)%float = true.
Proof.
  eexists. split; [vm_compute; reflexivity|]. split; [vm_compute; reflexivity|].
  apply (normalize_zero_std_is_non_finite _
           [[1; 3]; [1; 5]]%float [1; 4]%float [0; 1]%float 0 0
           [1; 3]%float 1%float 1%float 0%float);
    solve [reflexivity | vm_compute; reflexivity | repeat constructor].
Defined.

(** ** Persistence *)

(** Whether [msg] has [path] inside it. *)
Definition mentions (path msg : string) : bool :=
  match String.index 0 path msg with Some _ => true | None => false end.

Section PersistenceFacts.
Context {T : Type} `{Arith T} `{Transcendental T}.

Lemma exists_true (fs : gmap string (artifact T)) (path : string) (a : artifact T) :
  fs !! path = Some a -> exists_ fs path = true.
Proof. intros Hp. unfold exists_. rewrite Hp. apply bool_decide_eq_true. eauto. Qed.

Lemma exists_false (fs : gmap string (artifact T)) (path : string) :
  fs !! path = None -> exists_ fs path = false.
Proof.
  intros Hp. unfold exists_. rewrite Hp. apply bool_decide_eq_false.
  intros [a Ha]. discriminate.
Qed.

Lemma load_from_missing_model (model_path params_path : string)
    (fs : gmap string (artifact T)) (w : world T) :
  fs !! model_path = None ->
  load_from model_path params_path fs w
    = ((Raise (FileNotFoundError "Can't find cached model."), []), w).
Proof.
  intros Hm. unfold load_from. rewrite (exists_false _ _ Hm). reflexivity.
Qed.

Lemma load_from_missing_params (model_path params_path : string)
    (fs : gmap string (artifact T)) (w : world T) :
  fs !! model_path <> None ->
  fs !! params_path = None ->
  load_from model_path params_path fs w
    = ((Raise (FileNotFoundError "Can't find cached model params."), []), w).
Proof.
  intros Hm Hp. unfold load_from.
  destruct (fs !! model_path) as [a|] eqn:Ha; [|congruence].
  rewrite (exists_true _ _ _ Ha), (exists_false _ _ Hp). reflexivity.
Qed.

(** What [load_from] returns on the two files written by [save_to]. *)
Lemma load_from_save_to (self : BayesianNeuralNetwork T)
    (model_path params_path : string) (fs : gmap string (artifact T))
    (w : world T) :
  model_path <> params_path ->
  load_from model_path params_path (save_to self model_path params_path fs) w
    = ((Ok {| dtype := "float64";
              optimizer := {| learning_rate := lr self; iterations := 0;
                              slots := [] |};
              layers := layers self;
              lr := lr self;
              klw := klw self;
              norm_bounds := norm_bounds self;
              logger := None;
              batch_size := 0;
              norm := norm self;
              adv_eps := None;
              soft_0 := dec 1 100;
              sigma_alea := dec 1 100;
              model := model self |},
        [Printed ("Loading model from " +:+ model_path);
         OpenedForRead params_path;
         Printed ("Loading model params from " +:+ params_path);
         LoadedModel model_path]), w).
Proof.
  intros Hne. unfold load_from, save_to.
  assert (Hm : <[model_path := SavedModel (model self)]>
                 (<[params_path := Pickle (layers self) (lr self) (klw self)
                                     (norm self) (norm_bounds self)]> fs)
               !! model_path = Some (SavedModel (model self)))
    by apply lookup_insert_eq.
  assert (Hp : <[model_path := SavedModel (model self)]>
                 (<[params_path := Pickle (layers self) (lr self) (klw self)
                                     (norm self) (norm_bounds self)]> fs)
               !! params_path
               = Some (Pickle (layers self) (lr self) (klw self) (norm self)
                         (norm_bounds self))).
  { rewrite lookup_insert_ne by exact Hne. apply lookup_insert_eq. }
  rewrite (exists_true _ _ _ Hm), (exists_true _ _ _ Hp). cbn.
  rewrite Hp, Hm. reflexivity.
Qed.
End PersistenceFacts.

(** A state of the generator over the reals: every draw is 0. *)
Definition quiet_world : world R :=
  {| noise := fun _ => 0%R; cursor := 0; losses := [] |}.

(** A network over the reals with one linear layer of one unit, every
    [mu] and [rho] at 0, KL weight 1, and the given noise scale. *)
Definition unit_layer : DenseVariational R :=
  (layer_assign
     (DenseVariational_init 1 1%R linear default_prior_sigma_1
        default_prior_sigma_2 default_prior_pi)
     [VMat "kernel_mu" [[0%R]]; VVec "bias_mu" [0%R];
      VMat "kernel_rho" [[0%R]]; VVec "bias_rho" [0%R]]).1.

Definition unit_network (sigma_alea : R) : BayesianNeuralNetwork R :=
  {| dtype := "float64";
     optimizer := {| learning_rate := dec 1 100; iterations := 0; slots := [] |};
     layers := [1; 1];
     lr := dec 1 100;
     klw := 1%R;
     norm_bounds := None;
     logger := None;
     batch_size := 0;
     norm := NORM_NONE;
     adv_eps := None;
     soft_0 := dec 1 100;
     sigma_alea := sigma_alea;
     model := {| input_width := 1; seq_layers := [unit_layer] |} |}.

(** C4, as stated, fails: with no file at all, and with the model file
    alone, [load_from] raises [FileNotFoundError] with a fixed text that
    does not contain the path that is missing. *)
Lemma load_from_error_omits_path :
  (load_from "weights.h5" "params.pkl" ∅ quiet_world).1
    = (Raise (FileNotFoundError "Can't find cached model."), [])
  /\ mentions "weights.h5" "Can't find cached model." = false
  /\ (load_from "weights.h5" "params.pkl"
        {[ "weights.h5" := SavedModel (model (unit_network 1)) ]} quiet_world).1
     = (Raise (FileNotFoundError "Can't find cached model params."), [])
  /\ mentions "params.pkl" "Can't find cached model params." = false.
Proof.
  split; [rewrite load_from_missing_model by apply lookup_empty; reflexivity|].
  split; [reflexivity|].
  split; [|reflexivity].
  rewrite load_from_missing_params; [reflexivity| |].
  - rewrite lookup_singleton_eq. discriminate.
  - apply lookup_singleton_ne. discriminate.
Qed.

(** C4, amended. If either file is absent, [load_from] raises
    [FileNotFoundError] before anything is printed, opened or loaded
    (the trace is empty and the state untouched); its message is the
    fixed text "Can't find cached model." when the model file is
    absent and "Can't find cached model params." when only the
    parameter file is: the message tells which of the two artifacts is
    missing, not its path. *)
Theorem load_from_missing_artifact {T : Type} `{Arith T} `{Transcendental T}
    (model_path params_path : string) (fs : gmap string (artifact T))
    (w : world T) :
  fs !! model_path = None \/ fs !! params_path = None ->
  load_from model_path params_path fs w
    = ((Raise (FileNotFoundError
                 (match fs !! model_path with
                  | None => "Can't find cached model."
                  | Some _ => "Can't find cached model params."
                  end)), []), w).
Proof.
  intros Habsent. destruct (fs !! model_path) as [a|] eqn:Hm.
  - apply load_from_missing_params; [congruence|].
    destruct Habsent as [Hm'|Hp]; [discriminate|exact Hp].
  - apply load_from_missing_model, Hm.
Qed.

Lemma load_from_missing_artifact_witness :
  load_from "weights.h5" "params.pkl" ∅ quiet_world
    = ((Raise (FileNotFoundError
                 (match (∅ : gmap string (artifact R)) !! "weights.h5" with
                  | None => "Can't find cached model."
                  | Some _ => "Can't find cached model params."
                  end)), []), quiet_world).
Proof.
  apply (load_from_missing_artifact "weights.h5" "params.pkl" ∅ quiet_world).
  left. apply lookup_empty.
Defined.

(** C3, as stated, fails: a network saved with noise scale 0.05 comes
    back from [load_from] with noise scale 0.01. *)
Lemma load_from_resets_sigma_alea :
  exists self',
    (load_from "weights.h5" "params.pkl"
       (save_to (unit_network (dec 5 100)) "weights.h5" "params.pkl" ∅)
       quiet_world).1.1 = Ok self'
    /\ sigma_alea self' <> sigma_alea (unit_network (dec 5 100)).
Proof.
  eexists. split.
  - rewrite load_from_save_to by discriminate. reflexivity.
  - cbn. unfold dec. cbn. lra.
Qed.

(** C3, amended. For distinct paths, [load_from] after [save_to]
    returns an instance whose layer widths, learning rate, KL weight,
    normalization mode and normalization bounds are those of the saved
    instance, around the saved model; [soft_0], [sigma_alea] and
    [adv_eps] are not written by [save_to], and the returned instance
    holds the defaults of the constructor for them: 0.01, 0.01 and
    [None]. *)
Theorem load_from_save_to_hyperparameters
    {T : Type} `{Arith T} `{Transcendental T}
    (self : BayesianNeuralNetwork T) (model_path params_path : string)
    (fs : gmap string (artifact T)) (w : world T) :
  model_path <> params_path ->
  exists self',
    (load_from model_path params_path
       (save_to self model_path params_path fs) w).1.1 = Ok self'
    /\ layers self' = layers self
    /\ lr self' = lr self
    /\ klw self' = klw self
    /\ norm self' = norm self
    /\ norm_bounds self' = norm_bounds self
    /\ model self' = model self
    /\ soft_0 self' = dec 1 100
    /\ sigma_alea self' = dec 1 100
    /\ adv_eps self' = None.
Proof.
  intros Hne. eexists. split.
  - rewrite load_from_save_to by exact Hne. reflexivity.
  - cbn. repeat split; reflexivity.
Qed.

Lemma load_from_save_to_witness :
  exists self',
    (load_from "weights.h5" "params.pkl"
       (save_to (unit_network (dec 5 100)) "weights.h5" "params.pkl" ∅)
       quiet_world).1.1 = Ok self'
    /\ layers self' = layers (unit_network (dec 5 100))
    /\ lr self' = lr (unit_network (dec 5 100))
    /\ klw self' = klw (unit_network (dec 5 100))
    /\ norm self' = norm (unit_network (dec 5 100))
    /\ norm_bounds self' = norm_bounds (unit_network (dec 5 100))
    /\ model self' = model (unit_network (dec 5 100))
    /\ soft_0 self' = dec 1 100
    /\ sigma_alea self' = dec 1 100
    /\ adv_eps self' = None.
Proof.
  apply (load_from_save_to_hyperparameters (unit_network (dec 5 100))
           "weights.h5" "params.pkl" ∅ quiet_world).
  discriminate.
Defined.

(** ** Standardization over the reals *)

Section Standardization.
Local Open Scope R_scope.

(** The sum of a list of reals, and column [j] of a matrix. *)
Definition rsum (l : list R) : R := foldr Rplus 0 l.
Definition column (j : nat) (X : matrix R) : list R :=
  (fun row : list R => nth j row 0) <$> X.

(** Every row of [X] has [k] entries. *)
Definition rectangular (k : nat) (X : matrix R) : Prop :=
  Forall (fun row : list R => length row = k) X.

Lemma foldl_zip_add_length (rs : matrix R) (r : vec R) (k : nat) :
  rectangular k rs -> length r = k ->
  length (foldl (zip_with Rplus) r rs) = k.
Proof.
  intros Hrs. revert r. induction Hrs as [|r1 rs Hr1 _ IH]; intros r Hr.
  - exact Hr.
  - cbn. apply IH. rewrite length_zip_with. lia.
Qed.

Lemma foldl_zip_add_lookup (rs : matrix R) (r : vec R) (k j : nat) (x : R) :
  rectangular k rs -> length r = k -> r !! j = Some x ->
  foldl (zip_with Rplus) r rs !! j = Some (x + rsum (column j rs)).
Proof.
  intros Hrs. revert r x. induction Hrs as [|r1 rs Hr1 _ IH]; intros r x Hr Hx.
  - cbn. rewrite Hx. f_equal. unfold rsum, column. cbn. lra.
  - cbn. pose proof (lookup_lt_Some _ _ _ Hx) as Hj.
    destruct (lookup_lt_is_Some_2 r1 j) as [x1 Hx1]; [lia|].
    rewrite (IH (zip_with Rplus r r1) (x + x1)).
    + unfold rsum, column. cbn. fold (column j rs). fold (rsum (column j rs)).
      rewrite (nth_lookup_Some _ _ _ _ Hx1). f_equal. lra.
    + rewrite length_zip_with. lia.
    + rewrite lookup_zip_with, Hx. cbn. rewrite Hx1. reflexivity.
Qed.

Lemma np_sum0_length (X : matrix R) (k : nat) :
  X <> [] -> rectangular k X -> length (np_sum0 X) = k.
Proof.
  intros Hne Hrect. destruct X as [|r rs]; [congruence|].
  apply Forall_cons in Hrect as [Hr Hrs].
  apply (foldl_zip_add_length rs r k Hrs Hr).
Qed.

Lemma np_sum0_lookup (X : matrix R) (k j : nat) :
  X <> [] -> rectangular k X -> (j < k)%nat ->
  np_sum0 X !! j = Some (rsum (column j X)).
Proof.
  intros Hne Hrect Hj. destruct X as [|r rs]; [congruence|].
  apply Forall_cons in Hrect as [Hr Hrs].
  destruct (lookup_lt_is_Some_2 r j) as [x Hx]; [lia|].
  cbn. change (foldl (zip_with add_) r rs) with (foldl (zip_with Rplus) r rs).
  rewrite (foldl_zip_add_lookup rs r k j x Hrs Hr Hx).
  rewrite (nth_lookup_Some _ _ _ _ Hx). reflexivity.
Qed.

(** [X.mean(0)] and [X.var(0)], column by column. *)
Definition mean_of (xs : list R) : R := rsum xs / INR (length xs).
Definition var_of (xs : list R) : R :=
  rsum ((fun x => (x - mean_of xs) * (x - mean_of xs)) <$> xs) / INR (length xs).

Lemma column_length (j : nat) (X : matrix R) : length (column j X) = length X.
Proof. apply length_fmap. Qed.

Lemma np_mean0_length (X : matrix R) (k : nat) :
  X <> [] -> rectangular k X -> length (np_mean0 X) = k.
Proof.
  intros Hne Hrect. unfold np_mean0. rewrite length_fmap.
  apply np_sum0_length; assumption.
Qed.

Lemma np_mean0_lookup (X : matrix R) (k j : nat) :
  X <> [] -> rectangular k X -> (j < k)%nat ->
  np_mean0 X !! j = Some (mean_of (column j X)).
Proof.
  intros Hne Hrect Hj. unfold np_mean0.
  rewrite list_lookup_fmap, (np_sum0_lookup X k j Hne Hrect Hj). cbn.
  unfold mean_of. rewrite column_length, INR_IZR_INZ. reflexivity.
Qed.

Lemma bcast_rectangular (f : R -> R -> R) (X : matrix R) (v : vec R) (k : nat) :
  rectangular k X -> length v = k -> rectangular k (bcast f X v).
Proof.
  intros Hrect Hv. unfold bcast, rectangular.
  apply Forall_fmap. eapply Forall_impl; [exact Hrect|].
  intros row Hrow. cbn in *. rewrite length_zip_with. lia.
Qed.

Lemma fmap_rectangular (g : R -> R) (X : matrix R) (k : nat) :
  rectangular k X ->
  rectangular k ((fun row : list R => g <$> row) <$> X).
Proof.
  intros Hrect. unfold rectangular.
  apply Forall_fmap. eapply Forall_impl; [exact Hrect|].
  intros row Hrow. cbn in *. rewrite length_fmap. exact Hrow.
Qed.

Lemma column_bcast (f : R -> R -> R) (X : matrix R) (v : vec R)
    (k j : nat) (y : R) :
  rectangular k X -> v !! j = Some y -> (j < k)%nat ->
  column j (bcast f X v) = (fun x => f x y) <$> column j X.
Proof.
  intros Hrect Hv Hj. unfold column, bcast.
  induction Hrect as [|row X Hrow _ IH]; [reflexivity|].
  rewrite !fmap_cons, IH. f_equal.
  destruct (lookup_lt_is_Some_2 row j) as [x Hx]; [lia|].
  rewrite (nth_lookup_Some _ _ _ _ Hx).
  apply nth_lookup_Some. rewrite lookup_zip_with, Hx. cbn. rewrite Hv.
  reflexivity.
Qed.

Lemma column_fmap (g : R -> R) (X : matrix R) (k j : nat) :
  rectangular k X -> (j < k)%nat ->
  column j ((fun row : list R => g <$> row) <$> X) = g <$> column j X.
Proof.
  intros Hrect Hj. unfold column.
  induction Hrect as [|row X Hrow _ IH]; [reflexivity|].
  rewrite !fmap_cons, IH. f_equal.
  destruct (lookup_lt_is_Some_2 row j) as [x Hx]; [lia|].
  rewrite (nth_lookup_Some _ _ _ _ Hx).
  apply nth_lookup_Some. rewrite list_lookup_fmap, Hx. reflexivity.
Qed.

Lemma np_var0_length (X : matrix R) (k : nat) :
  X <> [] -> rectangular k X -> length (np_var0 X) = k.
Proof.
  intros Hne Hrect. unfold np_var0. rewrite length_fmap.
  apply np_sum0_length.
  - destruct X; [congruence|discriminate].
  - apply fmap_rectangular.
    apply (bcast_rectangular Rminus X (np_mean0 X) k Hrect).
    apply np_mean0_length; assumption.
Qed.

Lemma np_var0_lookup (X : matrix R) (k j : nat) :
  X <> [] -> rectangular k X -> (j < k)%nat ->
  np_var0 X !! j = Some (var_of (column j X)).
Proof.
  intros Hne Hrect Hj. unfold np_var0.
  pose proof (np_mean0_lookup X k j Hne Hrect Hj) as Hmean.
  pose proof (np_mean0_length X k Hne Hrect) as Hlen.
  change ((fun row : list R => zip_with sub_ row (np_mean0 X)) <$> X)
    with (bcast Rminus X (np_mean0 X)).
  rewrite list_lookup_fmap.
  rewrite (np_sum0_lookup _ k j).
  - cbn.
    rewrite (column_fmap _ _ k j); [|apply bcast_rectangular; assumption|exact Hj].
    rewrite (column_bcast Rminus X _ k j _ Hrect Hmean Hj).
    rewrite <- list_fmap_compose.
    unfold var_of. rewrite column_length, INR_IZR_INZ. reflexivity.
  - destruct X; [congruence|discriminate].
  - apply fmap_rectangular, bcast_rectangular; assumption.
  - exact Hj.
Qed.

(** *** One column *)

Lemma rsum_standardized (xs : list R) (m s : R) :
  rsum ((fun x => (x - m) / s) <$> xs) = (rsum xs - INR (length xs) * m) / s.
Proof.
  induction xs as [|x xs IH].
  - unfold rsum. cbn. unfold Rdiv. ring.
  - rewrite fmap_cons. unfold rsum in *. cbn [foldr length].
    rewrite IH, S_INR. unfold Rdiv. ring.
Qed.

Lemma rsum_squares_standardized (xs : list R) (m s c : R) :
  c = 0 ->
  rsum ((fun z => (z - c) * (z - c)) <$> ((fun x => (x - m) / s) <$> xs))
    = rsum ((fun x => (x - m) * (x - m)) <$> xs) / (s * s).
Proof.
  intros ->. induction xs as [|x xs IH].
  - unfold rsum. cbn. unfold Rdiv. ring.
  - rewrite !fmap_cons. unfold rsum in *. cbn [foldr].
    rewrite IH. unfold Rdiv. rewrite Rinv_mult. ring.
Qed.

Lemma rsum_squares_nonneg (xs : list R) (m : R) :
  0 <= rsum ((fun x => (x - m) * (x - m)) <$> xs).
Proof.
  induction xs as [|x xs IH]; unfold rsum in *; cbn; [lra|].
  pose proof (Rle_0_sqr (x - m)) as Hsq. unfold Rsqr in Hsq. lra.
Qed.

Lemma INR_length_pos (xs : list R) : xs <> [] -> 0 < INR (length xs).
Proof.
  intros Hne. destruct xs; [congruence|]. apply lt_0_INR. cbn. lia.
Qed.

Lemma var_of_nonneg (xs : list R) : xs <> [] -> 0 <= var_of xs.
Proof.
  intros Hne. unfold var_of.
  apply Rmult_le_pos; [apply rsum_squares_nonneg|].
  left. apply Rinv_0_lt_compat, INR_length_pos, Hne.
Qed.

Lemma mean_of_standardized (xs : list R) (s : R) :
  xs <> [] ->
  mean_of ((fun x => (x - mean_of xs) / s) <$> xs) = 0.
Proof.
  intros Hne. pose proof (INR_length_pos xs Hne) as Hn.
  unfold mean_of at 1. rewrite rsum_standardized, length_fmap.
  unfold mean_of. unfold Rdiv.
  replace (rsum xs - INR (length xs) * (rsum xs * / INR (length xs)))
    with 0 by (field; lra).
  ring.
Qed.

Lemma var_of_standardized (xs : list R) :
  xs <> [] -> R_sqrt.sqrt (var_of xs) <> 0 ->
  var_of ((fun x => (x - mean_of xs) / R_sqrt.sqrt (var_of xs)) <$> xs) = 1.
Proof.
  intros Hne Hs. pose proof (INR_length_pos xs Hne) as Hn.
  pose proof (var_of_nonneg xs Hne) as Hv.
  unfold var_of at 1.
  rewrite rsum_squares_standardized by (apply mean_of_standardized, Hne).
  rewrite length_fmap, sqrt_sqrt by exact Hv.
  assert (Hv0 : var_of xs <> 0) by (intros H0; apply Hs; rewrite H0; apply sqrt_0).
  fold (rsum ((fun x => (x - mean_of xs) * (x - mean_of xs)) <$> xs)).
  transitivity (var_of xs / var_of xs); [|field; exact Hv0].
  unfold var_of at 2. field. split; [lra|exact Hv0].
Qed.
End Standardization.

Section StandardizationTheorem.
Local Open Scope R_scope.

Lemma np_std0_lookup (X : matrix R) (k j : nat) :
  X <> [] -> rectangular k X -> (j < k)%nat ->
  np_std0 X !! j = Some (R_sqrt.sqrt (var_of (column j X))).
Proof.
  intros Hne Hrect Hj. unfold np_std0.
  rewrite list_lookup_fmap, (np_var0_lookup X k j Hne Hrect Hj). reflexivity.
Qed.

(** Column [j] of the standardized matrix. *)
Lemma column_standardized (X : matrix R) (k j : nat) :
  X <> [] -> rectangular k X -> (j < k)%nat ->
  column j (bcast Rdiv (bcast Rminus X (np_mean0 X)) (np_std0 X))
    = (fun x => (x - mean_of (column j X)) / R_sqrt.sqrt (var_of (column j X)))
        <$> column j X.
Proof.
  intros Hne Hrect Hj.
  rewrite (column_bcast Rdiv _ _ k j _
             (bcast_rectangular Rminus X _ k Hrect (np_mean0_length X k Hne Hrect))
             (np_std0_lookup X k j Hne Hrect Hj) Hj).
  rewrite (column_bcast Rminus X _ k j _ Hrect
             (np_mean0_lookup X k j Hne Hrect Hj) Hj).
  rewrite <- list_fmap_compose. reflexivity.
Qed.

Lemma standardized_shape (X : matrix R) (k : nat) :
  X <> [] -> rectangular k X ->
  bcast Rdiv (bcast Rminus X (np_mean0 X)) (np_std0 X) <> []
  /\ rectangular k (bcast Rdiv (bcast Rminus X (np_mean0 X)) (np_std0 X)).
Proof.
  intros Hne Hrect. split.
  - destruct X; [congruence|discriminate].
  - apply bcast_rectangular.
    + apply bcast_rectangular; [exact Hrect|].
      apply np_mean0_length; assumption.
    + unfold np_std0. rewrite length_fmap. apply np_var0_length; assumption.
Qed.
End StandardizationTheorem.

(** The rows (1e16), (1e16 + 2): a column whose spread is small for
    its size. *)
Definition ill_conditioned : matrix float :=
  [[1e16]; [10000000000000002]]%float.

(** C9, as stated, fails in binary64: the column of [ill_conditioned]
    has the stored standard deviation 1.4142135623730951, not zero,
    yet the sum of its two entries rounds, the stored mean is the first
    entry, and the normalized column is (0, 1.4142135623730949): its
    mean is above 0.7 and its variance below 0.6, far from 0 and 1. *)
Lemma meanstd_float64_misses_zero_mean_unit_variance :
  exists self',
    set_normalize_bounds (float_network NORM_MEANSTD) ill_conditioned = Ok self'
    /\ norm_bounds self' = Some ([1e16], [1.4142135623730951])%float
    /\ normalize self' ill_conditioned = [[0]; [1.4142135623730949]]%float
    /\ np_mean0 (normalize self' ill_conditioned) = [0.70710678118654746]%float
    /\ np_var0 (normalize self' ill_conditioned) = [0.49999999999999989]%float
    /\ PrimFloat.ltb 0.7 0.70710678118654746 = true
    /\ PrimFloat.ltb 0.49999999999999989 0.6 = true.
Proof.
  eexists. split; [vm_compute; reflexivity|].
  repeat split; vm_compute; reflexivity.
Qed.

(** C9, amended. In mode [meanstd], over exact real arithmetic, for
    every non-empty training array [X] (all rows of one length) whose
    columns all have a nonzero standard deviation, [set_normalize_bounds X]
    succeeds and [normalize X] is an array of the shape of [X] in which
    every column has mean 0 and variance 1, the variance being the mean
    squared deviation from the column mean; numpy's [mean(0)] and
    [var(0)] of the output are accordingly all 0 and all 1. *)
Theorem meanstd_normalize_standardizes
    (self : BayesianNeuralNetwork R) (X : matrix R) :
  norm self = NORM_MEANSTD ->
  X <> [] ->
  rectangular (ncols X) X ->
  (forall j, j < ncols X -> R_sqrt.sqrt (var_of (column j X)) <> 0%R) ->
  exists self',
    set_normalize_bounds self X = Ok self'
    /\ length (normalize self' X) = length X
    /\ rectangular (ncols X) (normalize self' X)
    /\ (forall j, j < ncols X ->
          mean_of (column j (normalize self' X)) = 0%R
          /\ var_of (column j (normalize self' X)) = 1%R)
    /\ np_mean0 (normalize self' X) = replicate (ncols X) 0%R
    /\ np_var0 (normalize self' X) = replicate (ncols X) 1%R.
Proof.
  intros Hmode Hne Hrect Hstd.
  eexists. split; [apply set_normalize_bounds_meanstd, Hmode|].
  rewrite normalize_meanstd by exact Hmode.
  change (@div_ R R_arith) with Rdiv. change (@sub_ R R_arith) with Rminus.
  set (k := ncols X) in *.
  destruct (standardized_shape X k Hne Hrect) as [HZne HZrect].
  assert (Hcol : forall j, j < k -> column j X <> []).
  { intros j _ Hnil. apply Hne. apply fmap_nil_inv in Hnil. exact Hnil. }
  assert (Hmean : forall j, j < k ->
            mean_of (column j (bcast Rdiv (bcast Rminus X (np_mean0 X))
                                 (np_std0 X))) = 0%R).
  { intros j Hj. rewrite (column_standardized X k j Hne Hrect Hj).
    apply mean_of_standardized, Hcol, Hj. }
  assert (Hvar : forall j, j < k ->
            var_of (column j (bcast Rdiv (bcast Rminus X (np_mean0 X))
                                (np_std0 X))) = 1%R).
  { intros j Hj. rewrite (column_standardized X k j Hne Hrect Hj).
    apply var_of_standardized; [apply Hcol, Hj|apply Hstd, Hj]. }
  split; [unfold bcast; rewrite !length_fmap; reflexivity|].
  split; [exact HZrect|]. split; [intros j Hj; split; auto|].
  split; apply list_eq; intros j; destruct (decide (j < k)) as [Hj|Hj].
  - rewrite (np_mean0_lookup _ k j HZne HZrect Hj).
    rewrite lookup_replicate_2 by exact Hj. f_equal. apply Hmean, Hj.
  - rewrite !lookup_ge_None_2; [reflexivity| |].
    + rewrite length_replicate. lia.
    + rewrite (np_mean0_length _ k HZne HZrect). lia.
  - rewrite (np_var0_lookup _ k j HZne HZrect Hj).
    rewrite lookup_replicate_2 by exact Hj. f_equal. apply Hvar, Hj.
  - rewrite !lookup_ge_None_2; [reflexivity| |].
    + rewrite length_replicate. lia.
    + rewrite (np_var0_length _ k HZne HZrect). lia.
Qed.

(** The unit network over the reals in a given normalization mode. *)
Definition real_network (mode : string) : BayesianNeuralNetwork R :=
  {| dtype := "float64";
     optimizer := optimizer (unit_network (dec 1 100));
     layers := [1; 1];
     lr := dec 1 100;
     klw := 1%R;
     norm_bounds := None;
     logger := None;
     batch_size := 0;
     norm := mode;
     adv_eps := None;
     soft_0 := dec 1 100;
     sigma_alea := dec 1 100;
     model := model (unit_network (dec 1 100)) |}.

Lemma meanstd_normalize_standardizes_witness :
  exists self',
    set_normalize_bounds (real_network NORM_MEANSTD) [[0%R]; [2%R]] = Ok self'
    /\ length (normalize self' [[0%R]; [2%R]]) = length [[0%R]; [2%R]]
    /\ rectangular (ncols [[0%R]; [2%R]]) (normalize self' [[0%R]; [2%R]])
    /\ (forall j, j < ncols [[0%R]; [2%R]] ->
          mean_of (column j (normalize self' [[0%R]; [2%R]])) = 0%R
          /\ var_of (column j (normalize self' [[0%R]; [2%R]])) = 1%R)
    /\ np_mean0 (normalize self' [[0%R]; [2%R]])
       = replicate (ncols [[0%R]; [2%R]]) 0%R
    /\ np_var0 (normalize self' [[0%R]; [2%R]])
       = replicate (ncols [[0%R]; [2%R]]) 1%R.
Proof.
  apply (meanstd_normalize_standardizes (real_network NORM_MEANSTD) [[0%R]; [2%R]]).
  - reflexivity.
  - discriminate.
  - repeat constructor.
  - intros j Hj. cbn in Hj. replace j with 0 by lia.
    unfold column, var_of, mean_of, rsum. cbn.
    replace (((0 - (0 + (2 + 0)) / (1 + 1)) * (0 - (0 + (2 + 0)) / (1 + 1))
              + ((2 - (0 + (2 + 0)) / (1 + 1)) * (2 - (0 + (2 + 0)) / (1 + 1)) + 0))
             / (1 + 1))%R with 1%R by field.
    rewrite sqrt_1. lra.
Defined.

(** ** The Gaussian densities behind [tfd.Normal] *)

Section Gaussian.
Local Open Scope R_scope.

(** The density of N(loc, scale) at [x]. *)
Definition gauss_pdf (loc scale x : R) : R :=
  / (scale * R_sqrt.sqrt (2 * PI))
  * exp (- ((x - loc) * (x - loc) / (2 * (scale * scale)))).

Lemma two_PI_pos : 0 < 2 * PI.
Proof. pose proof PI_RGT_0. lra. Qed.

Lemma sqrt_two_PI_pos : 0 < R_sqrt.sqrt (2 * PI).
Proof. apply sqrt_lt_R0, two_PI_pos. Qed.

Lemma exp_half_ln_two_PI : exp (5 / 10 * ln (2 * PI)) = R_sqrt.sqrt (2 * PI).
Proof.
  rewrite <- (Rpower_sqrt (2 * PI) two_PI_pos). unfold Rpower.
  f_equal. field.
Qed.

Lemma gauss_pdf_pos (loc scale x : R) : 0 < scale -> 0 < gauss_pdf loc scale x.
Proof.
  intros Hs. unfold gauss_pdf. apply Rmult_lt_0_compat; [|apply exp_pos].
  apply Rinv_0_lt_compat, Rmult_lt_0_compat; [exact Hs|apply sqrt_two_PI_pos].
Qed.

(** [Normal.prob] is the density, [Normal.log_prob] its logarithm. *)
Lemma normal_prob_is_pdf (loc scale x : R) :
  0 < scale -> normal_prob loc scale x = gauss_pdf loc scale x.
Proof.
  intros Hs. unfold normal_prob, normal_log_prob, gauss_pdf, dec. cbn.
  pose proof sqrt_two_PI_pos as Hq.
  unfold Rminus at 1. rewrite exp_plus, exp_Ropp, exp_plus.
  rewrite exp_half_ln_two_PI, (exp_ln scale Hs).
  rewrite (Rmult_comm (R_sqrt.sqrt (2 * PI)) scale), Rmult_comm.
  f_equal. f_equal. field. lra.
Qed.

Lemma normal_log_prob_is_log_pdf (loc scale x : R) :
  0 < scale -> normal_log_prob loc scale x = ln (gauss_pdf loc scale x).
Proof.
  intros Hs. rewrite <- (normal_prob_is_pdf loc scale x Hs).
  unfold normal_prob. cbn. rewrite ln_exp. reflexivity.
Qed.

(** [softplus] is positive, so the effective standard deviation is at
    least 0.001. *)
Lemma softplus_pos (x : R) : 0 < softplus x.
Proof.
  unfold softplus. cbn. rewrite <- ln_1.
  apply ln_increasing; [lra|]. pose proof (exp_pos x). lra.
Qed.

Lemma effective_sigma_pos (rho : R) : 0 < dec 1 1000 + softplus (dec 1 10 * rho).
Proof.
  pose proof (softplus_pos (dec 1 10 * rho)) as Hsp.
  unfold dec in *. cbn in *. lra.
Qed.

(** The constant [np.log(np.expm1(1.))] is positive. *)
Lemma log_expm1_pos : 0 < ln (exp 1 - 1).
Proof.
  rewrite <- ln_1. apply ln_increasing; [lra|].
  pose proof (exp_ineq1 1 ltac:(lra)). lra.
Qed.
End Gaussian.

(** ** Lists and shapes *)

Section Zips.
Context {A B C D E : Type}.

Lemma zip_with_zip_with3_fmap (F : D -> E -> D) (G : A -> B -> C -> D)
    (Hf : C -> E) (a : list A) (b : list B) (c : list C) :
  zip_with F (zip_with3 G a b c) (Hf <$> c)
    = zip_with3 (fun x y z => F (G x y z) (Hf z)) a b c.
Proof.
  revert b c. induction a as [|x a IH]; intros [|y b] [|z c]; try reflexivity.
  cbn. rewrite IH. reflexivity.
Qed.

Lemma zip_with3_ext (P : B -> Prop) (f g : A -> B -> C -> D)
    (a : list A) (b : list B) (c : list C) :
  (forall x y z, P y -> f x y z = g x y z) ->
  Forall P b ->
  zip_with3 f a b c = zip_with3 g a b c.
Proof.
  intros Hfg Hb. revert a c.
  induction Hb as [|y b Hy _ IH]; intros [|x a] [|z c]; try reflexivity.
  cbn. rewrite IH, (Hfg x y z Hy). reflexivity.
Qed.

Lemma zip_with3_app (f : A -> B -> C -> D) (a1 a2 : list A) (b1 b2 : list B)
    (c1 c2 : list C) :
  length a1 = length b1 -> length b1 = length c1 ->
  zip_with3 f (a1 ++ a2) (b1 ++ b2) (c1 ++ c2)
    = zip_with3 f a1 b1 c1 ++ zip_with3 f a2 b2 c2.
Proof.
  revert b1 c1. induction a1 as [|x a1 IH]; intros [|y b1] [|z c1] Hab Hbc;
    try discriminate; [reflexivity|].
  cbn. rewrite IH; [reflexivity| |]; cbn in *; lia.
Qed.
End Zips.

(** Two rank-2 arrays of one shape. *)
Definition same_shape {A B : Type} (M : list (list A)) (N : list (list B)) : Prop :=
  Forall2 (fun r1 r2 => length r1 = length r2) M N.

Lemma concat_zip_with3 {A B C D : Type} (f : A -> B -> C -> D)
    (M : list (list A)) (N : list (list B)) (P : list (list C)) :
  same_shape M N -> same_shape N P ->
  concat (zip_with3 (zip_with3 f) M N P)
    = zip_with3 f (concat M) (concat N) (concat P).
Proof.
  intros HMN. revert P. induction HMN as [|r1 r2 M N Hr _ IH]; intros P HNP.
  - inversion HNP. reflexivity.
  - inversion HNP as [|? r3 ? P' Hr' HNP']; subst. cbn.
    rewrite zip_with3_app by assumption. rewrite IH by assumption. reflexivity.
Qed.

Lemma same_shape_refl {A : Type} (M : list (list A)) : same_shape M M.
Proof. induction M; constructor; auto. Qed.

Lemma same_shape_sym {A B : Type} (M : list (list A)) (N : list (list B)) :
  same_shape M N -> same_shape N M.
Proof. induction 1; constructor; auto. Qed.

Lemma same_shape_trans {A B C : Type} (M : list (list A)) (N : list (list B))
    (P : list (list C)) :
  same_shape M N -> same_shape N P -> same_shape M P.
Proof.
  intros HMN. revert P.
  induction HMN as [|r1 r2 M N Hr _ IH]; intros P HNP;
    inversion HNP as [|? r3 ? P' Hr' HNP']; subst; constructor.
  - congruence.
  - apply IH, HNP'.
Qed.

Lemma same_shape_fmap {A B : Type} (f : A -> B) (M : list (list A)) :
  same_shape M ((fun row : list A => f <$> row) <$> M).
Proof.
  induction M; constructor; [|assumption]. rewrite length_fmap. reflexivity.
Qed.

Lemma same_shape_zip_with {A B C : Type} (f : A -> B -> C)
    (M : list (list A)) (N : list (list B)) :
  same_shape M N -> same_shape M (zip_with (zip_with f) M N).
Proof.
  induction 1; constructor; [|assumption].
  rewrite length_zip_with. lia.
Qed.

Lemma same_shape_mfill {T : Type} (M : matrix T) (f : nat -> T) :
  same_shape M (mfill M f).
Proof.
  revert f. induction M as [|r M IH]; intros f; constructor; [|apply IH].
  rewrite length_fmap, length_seq. reflexivity.
Qed.

(** ** The forward pass of a layer, unfolded *)

Section ForwardPass.
Context {T : Type} `{Arith T} `{Transcendental T}.
Local Open Scope sc_scope.

(** The weights sampled by [call] in state [w]: the kernel reads the
    draws from the cursor on, the bias the draws after the kernel's. *)
Definition sampled_kernel (self : DenseVariational T) (w : world T) : matrix T :=
  tzip add_ (kernel_mu self)
    (tzip mul_ (sigma_of (kernel_rho self))
       (tfill (kernel_mu self) (fun i => noise w (cursor w + i)%nat))).

Definition sampled_bias (self : DenseVariational T) (w : world T) : vec T :=
  tzip add_ (bias_mu self)
    (tzip mul_ (sigma_of (bias_rho self))
       (tfill (bias_mu self)
          (fun i => noise w (cursor w + length (concat (kernel_mu self)) + i)%nat))).

(** The number of draws of one call. *)
Definition weight_count (self : DenseVariational T) : nat :=
  length (concat (kernel_mu self)) + length (bias_mu self).

Lemma call_unfold (self : DenseVariational T) (inputs : matrix T) (w : world T) :
  call self inputs w
    = (apply_activation (activation self)
         (bcast add_ (K_dot (units self) inputs (sampled_kernel self w))
                (sampled_bias self w)),
       {| noise := noise w;
          cursor := (cursor w + weight_count self)%nat;
          losses := losses w ++
            [kl_loss self (sampled_kernel self w) (kernel_mu self)
                     (sigma_of (kernel_rho self))
             + kl_loss self (sampled_bias self w) (bias_mu self)
                       (sigma_of (bias_rho self))] |}).
Proof.
  unfold call, bind, ret, random_normal, add_loss, weight_count. cbn.
  rewrite Nat.add_assoc. reflexivity.
Qed.
End ForwardPass.

(** ** The KL term *)

Section KL.
Local Open Scope R_scope.

Lemma foldl_Rplus (l : list R) (a : R) : foldl Rplus a l = a + rsum l.
Proof.
  revert a. induction l as [|x l IH]; intros a; unfold rsum in *; cbn.
  - lra.
  - rewrite IH. lra.
Qed.

Lemma K_sum_vec (v : vec R) : K_sum v = rsum v.
Proof. unfold K_sum. cbn. rewrite foldl_Rplus. lra. Qed.

Lemma K_sum_matrix (M : matrix R) : K_sum M = rsum (concat M).
Proof. unfold K_sum. cbn. rewrite foldl_Rplus. lra. Qed.

(** What the code subtracts per element: the log-density of [w] under
    N(mu, sigma), minus the logarithm of the constant [log(e - 1)] plus
    the mixture density. *)
Definition kl_term (self : DenseVariational R) (mu sigma w : R) : R :=
  ln (gauss_pdf mu sigma w)
  - ln (ln (exp 1 - 1)
        + prior_pi_1 self * gauss_pdf 0 (prior_sigma_1 self) w
        + prior_pi_2 self * gauss_pdf 0 (prior_sigma_2 self) w).

(** What the specification subtracts per element: the log-density of
    [w] under N(mu, sigma), minus the log-density of [w] under the
    mixture [pi N(0, sigma_1) + (1 - pi) N(0, sigma_2)]. *)
Definition kl_term_of_the_mixture (self : DenseVariational R) (mu sigma w : R) : R :=
  ln (gauss_pdf mu sigma w)
  - ln (prior_pi self * gauss_pdf 0 (prior_sigma_1 self) w
        + (1 - prior_pi self) * gauss_pdf 0 (prior_sigma_2 self) w).

Lemma kl_term_pointwise (self : DenseVariational R) (mu sigma w : R) :
  0 < prior_sigma_1 self -> 0 < prior_sigma_2 self -> 0 < sigma ->
  normal_log_prob mu sigma w
  - ln (ln (exp 1 - 1)
        + prior_pi_1 self * normal_prob 0 (prior_sigma_1 self) w
        + prior_pi_2 self * normal_prob 0 (prior_sigma_2 self) w)
  = kl_term self mu sigma w.
Proof.
  intros H1 H2 Hs. unfold kl_term.
  rewrite (normal_log_prob_is_log_pdf mu sigma w Hs).
  rewrite (normal_prob_is_pdf 0 _ w H1), (normal_prob_is_pdf 0 _ w H2).
  reflexivity.
Qed.

Lemma kl_loss_vec (self : DenseVariational R) (w mu sigma : vec R) :
  0 < prior_sigma_1 self -> 0 < prior_sigma_2 self ->
  Forall (fun s => 0 < s) sigma ->
  kl_loss self w mu sigma
    = kl_weight self * rsum (zip_with3 (kl_term self) mu sigma w).
Proof.
  intros H1 H2 Hs. unfold kl_loss. rewrite K_sum_vec. cbn.
  f_equal. f_equal. unfold log_prior_prob. cbn.
  rewrite zip_with_zip_with3_fmap.
  apply (zip_with3_ext (fun s => 0 < s)); [|exact Hs].
  intros m s x Hpos. apply kl_term_pointwise; assumption.
Qed.

Lemma kl_loss_matrix (self : DenseVariational R) (w mu sigma : matrix R) :
  0 < prior_sigma_1 self -> 0 < prior_sigma_2 self ->
  same_shape mu sigma -> same_shape sigma w ->
  Forall (Forall (fun s => 0 < s)) sigma ->
  kl_loss self w mu sigma
    = kl_weight self
      * rsum (zip_with3 (kl_term self) (concat mu) (concat sigma) (concat w)).
Proof.
  intros H1 H2 Hms Hsw Hs. unfold kl_loss. rewrite K_sum_matrix. cbn.
  f_equal. f_equal. unfold log_prior_prob. cbn.
  rewrite zip_with_zip_with3_fmap.
  rewrite <- (concat_zip_with3 (kl_term self) mu sigma w Hms Hsw). f_equal.
  apply (zip_with3_ext (Forall (fun s => 0 < s))); [|exact Hs].
  intros ms ss xs Hpos. rewrite zip_with_zip_with3_fmap.
  apply (zip_with3_ext (fun s => 0 < s)); [|exact Hpos].
  intros m s x Hpos'. apply kl_term_pointwise; assumption.
Qed.

(** The effective standard deviations are positive, whatever [rho]. *)
Lemma sigma_of_vec_pos (rho : vec R) : Forall (fun s => 0 < s) (sigma_of rho).
Proof.
  unfold sigma_of. cbn. apply Forall_fmap, Forall_true.
  intros r. apply effective_sigma_pos.
Qed.

Lemma sigma_of_matrix_pos (rho : matrix R) :
  Forall (Forall (fun s => 0 < s)) (sigma_of rho).
Proof.
  unfold sigma_of. cbn. apply Forall_fmap, Forall_true.
  intros row. apply Forall_fmap, Forall_true.
  intros r. apply effective_sigma_pos.
Qed.
End KL.

Section KLTheorems.
Local Open Scope R_scope.

Lemma sampled_kernel_shape (self : DenseVariational R) (w : world R) :
  same_shape (kernel_mu self) (kernel_rho self) ->
  same_shape (kernel_mu self) (sigma_of (kernel_rho self))
  /\ same_shape (sigma_of (kernel_rho self)) (sampled_kernel self w).
Proof.
  intros Hshape.
  assert (Hms : same_shape (kernel_mu self) (sigma_of (kernel_rho self))).
  { eapply same_shape_trans; [exact Hshape|]. apply same_shape_fmap. }
  split; [exact Hms|].
  eapply same_shape_trans; [apply same_shape_sym, Hms|].
  unfold sampled_kernel. cbn. apply same_shape_zip_with.
  eapply same_shape_trans; [exact Hms|].
  apply same_shape_zip_with.
  eapply same_shape_trans; [apply same_shape_sym, Hms|].
  apply same_shape_mfill.
Qed.

Lemma unit_layer_prior :
  prior_sigma_1 unit_layer = 15 / 10
  /\ prior_sigma_2 unit_layer = 1 / 10
  /\ prior_pi unit_layer = 5 / 10
  /\ prior_pi_1 unit_layer = 5 / 10
  /\ prior_pi_2 unit_layer = 1 - 5 / 10
  /\ kl_weight unit_layer = 1.
Proof. repeat split. Qed.

Lemma unit_layer_prior_pos :
  0 < prior_sigma_1 unit_layer /\ 0 < prior_sigma_2 unit_layer.
Proof.
  destruct unit_layer_prior as (-> & -> & _). split; lra.
Qed.
End KLTheorems.

(** C2, as stated, fails: for the unit layer (the default prior, KL
    weight 1) and the one-element tensors w = 0, mu = 0, sigma = 1, the
    value of [kl_loss] is not the KL weight times the difference of the
    log-density of N(mu, sigma) and the log-density of the mixture:
    the code takes the logarithm of [log(e - 1)] plus the mixture
    density. *)
Lemma kl_loss_is_not_the_mixture_log_density :
  kl_loss unit_layer [0%R] [0%R] [1%R]
  <> (kl_weight unit_layer
      * rsum (zip_with3 (kl_term_of_the_mixture unit_layer) [0] [1] [0]))%R.
Proof.
  destruct unit_layer_prior_pos as [H1 H2].
  rewrite (kl_loss_vec unit_layer [0%R] [0%R] [1%R] H1 H2)
    by (repeat constructor; lra).
  unfold rsum. cbn [zip_with3 foldr].
  unfold kl_term, kl_term_of_the_mixture.
  destruct unit_layer_prior as (-> & -> & -> & -> & -> & ->).
  pose proof (gauss_pdf_pos 0 (15 / 10) 0 ltac:(lra)) as Hp1.
  pose proof (gauss_pdf_pos 0 (1 / 10) 0 ltac:(lra)) as Hp2.
  pose proof log_expm1_pos as Hc.
  set (p1 := gauss_pdf 0 (15 / 10) 0) in *.
  set (p2 := gauss_pdf 0 (1 / 10) 0) in *.
  set (c := ln (exp 1 - 1)) in *.
  assert (Hlt : (ln (5 / 10 * p1 + (1 - 5 / 10) * p2)
                 < ln (c + 5 / 10 * p1 + (1 - 5 / 10) * p2))%R).
  { apply ln_increasing; nra. }
  lra.
Qed.

(** C2, amended. For every [DenseVariational] layer (prior scales
    positive), every weight tensor [w] and parameters [(mu, sigma)]
    ([sigma] positive), [kl_loss] is [kl_weight] times the sum over the
    elements of: the log-density of [w] under N(mu, sigma), minus the
    logarithm of [log(e - 1) + pi_1 N(w; 0, sigma_1) + pi_2 N(w; 0, sigma_2)];
    the forward pass adds to the collected losses exactly one entry,
    this quantity for the sampled kernel plus this quantity for the
    sampled bias; and giving new values to the trainable variables
    leaves the KL weight and the prior's [sigma_1], [sigma_2], [pi],
    [pi_1], [pi_2] as they were. *)
Theorem kl_contribution_of_forward_pass (self : DenseVariational R) :
  (0 < prior_sigma_1 self)%R -> (0 < prior_sigma_2 self)%R ->
  (forall w mu sigma : vec R,
     Forall (fun s => 0 < s)%R sigma ->
     kl_loss self w mu sigma
       = (kl_weight self * rsum (zip_with3 (kl_term self) mu sigma w))%R)
  /\ (forall w mu sigma : matrix R,
        same_shape mu sigma -> same_shape sigma w ->
        Forall (Forall (fun s => 0 < s)%R) sigma ->
        kl_loss self w mu sigma
          = (kl_weight self
             * rsum (zip_with3 (kl_term self) (concat mu) (concat sigma)
                       (concat w)))%R)
  /\ (forall (inputs : matrix R) (w : world R),
        same_shape (kernel_mu self) (kernel_rho self) ->
        losses (call self inputs w).2
          = losses w ++
            [(kl_weight self
              * rsum (zip_with3 (kl_term self) (concat (kernel_mu self))
                        (concat (sigma_of (kernel_rho self)))
                        (concat (sampled_kernel self w)))
              + kl_weight self
                * rsum (zip_with3 (kl_term self) (bias_mu self)
                          (sigma_of (bias_rho self)) (sampled_bias self w)))%R])
  /\ (forall vs : list (variable R),
        kl_weight (layer_assign self vs).1 = kl_weight self
        /\ prior_sigma_1 (layer_assign self vs).1 = prior_sigma_1 self
        /\ prior_sigma_2 (layer_assign self vs).1 = prior_sigma_2 self
        /\ prior_pi (layer_assign self vs).1 = prior_pi self
        /\ prior_pi_1 (layer_assign self vs).1 = prior_pi_1 self
        /\ prior_pi_2 (layer_assign self vs).1 = prior_pi_2 self).
Proof.
  intros H1 H2. split; [|split; [|split]].
  - intros w mu sigma Hs. apply kl_loss_vec; assumption.
  - intros w mu sigma Hms Hsw Hs. apply kl_loss_matrix; assumption.
  - intros inputs w Hshape. rewrite call_unfold. cbn [snd losses].
    destruct (sampled_kernel_shape self w Hshape) as [Hms Hsw].
    rewrite (kl_loss_matrix self _ _ _ H1 H2 Hms Hsw (sigma_of_matrix_pos _)).
    rewrite (kl_loss_vec self _ _ _ H1 H2 (sigma_of_vec_pos _)).
    reflexivity.
  - intros vs. unfold layer_assign.
    destruct vs as [|[n1 m1|n1 v1] [|[n2 m2|n2 v2] [|[n3 m3|n3 v3] [|[n4 m4|n4 v4] rest]]]];
      cbn; repeat split; reflexivity.
Qed.

Lemma kl_contribution_of_forward_pass_witness :
  (forall w mu sigma : vec R,
     Forall (fun s => 0 < s)%R sigma ->
     kl_loss unit_layer w mu sigma
       = (kl_weight unit_layer * rsum (zip_with3 (kl_term unit_layer) mu sigma w))%R)
  /\ (forall w mu sigma : matrix R,
        same_shape mu sigma -> same_shape sigma w ->
        Forall (Forall (fun s => 0 < s)%R) sigma ->
        kl_loss unit_layer w mu sigma
          = (kl_weight unit_layer
             * rsum (zip_with3 (kl_term unit_layer) (concat mu) (concat sigma)
                       (concat w)))%R)
  /\ (forall (inputs : matrix R) (w : world R),
        same_shape (kernel_mu unit_layer) (kernel_rho unit_layer) ->
        losses (call unit_layer inputs w).2
          = losses w ++
            [(kl_weight unit_layer
              * rsum (zip_with3 (kl_term unit_layer) (concat (kernel_mu unit_layer))
                        (concat (sigma_of (kernel_rho unit_layer)))
                        (concat (sampled_kernel unit_layer w)))
              + kl_weight unit_layer
                * rsum (zip_with3 (kl_term unit_layer) (bias_mu unit_layer)
                          (sigma_of (bias_rho unit_layer))
                          (sampled_bias unit_layer w)))%R])
  /\ (forall vs : list (variable R),
        kl_weight (layer_assign unit_layer vs).1 = kl_weight unit_layer
        /\ prior_sigma_1 (layer_assign unit_layer vs).1 = prior_sigma_1 unit_layer
        /\ prior_sigma_2 (layer_assign unit_layer vs).1 = prior_sigma_2 unit_layer
        /\ prior_pi (layer_assign unit_layer vs).1 = prior_pi unit_layer
        /\ prior_pi_1 (layer_assign unit_layer vs).1 = prior_pi_1 unit_layer
        /\ prior_pi_2 (layer_assign unit_layer vs).1 = prior_pi_2 unit_layer).
Proof.
  apply (kl_contribution_of_forward_pass unit_layer);
    apply unit_layer_prior_pos.
Defined.

(** ** The training step *)

Section GradFacts.
Context {T : Type} `{Arith T} `{Transcendental T}.
Variable tape_gradient :
  (list (variable T) -> T) -> list (variable T) -> list (variable T).

(** What [grad] returns, for every network and batch: the negative
    log-likelihood of the pass, the gradient of the taped
    log-likelihood, and the state after the pass. *)
Lemma grad_unfold (self : BayesianNeuralNetwork T) (X v : matrix T) (w : world T) :
  grad tape_gradient self X v w
    = ((loss self v (Sequential_call (model self) X w).1,
        tape_gradient (taped_loss self X v w) (trainable_variables (model self))),
       (Sequential_call (model self) X w).2).
Proof.
  unfold grad. destruct (Sequential_call (model self) X w) as [y w'].
  reflexivity.
Qed.
End GradFacts.

Section UnitNetwork.
Local Open Scope R_scope.

(** The effective standard deviation at [rho = 0]: 0.001 + log 2. *)
Definition sigma_at_zero : R := dec 1 1000 + softplus (dec 1 10 * 0).

Lemma sigma_at_zero_gt_half : / 2 < sigma_at_zero.
Proof.
  unfold sigma_at_zero, softplus, dec. cbn.
  replace (1 / 10 * 0) with 0 by ring. rewrite exp_0.
  replace (1 + 1) with 2 by ring. pose proof ln_lt_2. lra.
Qed.

Lemma sqrt_two_PI_bounds : 2 < R_sqrt.sqrt (2 * PI) < 5.
Proof.
  pose proof PI2_3_2 as Hlo. pose proof PI_4 as Hhi. split.
  - rewrite <- (sqrt_square 2) at 1 by lra. apply sqrt_lt_1; lra.
  - rewrite <- (sqrt_square 5) at 1 by lra. apply sqrt_lt_1; lra.
Qed.

Lemma gauss_pdf_at_mean (mu sigma : R) :
  gauss_pdf mu sigma mu = / (sigma * R_sqrt.sqrt (2 * PI)).
Proof.
  unfold gauss_pdf.
  replace (- ((mu - mu) * (mu - mu) / (2 * (sigma * sigma)))) with 0
    by (unfold Rdiv; ring).
  rewrite exp_0. ring.
Qed.

(** At [mu = 0], [rho = 0] and a weight sampled at its mean, the term
    of the default prior is negative. *)
Lemma kl_term_at_zero_neg : kl_term unit_layer 0 sigma_at_zero 0 < 0.
Proof.
  unfold kl_term.
  destruct unit_layer_prior as (-> & -> & _ & -> & -> & _).
  rewrite !gauss_pdf_at_mean.
  pose proof sigma_at_zero_gt_half as Hs.
  pose proof sqrt_two_PI_bounds as [Hq2 Hq5].
  pose proof log_expm1_pos as Hc.
  set (q := R_sqrt.sqrt (2 * PI)) in *.
  set (c := ln (exp 1 - 1)) in *.
  assert (Hq : ln (/ (sigma_at_zero * q)) < 0).
  { rewrite <- ln_1. apply ln_increasing.
    - apply Rinv_0_lt_compat. nra.
    - pose proof (Rinv_lt_contravar 1 (sigma_at_zero * q)
                    ltac:(nra) ltac:(nra)) as Hinv.
      rewrite Rinv_1 in Hinv. exact Hinv. }
  assert (Hp : 0 < ln (c + 5 / 10 * / (15 / 10 * q) + (1 - 5 / 10) * / (1 / 10 * q))).
  { rewrite <- ln_1 at 1. apply ln_increasing; [lra|].
    assert (H1 : 0 < / (15 / 10 * q)) by (apply Rinv_0_lt_compat; nra).
    assert (H2 : 2 < / (1 / 10 * q)).
    { replace 2 with (/ (1 / 10 * 5)) by field.
      apply Rinv_lt_contravar; nra. }
    nra. }
  lra.
Qed.

(** The pass of the unit network on the batch [[0]] with quiet draws:
    both sampled weights are at their mean. *)
Lemma unit_pass_losses :
  losses (Sequential_call (model (unit_network (dec 1 100))) [[0]] quiet_world).2
    = [1 * (kl_term unit_layer 0 sigma_at_zero (0 + sigma_at_zero * 0) + 0)
       + 1 * (kl_term unit_layer 0 sigma_at_zero (0 + sigma_at_zero * 0) + 0)].
Proof.
  unfold Sequential_call, bind, clear_losses. cbn [model unit_network seq_layers run_layers].
  unfold bind, ret. rewrite call_unfold. cbn [snd losses app].
  destruct unit_layer_prior_pos as [H1 H2].
  rewrite (kl_loss_matrix unit_layer _ _ _ H1 H2); cycle 1.
  { repeat constructor. }
  { repeat constructor. }
  { apply sigma_of_matrix_pos. }
  rewrite (kl_loss_vec unit_layer _ _ _ H1 H2) by apply sigma_of_vec_pos.
  reflexivity.
Qed.

Lemma unit_pass_kl_neg :
  rsum (losses (Sequential_call (model (unit_network (dec 1 100))) [[0]]
                  quiet_world).2) < 0.
Proof.
  rewrite unit_pass_losses. unfold rsum. cbn [foldr].
  replace (0 + sigma_at_zero * 0) with 0 by ring.
  pose proof kl_term_at_zero_neg. lra.
Qed.
End UnitNetwork.

(** C1. One training step of [fit] on the unit network (KL weight 1,
    batch x = 0, target 0, quiet draws), for any differentiation
    operator and any optimizer step: the loss value that [grad] returns
    and [fit] logs is the negative log-likelihood alone; the gradient
    handed to the optimizer is the gradient of that taped
    log-likelihood; the KL terms that the layers collected during the
    same pass sum to a negative number, and the differentiated loss is
    not the log-likelihood plus that sum. *)
Theorem grad_leaves_out_the_kl_terms
    (tape_gradient :
       (list (variable R) -> R) -> list (variable R) -> list (variable R))
    (apply_gradients :
       Adam R -> list (variable R * variable R) -> Adam R * list (variable R)) :
  exists (loss_value : R) (grads : list (variable R)) (w' : world R)
         (self' : BayesianNeuralNetwork R) (w'' : world R),
    grad tape_gradient (unit_network (dec 1 100)) [[0%R]] [[0%R]] quiet_world
      = ((loss_value, grads), w')
    /\ loss_value
         = loss (unit_network (dec 1 100)) [[0%R]]
             (Sequential_call (model (unit_network (dec 1 100))) [[0%R]]
                quiet_world).1
    /\ grads
         = tape_gradient
             (taped_loss (unit_network (dec 1 100)) [[0%R]] [[0%R]] quiet_world)
             (trainable_variables (model (unit_network (dec 1 100))))
    /\ taped_loss (unit_network (dec 1 100)) [[0%R]] [[0%R]] quiet_world
         (trainable_variables (model (unit_network (dec 1 100))))
       = loss_value
    /\ (rsum (losses w') < 0)%R
    /\ loss_value
       <> (loss (unit_network (dec 1 100)) [[0%R]]
             (Sequential_call (model (unit_network (dec 1 100))) [[0%R]]
                quiet_world).1
           + rsum (losses w'))%R
    /\ fit tape_gradient apply_gradients (unit_network (dec 1 100))
         [[0%R]] [[0%R]] 1 (Some []) quiet_world = (Ok self', w'')
    /\ logger self'
       = Some [log_train_start; log_train_epoch 0 loss_value;
               log_train_end 1 0%R].
Proof.
  pose proof unit_pass_kl_neg as Hkl.
  destruct (apply_gradients
              (optimizer (unit_network (dec 1 100)))
              (zip (tape_gradient
                      (taped_loss (unit_network (dec 1 100)) [[0%R]] [[0%R]]
                         quiet_world)
                      (trainable_variables (model (unit_network (dec 1 100)))))
                   (trainable_variables (model (unit_network (dec 1 100))))))
    as [opt values] eqn:Hstep.
  do 5 eexists.
  split; [apply grad_unfold|].
  split; [reflexivity|]. split; [reflexivity|]. split; [reflexivity|].
  split; [exact Hkl|]. split; [cbn [snd] in *; lra|].
  unfold fit, fit_loop, fit_epoch, bind, ret.
  cbn [seq set_normalize_bounds].
  change (set_normalize_bounds
            (log log_train_start (set_logger (Some []) (unit_network (dec 1 100))))
            [[0%R]])
    with (Ok (A := BayesianNeuralNetwork R)
            (log log_train_start (set_logger (Some []) (unit_network (dec 1 100))))).
  cbn beta iota.
  change (normalize (log log_train_start
                       (set_logger (Some []) (unit_network (dec 1 100)))) [[0%R]])
    with [[0%R]].
  change (tensor [[0%R]]) with [[0%R]].
  rewrite grad_unfold.
  change (model (log log_train_start
                   (set_logger (Some []) (unit_network (dec 1 100)))))
    with (model (unit_network (dec 1 100))).
  change (optimizer (log log_train_start
                   (set_logger (Some []) (unit_network (dec 1 100)))))
    with (optimizer (unit_network (dec 1 100))).
  change (taped_loss (log log_train_start
                   (set_logger (Some []) (unit_network (dec 1 100)))))
    with (taped_loss (unit_network (dec 1 100))).
  rewrite Hstep.
  split; reflexivity.
Qed.

(** ** Sampling of the weights *)

(** The shapes that [build] gives a layer on inputs of width [d]. *)
Definition layer_shaped {T : Type} (d : nat) (self : DenseVariational T) : Prop :=
  length (kernel_mu self) = d
  /\ Forall (fun row : list T => length row = units self) (kernel_mu self)
  /\ same_shape (kernel_mu self) (kernel_rho self)
  /\ length (bias_mu self) = units self
  /\ length (bias_rho self) = units self.


Section Sampling.
Local Open Scope R_scope.








End Sampling.

Section Stochastic.
Local Open Scope R_scope.






Lemma vecmat_length (units : nat) (x : vec R) (W : matrix R) :
  Forall (fun row : list R => length row = units) W ->
  length (vecmat units x W) = units.
Proof.
  intros HW. unfold vecmat.
  assert (Hgen : forall (acc : list R) (xs : list R),
             length acc = units ->
             length (foldl (fun acc0 xw =>
                              zip_with add_ acc0 ((fun e => xw.1 * e)%sc <$> xw.2))
                           acc (zip xs W)) = units).
  { induction HW as [|row W Hrow _ IH]; intros acc xs Hacc.
    - destruct xs; exact Hacc.
    - destruct xs as [|x0 xs]; [exact Hacc|]. cbn. apply IH.
      rewrite length_zip_with, length_fmap. lia. }
  apply Hgen. unfold zeros1. apply length_replicate.
Qed.


End Stochastic.

Section TwoCalls.
Local Open Scope R_scope.




End TwoCalls.


Lemma unit_layer_shaped : layer_shaped 1 unit_layer.
Proof. repeat split; repeat constructor. Qed.


(** ** Monte Carlo prediction *)

(** The layers of a model chain: each has the shapes of [build] on the
    width of the one before. *)
Fixpoint layers_shaped (d : nat) (ls : list (DenseVariational R)) : Prop :=
  match ls with
  | [] => True
  | l :: ls => layer_shaped d l /\ layers_shaped (units l) ls
  end.

(** The output width of the chain on inputs of width [d]. *)
Definition output_width (d : nat) (ls : list (DenseVariational R)) : nat :=
  foldl (fun _ l => units l) d ls.

(** A network as [__init__] builds it: the model chains from its input
    width, and its output width is [layers[-1]]. *)
Definition network_shaped (self : BayesianNeuralNetwork R) : Prop :=
  layers_shaped (input_width (model self)) (seq_layers (model self))
  /\ last (layers self)
     = Some (output_width (input_width (model self)) (seq_layers (model self))).

(** The draws of one call of the model. *)
Definition model_weight_count (m : Sequential R) : nat :=
  sum_list (weight_count <$> seq_layers m).

(** [N] calls of the model in a row on one batch: the outputs and the
    state after the last. *)
Fixpoint passes (m : Sequential R) (X : matrix R) (N : nat) (w : world R)
  : list (matrix R) * world R :=
  match N with
  | 0 => ([], w)
  | S N =>
      let (Y, w1) := Sequential_call m X w in
      let (Ys, w2) := passes m X N w1 in
      (Y :: Ys, w2)
  end.

Section Shapes.
Local Open Scope R_scope.

Lemma sampled_bias_length (self : DenseVariational R) (d : nat) (w : world R) :
  layer_shaped d self -> length (sampled_bias self w) = units self.
Proof.
  intros (_ & _ & _ & Hbm & Hbr). unfold sampled_bias, sigma_of. cbn.
  rewrite !length_zip_with, !length_fmap, length_seq. lia.
Qed.

Lemma rectangular_same_shape (k : nat) (M N : matrix R) :
  same_shape M N -> rectangular k M -> rectangular k N.
Proof.
  unfold rectangular. induction 1 as [|r1 r2 M N Hr _ IH]; intros HM;
    [constructor|].
  apply Forall_cons in HM as [Hr1 HM]. constructor; [lia|auto].
Qed.

Lemma sampled_kernel_rectangular (self : DenseVariational R) (d : nat)
    (w : world R) :
  layer_shaped d self -> rectangular (units self) (sampled_kernel self w).
Proof.
  intros (_ & Hrows & Hshape & _ & _).
  destruct (sampled_kernel_shape self w Hshape) as [Hms Hsw].
  apply (rectangular_same_shape _ (kernel_mu self)); [|exact Hrows].
  eapply same_shape_trans; [exact Hms|exact Hsw].
Qed.

Lemma call_output_shape (self : DenseVariational R) (d : nat)
    (X : matrix R) (w : world R) :
  layer_shaped d self ->
  length (call self X w).1 = length X
  /\ rectangular (units self) (call self X w).1.
Proof.
  intros Hshaped. rewrite call_unfold. cbn [fst].
  pose proof (sampled_bias_length self d w Hshaped) as Hb.
  pose proof (sampled_kernel_rectangular self d w Hshaped) as Hk.
  assert (Hpre : length (bcast add_ (K_dot (units self) X (sampled_kernel self w))
                           (sampled_bias self w)) = length X
                 /\ rectangular (units self)
                      (bcast add_ (K_dot (units self) X (sampled_kernel self w))
                         (sampled_bias self w))).
  { unfold bcast, K_dot. rewrite !length_fmap. split; [reflexivity|].
    unfold rectangular. rewrite <- list_fmap_compose.
    apply Forall_fmap, Forall_true. intros x. unfold compose.
    rewrite length_zip_with, (vecmat_length _ _ _ Hk), Hb. lia. }
  destruct Hpre as [Hlen Hrect].
  destruct (activation self); cbn [apply_activation]; [|split; assumption].
  cbn. rewrite length_fmap. split; [exact Hlen|].
  apply fmap_rectangular, Hrect.
Qed.

Lemma run_layers_shape (ls : list (DenseVariational R)) (d : nat)
    (X : matrix R) (w : world R) :
  layers_shaped d ls -> rectangular d X ->
  length (run_layers ls X w).1 = length X
  /\ rectangular (output_width d ls) (run_layers ls X w).1.
Proof.
  revert d X w. induction ls as [|l ls IH]; intros d X w Hls HX.
  - split; [reflexivity|exact HX].
  - destruct Hls as [Hl Hls]. cbn [run_layers]. unfold bind.
    destruct (call_output_shape l d X w Hl) as [Hlen Hrect].
    destruct (call l X w) as [Y w1]. cbn [fst] in *.
    destruct (IH (units l) Y w1 Hls Hrect) as [Hlen' Hrect'].
    split; [congruence|exact Hrect'].
Qed.

Lemma Sequential_call_shape (m : Sequential R) (X : matrix R) (w : world R) :
  layers_shaped (input_width m) (seq_layers m) ->
  rectangular (input_width m) X ->
  length (Sequential_call m X w).1 = length X
  /\ rectangular (output_width (input_width m) (seq_layers m))
       (Sequential_call m X w).1.
Proof.
  intros Hls HX. unfold Sequential_call, bind, clear_losses.
  apply run_layers_shape; assumption.
Qed.

(** A call of the model keeps the stream and moves the cursor by the
    number of weights. *)
Lemma run_layers_cursor (ls : list (DenseVariational R)) (X : matrix R)
    (w : world R) :
  noise (run_layers ls X w).2 = noise w
  /\ cursor (run_layers ls X w).2
     = (cursor w + sum_list (weight_count <$> ls))%nat.
Proof.
  revert X w. induction ls as [|l ls IH]; intros X w.
  - cbn. split; [reflexivity|lia].
  - cbn [run_layers]. unfold bind. rewrite call_unfold.
    destruct (IH (apply_activation (activation l)
                    (bcast add_ (K_dot (units l) X (sampled_kernel l w))
                       (sampled_bias l w)))
                 {| noise := noise w;
                    cursor := (cursor w + weight_count l)%nat;
                    losses := losses w ++
                      [(kl_loss l (sampled_kernel l w) (kernel_mu l)
                          (sigma_of (kernel_rho l))
                        + kl_loss l (sampled_bias l w) (bias_mu l)
                            (sigma_of (bias_rho l)))%sc] |}) as [Hn Hc].
    rewrite Hn, Hc. cbn. split; [reflexivity|lia].
Qed.

Lemma Sequential_call_cursor (m : Sequential R) (X : matrix R) (w : world R) :
  noise (Sequential_call m X w).2 = noise w
  /\ cursor (Sequential_call m X w).2 = (cursor w + model_weight_count m)%nat.
Proof.
  unfold Sequential_call, bind, clear_losses, model_weight_count.
  apply (run_layers_cursor (seq_layers m) X
           {| noise := noise w; cursor := cursor w; losses := [] |}).
Qed.
End Shapes.

Section PredictLoop.
Local Open Scope R_scope.

Lemma broadcast_rows_same (e : exn) (k : nat) (Y : matrix R) :
  rectangular k Y -> broadcast_rows e k Y = Ok Y.
Proof.
  induction 1 as [|row Y Hrow _ IH]; [reflexivity|].
  cbn [broadcast_rows]. unfold broadcast_row.
  destruct (decide (length row = k)); [|contradiction].
  cbn. rewrite IH. reflexivity.
Qed.

Lemma broadcast_to_same (n k : nat) (Y : matrix R) :
  length Y = n -> rectangular k Y -> broadcast_to n k Y = Ok Y.
Proof.
  intros Hn Hk. unfold broadcast_to. cbv zeta.
  rewrite (broadcast_rows_same _ k Y Hk). cbn.
  destruct (decide (length Y = n)); [reflexivity|contradiction].
Qed.

Lemma passes_length (m : Sequential R) (X : matrix R) (N : nat) (w : world R) :
  length (passes m X N w).1 = N.
Proof.
  revert w. induction N as [|N IH]; intros w; [reflexivity|].
  cbn [passes]. destruct (Sequential_call m X w) as [Y w1].
  specialize (IH w1). destruct (passes m X N w1) as [Ys w2].
  cbn in *. lia.
Qed.

Lemma passes_lookup (m : Sequential R) (X : matrix R) (N i : nat) (w : world R) :
  (i < N)%nat ->
  (passes m X N w).1 !! i
    = Some (Sequential_call m X (passes m X i w).2).1.
Proof.
  revert i w. induction N as [|N IH]; intros i w Hi; [lia|].
  destruct i as [|i].
  - cbn [passes snd].
    destruct (Sequential_call m X w) as [Y w1].
    destruct (passes m X N w1) as [Ys w2]. reflexivity.
  - specialize (IH i (Sequential_call m X w).2 ltac:(lia)).
    cbn [passes].
    destruct (Sequential_call m X w) as [Y w1]. cbn [snd] in IH.
    destruct (passes m X N w1) as [Ys w2]. cbn [fst] in *.
    destruct (passes m X i w1) as [Zs w3]. exact IH.
Qed.

Lemma passes_cursor (m : Sequential R) (X : matrix R) (N : nat) (w : world R) :
  noise (passes m X N w).2 = noise w
  /\ cursor (passes m X N w).2 = (cursor w + N * model_weight_count m)%nat.
Proof.
  revert w. induction N as [|N IH]; intros w.
  - cbn. split; [reflexivity|lia].
  - cbn [passes]. destruct (Sequential_call_cursor m X w) as [Hn Hc].
    destruct (Sequential_call m X w) as [Y w1]. cbn [snd] in *.
    destruct (IH w1) as [Hn' Hc'].
    destruct (passes m X N w1) as [Ys w2]. cbn [snd] in *.
    split; [congruence|]. rewrite Hc', Hc. lia.
Qed.

(** Every output of the passes has the shape of the target slice. *)
Lemma passes_shape (m : Sequential R) (X : matrix R) (N : nat) (w : world R) :
  layers_shaped (input_width m) (seq_layers m) ->
  rectangular (input_width m) X ->
  Forall (fun M : matrix R =>
            length M = length X
            /\ rectangular (output_width (input_width m) (seq_layers m)) M)
         (passes m X N w).1.
Proof.
  intros Hls HX. revert w. induction N as [|N IH]; intros w; [constructor|].
  cbn [passes]. pose proof (Sequential_call_shape m X w Hls HX) as HY.
  destruct (Sequential_call m X w) as [Y w1]. specialize (IH w1).
  destruct (passes m X N w1) as [Ys w2]. constructor; assumption.
Qed.

(** The loop writes the output of pass [i] into slot [i]: started at
    index [i] with [r] passes to go, it keeps the slots before [i] and
    fills the rest with the outputs of the [r] passes. *)
Lemma predict_loop_spec (self : BayesianNeuralNetwork R) (X : matrix R)
    (r i : nat) (acc : list (matrix R)) (w : world R) :
  layers_shaped (input_width (model self)) (seq_layers (model self)) ->
  rectangular (input_width (model self)) X ->
  length acc = (i + r)%nat ->
  predict_loop self X (length X)
    (output_width (input_width (model self)) (seq_layers (model self)))
    (seq i r) acc w
  = (Ok (take i acc ++ (passes (model self) X r w).1),
     (passes (model self) X r w).2).
Proof.
  intros Hls HX. revert i acc w.
  induction r as [|r IH]; intros i acc w Hlen.
  - cbn. unfold ret. rewrite app_nil_r, firstn_all2 by lia. reflexivity.
  - cbn [seq predict_loop passes]. unfold bind.
    destruct (Sequential_call_shape (model self) X w Hls HX) as [HYn HYk].
    destruct (Sequential_call (model self) X w) as [Y w1]. cbn [fst] in *.
    rewrite (broadcast_to_same _ _ Y HYn HYk).
    rewrite (IH (S i) (<[i := Y]> acc) w1) by (rewrite length_insert; lia).
    destruct (passes (model self) X r w1) as [Ys w2]. cbn [fst snd].
    f_equal. f_equal.
    rewrite (take_S_r _ i Y) by (apply list_lookup_insert_eq; lia).
    rewrite take_insert_ge by lia. rewrite <- app_assoc. reflexivity.
Qed.
End PredictLoop.

(** ** Reductions of the stack of samples, entry by entry *)

Section Samples.
Local Open Scope R_scope.

(** Entry [(i, j)] of a matrix, the list of the entries [(i, j)] of a
    stack of matrices, and a matrix of shape [(n, k)]. *)
Definition entry (i j : nat) (M : matrix R) : option R :=
  M !! i ≫= (fun row : list R => row !! j).
Definition entries (i j : nat) (S : list (matrix R)) : list R :=
  (fun M : matrix R => nth j (nth i M []) 0) <$> S.
Definition shaped (n k : nat) (M : matrix R) : Prop :=
  length M = n /\ rectangular k M.

Lemma shaped_entry (n k i j : nat) (M : matrix R) :
  shaped n k M -> (i < n)%nat -> (j < k)%nat ->
  entry i j M = Some (nth j (nth i M []) 0).
Proof.
  intros [Hn Hk] Hi Hj. unfold entry.
  destruct (lookup_lt_is_Some_2 M i) as [row Hrow]; [lia|].
  pose proof (Forall_lookup_1 _ _ _ _ Hk Hrow) as Hlen. cbn in Hlen.
  destruct (lookup_lt_is_Some_2 row j) as [x Hx]; [lia|].
  rewrite Hrow. cbn. rewrite Hx.
  rewrite (nth_lookup_Some _ _ _ _ Hrow), (nth_lookup_Some _ _ _ _ Hx).
  reflexivity.
Qed.

Lemma mzip_entry (f : R -> R -> R) (M N : matrix R) (i j : nat) (x y : R) :
  entry i j M = Some x -> entry i j N = Some y ->
  entry i j (zip_with (zip_with f) M N) = Some (f x y).
Proof.
  unfold entry. intros HM HN. rewrite lookup_zip_with.
  destruct (M !! i) as [r1|]; [|discriminate].
  destruct (N !! i) as [r2|]; [|discriminate]. cbn in *.
  rewrite lookup_zip_with, HM. cbn. rewrite HN. reflexivity.
Qed.

Lemma mzip_shaped (f : R -> R -> R) (M N : matrix R) (n k : nat) :
  shaped n k M -> shaped n k N -> shaped n k (zip_with (zip_with f) M N).
Proof.
  intros [HMn HMk] [HNn HNk]. split; [rewrite length_zip_with; lia|].
  unfold rectangular in *. clear HMn HNn. revert N HNk.
  induction HMk as [|r1 M Hr1 _ IH]; intros N HNk; [constructor|].
  destruct HNk as [|r2 N Hr2 HN]; [constructor|].
  cbn. constructor; [rewrite length_zip_with; lia|apply IH, HN].
Qed.

Lemma mmap_entry (g : R -> R) (M : matrix R) (i j : nat) (x : R) :
  entry i j M = Some x ->
  entry i j ((fun row : list R => g <$> row) <$> M) = Some (g x).
Proof.
  unfold entry. intros HM. rewrite list_lookup_fmap.
  destruct (M !! i) as [r|]; [|discriminate]. cbn in *.
  rewrite list_lookup_fmap, HM. reflexivity.
Qed.

Lemma mmap_shaped (g : R -> R) (M : matrix R) (n k : nat) :
  shaped n k M -> shaped n k ((fun row : list R => g <$> row) <$> M).
Proof.
  intros [Hn Hk]. split; [rewrite length_fmap; exact Hn|].
  apply fmap_rectangular, Hk.
Qed.

Lemma zeros2_shaped (n k : nat) : shaped n k (zeros2 n k).
Proof.
  unfold zeros2, zeros1. split; [apply length_replicate|].
  apply Forall_replicate, length_replicate.
Qed.

Lemma zeros2_entry (n k i j : nat) :
  (i < n)%nat -> (j < k)%nat -> entry i j (zeros2 n k) = Some 0.
Proof.
  intros Hi Hj. unfold entry, zeros2, zeros1.
  rewrite lookup_replicate_2 by exact Hi. cbn.
  rewrite lookup_replicate_2 by exact Hj. reflexivity.
Qed.

Lemma foldl_mzip_entry (Ms : list (matrix R)) (M : matrix R)
    (n k i j : nat) (x : R) :
  Forall (shaped n k) Ms -> shaped n k M -> (i < n)%nat -> (j < k)%nat ->
  entry i j M = Some x ->
  entry i j (foldl (zip_with (zip_with Rplus)) M Ms)
    = Some (x + rsum (entries i j Ms))
  /\ shaped n k (foldl (zip_with (zip_with Rplus)) M Ms).
Proof.
  intros HMs. revert M x.
  induction HMs as [|M1 Ms HM1 _ IH]; intros M x HM Hi Hj Hx.
  - cbn. unfold rsum. cbn. split; [rewrite Hx; f_equal; lra|exact HM].
  - cbn [foldl].
    destruct (IH (zip_with (zip_with Rplus) M M1) (x + nth j (nth i M1 []) 0))
      as [He Hs].
    + apply mzip_shaped; assumption.
    + exact Hi.
    + exact Hj.
    + apply mzip_entry; [exact Hx|]. apply (shaped_entry n k); assumption.
    + split; [|exact Hs]. rewrite He. f_equal.
      unfold entries, rsum. cbn. lra.
Qed.

Lemma np_sum0_3_entry (S : list (matrix R)) (n k i j : nat) :
  Forall (shaped n k) S -> (i < n)%nat -> (j < k)%nat ->
  entry i j (np_sum0_3 n k S) = Some (rsum (entries i j S))
  /\ shaped n k (np_sum0_3 n k S).
Proof.
  intros HS Hi Hj. destruct HS as [|M Ms HM HMs].
  - cbn. split; [apply zeros2_entry; assumption|apply zeros2_shaped].
  - cbn [np_sum0_3].
    destruct (foldl_mzip_entry Ms M n k i j _ HMs HM Hi Hj
                (shaped_entry n k i j M HM Hi Hj)) as [He Hs].
    split; [|exact Hs].
    change (@tzip R (matrix R) matrix_tensor add_)
      with (zip_with (zip_with Rplus)).
    rewrite He. reflexivity.
Qed.

Lemma entries_length (i j : nat) (S : list (matrix R)) :
  length (entries i j S) = length S.
Proof. apply length_fmap. Qed.

(** [mean(0)] of the stack is, entry by entry, the mean of the
    samples. *)
Lemma np_mean0_3_entry (S : list (matrix R)) (n k i j : nat) :
  Forall (shaped n k) S -> (i < n)%nat -> (j < k)%nat ->
  entry i j (np_mean0_3 n k S) = Some (mean_of (entries i j S))
  /\ shaped n k (np_mean0_3 n k S).
Proof.
  intros HS Hi Hj. unfold np_mean0_3.
  destruct (np_sum0_3_entry S n k i j HS Hi Hj) as [He Hs]. split.
  - cbn [tmap matrix_tensor]. rewrite (mmap_entry _ _ i j _ He).
    unfold mean_of. rewrite entries_length, INR_IZR_INZ. reflexivity.
  - apply mmap_shaped, Hs.
Qed.

(** [var(0)] of the stack is, entry by entry, the mean squared
    deviation of the samples from their mean. *)
Lemma np_var0_3_entry (S : list (matrix R)) (n k i j : nat) :
  Forall (shaped n k) S -> (i < n)%nat -> (j < k)%nat ->
  entry i j (np_var0_3 n k S) = Some (var_of (entries i j S)).
Proof.
  intros HS Hi Hj. unfold np_var0_3.
  destruct (np_mean0_3_entry S n k i j HS Hi Hj) as [Hmean Hmshape].
  set (arrmean := np_mean0_3 n k S) in *.
  set (dev := fun M : matrix R => tzip sub_ M arrmean).
  set (sq := fun M : matrix R => tmap (fun e => (e * e)%sc) M).
  assert (Hx : Forall (shaped n k) (sq <$> (dev <$> S))).
  { apply Forall_fmap, Forall_fmap. eapply Forall_impl; [exact HS|].
    intros M HM. cbn. unfold sq, dev. cbn.
    apply mmap_shaped, mzip_shaped; assumption. }
  destruct (np_sum0_3_entry _ n k i j Hx Hi Hj) as [He _].
  cbn [tmap matrix_tensor]. rewrite (mmap_entry _ _ i j _ He).
  f_equal. unfold var_of. rewrite entries_length, INR_IZR_INZ.
  cbn [div_ of_Z R_arith]. f_equal. f_equal.
  unfold entries. rewrite <- !list_fmap_compose.
  apply Forall_fmap_ext_1. eapply Forall_impl; [exact HS|].
  intros M HM. cbn.
  pose proof (shaped_entry n k i j M HM Hi Hj) as HeM.
  assert (Hd : entry i j (sq (dev M))
               = Some ((nth j (nth i M []) 0 - mean_of (entries i j S))
                       * (nth j (nth i M []) 0 - mean_of (entries i j S)))).
  { unfold sq, dev. cbn [tmap tzip matrix_tensor].
    apply (mmap_entry (fun e => e * e)).
    apply (mzip_entry Rminus); assumption. }
  assert (Hsh : shaped n k (sq (dev M))).
  { unfold sq, dev. cbn. apply mmap_shaped, mzip_shaped; assumption. }
  rewrite (shaped_entry n k i j _ Hsh Hi Hj) in Hd.
  injection Hd as Hd. exact Hd.
Qed.
End Samples.

(** On an array of width [k] and bounds that fit it, [normalize]
    returns an array of the same shape. *)
Lemma normalize_rectangular (self : BayesianNeuralNetwork R) (X : matrix R)
    (k : nat) :
  rectangular k X -> bounds_fit self k ->
  length (normalize self X) = length X /\ rectangular k (normalize self X).
Proof.
  intros HX Hfit. unfold normalize, bounds_fit in *.
  destruct (norm_bounds self) as [[lb ub]|];
    [|rewrite tensor_id; split; [reflexivity|exact HX]].
  destruct Hfit as [Hlb Hub].
  destruct (String.eqb (norm self) NORM_CENTER);
    [|destruct (String.eqb (norm self) NORM_MEANSTD)];
    rewrite tensor_id.
  - split; [unfold bcast; rewrite !length_fmap; reflexivity|].
    apply (bcast_rectangular _ (bcast sub_ X lb)).
    + apply bcast_rectangular; assumption.
    + rewrite length_fmap, length_zip_with. lia.
  - split; [unfold bcast; rewrite !length_fmap; reflexivity|].
    apply (bcast_rectangular _ (bcast sub_ X lb));
      [apply bcast_rectangular|]; assumption.
  - split; [reflexivity|exact HX].
Qed.

(** The outputs of the [N] passes of [predict], in order. *)
Definition predict_samples (self : BayesianNeuralNetwork R) (X : matrix R)
    (N : nat) (w : world R) : list (matrix R) :=
  (passes (model self) (normalize self X) N w).1.

(** C7. For every network with the shapes of [__init__], every input
    array [X] of the model's input width, stored bounds that are unset
    or of that width, and every positive [N], over exact real
    arithmetic: [predict(X, samples=N)]
    returns without error; it calls the model exactly [N] times on the
    normalized input, pass [s] starting where pass [s - 1] left the
    random stream (its draws are positions of the stream that no
    earlier pass read); and the two returned arrays hold, at every
    output coordinate [(i, j)], the mean of the [N] outputs at that
    coordinate and the mean squared deviation from that mean (the
    variance with divisor [N]).  With [samples] left out, [N] is 200. *)
Theorem predict_is_monte_carlo (self : BayesianNeuralNetwork R) (X : matrix R)
    (N : nat) (w : world R) :
  network_shaped self ->
  rectangular (input_width (model self)) X ->
  bounds_fit self (input_width (model self)) ->
  0 < N ->
  exists n_L y_pred y_pred_var,
    last (layers self) = Some n_L
    /\ predict self X N w
       = (Ok (y_pred, y_pred_var), (passes (model self) (normalize self X) N w).2)
    /\ y_pred = np_mean0_3 (length (normalize self X)) n_L (predict_samples self X N w)
    /\ y_pred_var
       = np_var0_3 (length (normalize self X)) n_L (predict_samples self X N w)
    /\ length (predict_samples self X N w) = N
    /\ (forall s, s < N ->
          predict_samples self X N w !! s
            = Some (Sequential_call (model self) (normalize self X)
                      (passes (model self) (normalize self X) s w).2).1
          /\ noise (passes (model self) (normalize self X) s w).2 = noise w
          /\ cursor (passes (model self) (normalize self X) s w).2
             = cursor w + s * model_weight_count (model self))
    /\ (forall i j, i < length (normalize self X) -> j < n_L ->
          entry i j y_pred
            = Some (mean_of (entries i j (predict_samples self X N w)))
          /\ entry i j y_pred_var
             = Some (var_of (entries i j (predict_samples self X N w))))
    /\ predict_default self X w = predict self X 200 w.
Proof.
  intros [Hls Hlast] HX0 Hfit HN.
  destruct (normalize_rectangular self X _ HX0 Hfit) as [_ HX].
  set (X' := normalize self X) in *.
  set (k := output_width (input_width (model self)) (seq_layers (model self))) in *.
  exists k, (np_mean0_3 (length X') k (predict_samples self X N w)),
    (np_var0_3 (length X') k (predict_samples self X N w)).
  assert (Hshapes : Forall (shaped (length X') k) (predict_samples self X N w)).
  { apply passes_shape; assumption. }
  split; [exact Hlast|]. split; [|split; [reflexivity|split; [reflexivity|]]].
  - unfold predict. fold X'. rewrite Hlast. unfold bind, ret.
    rewrite (predict_loop_spec self X' N 0 _ w Hls HX)
      by (rewrite length_replicate; lia).
    cbn [take app rbind]. reflexivity.
  - split; [apply passes_length|]. split; [|split; [|reflexivity]].
    + intros s Hs. split; [apply passes_lookup, Hs|].
      apply passes_cursor.
    + intros i j Hi Hj. split.
      * apply (np_mean0_3_entry _ _ _ i j Hshapes Hi Hj).
      * apply (np_var0_3_entry _ _ _ i j Hshapes Hi Hj).
Qed.

Lemma unit_network_shaped : network_shaped (unit_network (dec 1 100)).
Proof.
  split; [|reflexivity]. split; [exact unit_layer_shaped|exact I].
Qed.

Lemma predict_is_monte_carlo_witness :
  exists n_L y_pred y_pred_var,
    last (layers (unit_network (dec 1 100))) = Some n_L
    /\ predict (unit_network (dec 1 100)) [[0%R]] 2 quiet_world
       = (Ok (y_pred, y_pred_var),
          (passes (model (unit_network (dec 1 100)))
             (normalize (unit_network (dec 1 100)) [[0%R]]) 2 quiet_world).2)
    /\ y_pred
       = np_mean0_3 (length (normalize (unit_network (dec 1 100)) [[0%R]])) n_L
           (predict_samples (unit_network (dec 1 100)) [[0%R]] 2 quiet_world)
    /\ y_pred_var
       = np_var0_3 (length (normalize (unit_network (dec 1 100)) [[0%R]])) n_L
           (predict_samples (unit_network (dec 1 100)) [[0%R]] 2 quiet_world)
    /\ length (predict_samples (unit_network (dec 1 100)) [[0%R]] 2 quiet_world) = 2
    /\ (forall s, s < 2 ->
          predict_samples (unit_network (dec 1 100)) [[0%R]] 2 quiet_world !! s
            = Some (Sequential_call (model (unit_network (dec 1 100)))
                      (normalize (unit_network (dec 1 100)) [[0%R]])
                      (passes (model (unit_network (dec 1 100)))
                         (normalize (unit_network (dec 1 100)) [[0%R]]) s
                         quiet_world).2).1
          /\ noise (passes (model (unit_network (dec 1 100)))
                      (normalize (unit_network (dec 1 100)) [[0%R]]) s
                      quiet_world).2 = noise quiet_world
          /\ cursor (passes (model (unit_network (dec 1 100)))
                       (normalize (unit_network (dec 1 100)) [[0%R]]) s
                       quiet_world).2
             = cursor quiet_world
               + s * model_weight_count (model (unit_network (dec 1 100))))
    /\ (forall i j,
          i < length (normalize (unit_network (dec 1 100)) [[0%R]]) -> j < n_L ->
          entry i j y_pred
            = Some (mean_of (entries i j
                      (predict_samples (unit_network (dec 1 100)) [[0%R]] 2
                         quiet_world)))
          /\ entry i j y_pred_var
             = Some (var_of (entries i j
                       (predict_samples (unit_network (dec 1 100)) [[0%R]] 2
                          quiet_world))))
    /\ predict_default (unit_network (dec 1 100)) [[0%R]] quiet_world
       = predict (unit_network (dec 1 100)) [[0%R]] 200 quiet_world.
Proof.
  apply (predict_is_monte_carlo (unit_network (dec 1 100)) [[0%R]] 2 quiet_world).
  - exact unit_network_shaped.
  - repeat constructor.
  - exact I.
  - lia.
Defined.

(** * Further properties of the code *)

(** ** Normalizer: modes and edge cases *)

(** X1. The mode is not validated: for every mode string other than
    "center", "minmax" and "meanstd" (the default "none" included),
    [set_normalize_bounds] stores nothing and returns the instance as it
    was, and [normalize] returns its input, whatever bounds the
    instance holds. *)
Theorem unrecognized_mode_is_no_normalization {T : Type} `{Arith T}
    (self : BayesianNeuralNetwork T) (X X' : matrix T) :
  norm self <> NORM_CENTER -> norm self <> NORM_MINMAX ->
  norm self <> NORM_MEANSTD ->
  set_normalize_bounds self X = Ok self /\ normalize self X' = X'.
Proof.
  intros Hc Hm Hs.
  apply String.eqb_neq in Hc. apply String.eqb_neq in Hm.
  apply String.eqb_neq in Hs. split.
  - unfold set_normalize_bounds. rewrite Hc, Hm, Hs. reflexivity.
  - rewrite normalize_other_mode by assumption. apply tensor_id.
Qed.

Lemma unrecognized_mode_witness :
  set_normalize_bounds (float_network "zscore") [[1; 3]; [1; 5]]%float
    = Ok (float_network "zscore")
  /\ normalize (float_network "zscore") [[2; 4]]%float = [[2; 4]]%float.
Proof.
  apply (unrecognized_mode_is_no_normalization (float_network "zscore")
           [[1; 3]; [1; 5]]%float [[2; 4]]%float); discriminate.
Defined.

Section MinMax.
Local Open Scope R_scope.

Lemma foldl_zip_min_lookup (rs : matrix R) (r : vec R) (k j : nat) (x : R) :
  rectangular k rs -> length r = k -> r !! j = Some x ->
  exists m,
    foldl (zip_with Rmin) r rs !! j = Some m
    /\ m <= x /\ Forall (fun y => m <= y) (column j rs).
Proof.
  intros Hrs. revert r x. induction Hrs as [|r1 rs Hr1 _ IH]; intros r x Hr Hx.
  - exists x. cbn. split; [exact Hx|]. split; [lra|constructor].
  - cbn [foldl]. pose proof (lookup_lt_Some _ _ _ Hx) as Hj.
    destruct (lookup_lt_is_Some_2 r1 j) as [x1 Hx1]; [lia|].
    destruct (IH (zip_with Rmin r r1) (Rmin x x1)) as (m & Hm & Hle & Hall).
    + rewrite length_zip_with. lia.
    + rewrite lookup_zip_with, Hx. cbn. rewrite Hx1. reflexivity.
    + exists m. split; [exact Hm|].
      pose proof (Rmin_l x x1). pose proof (Rmin_r x x1).
      split; [lra|]. unfold column. rewrite fmap_cons. constructor; [|exact Hall].
      rewrite (nth_lookup_Some _ _ _ _ Hx1). lra.
Qed.

Lemma foldl_zip_max_lookup (rs : matrix R) (r : vec R) (k j : nat) (x : R) :
  rectangular k rs -> length r = k -> r !! j = Some x ->
  exists m,
    foldl (zip_with Rmax) r rs !! j = Some m
    /\ x <= m /\ Forall (fun y => y <= m) (column j rs).
Proof.
  intros Hrs. revert r x. induction Hrs as [|r1 rs Hr1 _ IH]; intros r x Hr Hx.
  - exists x. cbn. split; [exact Hx|]. split; [lra|constructor].
  - cbn [foldl]. pose proof (lookup_lt_Some _ _ _ Hx) as Hj.
    destruct (lookup_lt_is_Some_2 r1 j) as [x1 Hx1]; [lia|].
    destruct (IH (zip_with Rmax r r1) (Rmax x x1)) as (m & Hm & Hle & Hall).
    + rewrite length_zip_with. lia.
    + rewrite lookup_zip_with, Hx. cbn. rewrite Hx1. reflexivity.
    + exists m. split; [exact Hm|].
      pose proof (Rmax_l x x1). pose proof (Rmax_r x x1).
      split; [lra|]. unfold column. rewrite fmap_cons. constructor; [|exact Hall].
      rewrite (nth_lookup_Some _ _ _ _ Hx1). lra.
Qed.

(** The column minima and maxima bracket every entry. *)
Lemma min_max_bracket (X : matrix R) (i j : nat) (row : list R) (x : R) :
  rectangular (ncols X) X -> X !! i = Some row -> row !! j = Some x ->
  exists lb ub lbj ubj,
    np_min0 X = Ok lb /\ np_max0 X = Ok ub
    /\ lb !! j = Some lbj /\ ub !! j = Some ubj /\ lbj <= x <= ubj.
Proof.
  intros Hrect Hrow Hx. destruct X as [|r rs]; [discriminate|].
  cbn [ncols] in Hrect. apply Forall_cons in Hrect as [_ Hrs].
  assert (Hin : (r :: rs) !! i = Some row) by exact Hrow.
  pose proof (lookup_lt_Some _ _ _ Hx) as Hj.
  assert (Hlen : length row = length r).
  { destruct i; [injection Hrow as <-; reflexivity|].
    apply (Forall_lookup_1 _ _ _ _ Hrs Hrow). }
  destruct (lookup_lt_is_Some_2 r j) as [x0 Hx0]; [lia|].
  destruct (foldl_zip_min_lookup rs r (length r) j x0 Hrs eq_refl Hx0)
    as (lo & Hlo & Hlo0 & Hlos).
  destruct (foldl_zip_max_lookup rs r (length r) j x0 Hrs eq_refl Hx0)
    as (hi & Hhi & Hhi0 & Hhis).
  exists (foldl (zip_with Rmin) r rs), (foldl (zip_with Rmax) r rs), lo, hi.
  split; [reflexivity|]. split; [reflexivity|].
  split; [exact Hlo|]. split; [exact Hhi|].
  destruct i as [|i].
  - injection Hrow as <-. rewrite Hx0 in Hx. injection Hx as <-. lra.
  - change (rs !! i = Some row) in Hrow.
    assert (Hcol : column j rs !! i = Some x).
    { unfold column. rewrite list_lookup_fmap, Hrow. cbn.
      rewrite (nth_lookup_Some _ _ _ _ Hx). reflexivity. }
    pose proof (Forall_lookup_1 _ _ _ _ Hlos Hcol).
    pose proof (Forall_lookup_1 _ _ _ _ Hhis Hcol). cbn in *. lra.
Qed.
End MinMax.

(** X2. In mode [center], over exact reals, for every training matrix
    [X] (an array) and every entry [x] of it in column [j]:
    [set_normalize_bounds] stores the column minima and maxima, which
    bracket [x]; [normalize] maps [x] to [x] minus the midpoint of the
    stored minimum and maximum of its column; and the result lies
    within half the column's range of zero. *)
Theorem center_normalize_subtracts_midpoint
    (self : BayesianNeuralNetwork R) (X : matrix R) (i j : nat)
    (row : list R) (x : R) :
  norm self = NORM_CENTER ->
  rectangular (ncols X) X -> X !! i = Some row -> row !! j = Some x ->
  exists self' lb ub lbj ubj,
    set_normalize_bounds self X = Ok self'
    /\ norm_bounds self' = Some (lb, ub)
    /\ lb !! j = Some lbj /\ ub !! j = Some ubj
    /\ (lbj <= x <= ubj)%R
    /\ entry i j (normalize self' X) = Some (x - (lbj + ubj) / 2)%R
    /\ (Rabs (x - (lbj + ubj) / 2) <= (ubj - lbj) / 2)%R.
Proof.
  intros Hmode Hrect Hrow Hx.
  destruct (min_max_bracket X i j row x Hrect Hrow Hx)
    as (lb & ub & lbj & ubj & Hmin & Hmax & Hlb & Hub & Hbr).
  exists (set_norm_bounds (Some (lb, ub)) self), lb, ub, lbj, ubj.
  split; [|split; [reflexivity|]].
  { unfold set_normalize_bounds. rewrite Hmode, Hmin, Hmax. reflexivity. }
  split; [exact Hlb|]. split; [exact Hub|]. split; [exact Hbr|]. split.
  - unfold normalize. cbn [norm_bounds set_norm_bounds norm]. rewrite Hmode.
    cbn [String.eqb Ascii.eqb Bool.eqb NORM_CENTER]. rewrite tensor_id.
    destruct (bcast_lookup sub_ X lb i j row x lbj Hrow Hx Hlb) as (r1 & Hr1 & Hx1).
    assert (Hhalf : ((fun e => dec 5 10 * e)%sc <$> zip_with sub_ ub lb) !! j
                    = Some (dec 5 10 * (ubj - lbj))%R).
    { rewrite list_lookup_fmap, lookup_zip_with, Hub. cbn. rewrite Hlb. reflexivity. }
    destruct (bcast_lookup sub_ _ _ i j r1 _ _ Hr1 Hx1 Hhalf) as (r2 & Hr2 & Hx2).
    unfold entry. rewrite Hr2. cbn. rewrite Hx2. f_equal.
    unfold dec. cbn. field.
  - apply Rabs_le. lra.
Qed.

Lemma center_normalize_witness :
  exists self' lb ub lbj ubj,
    set_normalize_bounds (real_network NORM_CENTER) [[0%R]; [2%R]] = Ok self'
    /\ norm_bounds self' = Some (lb, ub)
    /\ lb !! 0 = Some lbj /\ ub !! 0 = Some ubj
    /\ (lbj <= 2 <= ubj)%R
    /\ entry 1 0 (normalize self' [[0%R]; [2%R]]) = Some (2 - (lbj + ubj) / 2)%R
    /\ (Rabs (2 - (lbj + ubj) / 2) <= (ubj - lbj) / 2)%R.
Proof.
  apply (center_normalize_subtracts_midpoint (real_network NORM_CENTER)
           [[0%R]; [2%R]] 1 0 [2%R] 2%R).
  - reflexivity.
  - repeat constructor.
  - reflexivity.
  - reflexivity.
Defined.

(** ** Training: what [fit] does around the optimizer steps *)

(** The constructor arguments that [fit] never assigns. *)
Definition same_hyperparameters {T : Type} (a b : BayesianNeuralNetwork T) : Prop :=
  dtype a = dtype b /\ layers a = layers b /\ lr a = lr b /\ klw a = klw b
  /\ norm a = norm b /\ adv_eps a = adv_eps b /\ soft_0 a = soft_0 b
  /\ sigma_alea a = sigma_alea b /\ batch_size a = batch_size b.

Section FitFacts.
Context {T : Type} `{Arith T} `{Transcendental T}.
Variable tape_gradient :
  (list (variable T) -> T) -> list (variable T) -> list (variable T).
Variable apply_gradients :
  Adam T -> list (variable T * variable T) -> Adam T * list (variable T).

Lemma same_hyperparameters_refl (a : BayesianNeuralNetwork T) :
  same_hyperparameters a a.
Proof. repeat split. Qed.

Lemma same_hyperparameters_trans (a b c : BayesianNeuralNetwork T) :
  same_hyperparameters a b -> same_hyperparameters b c ->
  same_hyperparameters a c.
Proof.
  unfold same_hyperparameters. intros Hab Hbc.
  repeat split; etransitivity; try apply Hab; apply Hbc.
Qed.

Lemma layers_assign_length (ls : list (DenseVariational T)) (vs : list (variable T)) :
  length (layers_assign ls vs) = length ls.
Proof.
  revert vs. induction ls as [|l ls IH]; intros vs; [reflexivity|].
  cbn. destruct (layer_assign l vs) as [l' rest]. cbn. rewrite IH. reflexivity.
Qed.

(** What [log], [set_logger] and [set_normalize_bounds] leave alone. *)
Lemma log_keeps (ev : log_event T) (a : BayesianNeuralNetwork T) :
  same_hyperparameters (log ev a) a
  /\ norm_bounds (log ev a) = norm_bounds a
  /\ model (log ev a) = model a
  /\ logger (log ev a)
     = match logger a with None => None | Some evs => Some (evs ++ [ev]) end.
Proof.
  unfold log. destruct (logger a) as [evs|] eqn:Hlg; cbn; repeat split.
  exact Hlg.
Qed.

Lemma set_normalize_bounds_keeps (a a' : BayesianNeuralNetwork T) (X : matrix T) :
  set_normalize_bounds a X = Ok a' ->
  same_hyperparameters a' a /\ logger a' = logger a /\ model a' = model a.
Proof.
  unfold set_normalize_bounds.
  destruct (String.eqb (norm a) NORM_CENTER || String.eqb (norm a) NORM_MINMAX).
  - destruct (np_min0 X) as [lb|e]; [|discriminate]. cbn.
    destruct (np_max0 X) as [ub|e]; [|discriminate]. cbn.
    intros [= <-]. repeat split.
  - destruct (String.eqb (norm a) NORM_MEANSTD); intros [= <-]; repeat split.
Qed.

(** The stored bounds depend on the mode, the earlier bounds and the
    training matrix only. *)
Lemma set_normalize_bounds_congr (a b a' : BayesianNeuralNetwork T) (X : matrix T) :
  norm a = norm b -> norm_bounds a = norm_bounds b ->
  set_normalize_bounds a X = Ok a' ->
  exists b', set_normalize_bounds b X = Ok b'
             /\ norm_bounds b' = norm_bounds a'.
Proof.
  unfold set_normalize_bounds. intros <- Hnb.
  destruct (String.eqb (norm a) NORM_CENTER || String.eqb (norm a) NORM_MINMAX).
  - destruct (np_min0 X) as [lb|e]; [|discriminate]. cbn.
    destruct (np_max0 X) as [ub|e]; [|discriminate]. cbn.
    intros [= <-]. eexists. split; reflexivity.
  - destruct (String.eqb (norm a) NORM_MEANSTD); intros [= <-];
      eexists; (split; [reflexivity|]); cbn; congruence.
Qed.

Lemma fit_epoch_spec (X_v v : matrix T) (self : BayesianNeuralNetwork T)
    (e : nat) (w : world T) :
  exists loss_value,
    same_hyperparameters (fit_epoch tape_gradient apply_gradients X_v v self e w).1 self
    /\ norm_bounds (fit_epoch tape_gradient apply_gradients X_v v self e w).1
       = norm_bounds self
    /\ length (seq_layers (model (fit_epoch tape_gradient apply_gradients
                                    X_v v self e w).1))
       = length (seq_layers (model self))
    /\ logger (fit_epoch tape_gradient apply_gradients X_v v self e w).1
       = match logger self with
         | None => None
         | Some evs => Some (evs ++ [log_train_epoch e loss_value])
         end.
Proof.
  unfold fit_epoch, bind, ret. rewrite grad_unfold.
  destruct (apply_gradients _ _) as [opt values]. cbn [fst].
  eexists.
  destruct (log_keeps (log_train_epoch e
              (loss self v (Sequential_call (model self) X_v w).1))
              (set_trained opt (assign (model self) values) self))
    as (Hh & Hb & Hm & Hl).
  split; [exact Hh|]. split; [exact Hb|]. split; [|exact Hl].
  rewrite Hm. cbn. apply layers_assign_length.
Qed.

Lemma fit_loop_spec (X_v v : matrix T) (es : list nat)
    (self : BayesianNeuralNetwork T) (w : world T) :
  exists ls,
    length ls = length es
    /\ same_hyperparameters (fit_loop tape_gradient apply_gradients X_v v self es w).1
         self
    /\ norm_bounds (fit_loop tape_gradient apply_gradients X_v v self es w).1
       = norm_bounds self
    /\ length (seq_layers (model (fit_loop tape_gradient apply_gradients
                                    X_v v self es w).1))
       = length (seq_layers (model self))
    /\ logger (fit_loop tape_gradient apply_gradients X_v v self es w).1
       = match logger self with
         | None => None
         | Some evs => Some (evs ++ zip_with log_train_epoch es ls)
         end.
Proof.
  revert self w. induction es as [|e es IH]; intros self w.
  - exists []. cbn. split; [reflexivity|].
    split; [apply same_hyperparameters_refl|]. split; [reflexivity|].
    split; [reflexivity|]. destruct (logger self); [rewrite app_nil_r|]; reflexivity.
  - cbn [fit_loop]. unfold bind.
    destruct (fit_epoch_spec X_v v self e w) as (lv & Hh & Hb & Hn & Hl).
    destruct (fit_epoch tape_gradient apply_gradients X_v v self e w) as [self1 w1].
    cbn [fst] in *.
    destruct (IH self1 w1) as (ls & Hlen & Hh' & Hb' & Hn' & Hl').
    exists (lv :: ls). split; [cbn; lia|].
    split; [eapply same_hyperparameters_trans; eassumption|].
    split; [congruence|]. split; [congruence|].
    rewrite Hl', Hl. destruct (logger self); [|reflexivity].
    cbn. rewrite <- app_assoc. reflexivity.
Qed.
End FitFacts.

(** Two variables of one kind and one shape. *)
Definition same_variable_shape (a b : variable R) : Prop :=
  match a, b with
  | VMat _ m, VMat _ m' => same_shape m m'
  | VVec _ v, VVec _ v' => length v = length v'
  | _, _ => False
  end.

Lemma same_variable_shapes_refl (vs : list (variable R)) :
  Forall2 same_variable_shape vs vs.
Proof.
  induction vs as [|v vs IH]; constructor; [|exact IH].
  destruct v; cbn; [apply same_shape_refl|reflexivity].
Qed.

Lemma network_shaped_congr (a b : BayesianNeuralNetwork R) :
  model a = model b -> layers a = layers b ->
  network_shaped b -> network_shaped a.
Proof. unfold network_shaped. intros -> ->. intros Hb. exact Hb. Qed.

Section FitShapes.
Variable tape_gradient :
  (list (variable R) -> R) -> list (variable R) -> list (variable R).
Variable apply_gradients :
  Adam R -> list (variable R * variable R) -> Adam R * list (variable R).

(** TensorFlow's part: one gradient per watched variable, of the
    variable's shape, and a step that gives every variable a value of
    its shape. *)
Hypothesis tape_gradient_shapes :
  forall f vs, Forall2 same_variable_shape (tape_gradient f vs) vs.
Hypothesis apply_gradients_shapes :
  forall o gv, Forall2 same_variable_shape (apply_gradients o gv).2 (snd <$> gv).

Lemma layer_assign_shaped (d : nat) (l : DenseVariational R)
    (vs rest0 : list (variable R)) :
  layer_shaped d l ->
  Forall2 same_variable_shape vs (layer_trainable_variables l ++ rest0) ->
  layer_shaped d (layer_assign l vs).1
  /\ units (layer_assign l vs).1 = units l
  /\ Forall2 same_variable_shape (layer_assign l vs).2 rest0.
Proof.
  intros (Hd & Hrows & Hshape & Hbm & Hbr) Hvs.
  unfold layer_trainable_variables in Hvs. cbn [app] in Hvs.
  apply Forall2_cons_inv_r in Hvs as (a1 & vs1 & H1 & Hvs & ->).
  apply Forall2_cons_inv_r in Hvs as (a2 & vs2 & H2 & Hvs & ->).
  apply Forall2_cons_inv_r in Hvs as (a3 & vs3 & H3 & Hvs & ->).
  apply Forall2_cons_inv_r in Hvs as (a4 & vs4 & H4 & Hvs & ->).
  destruct a1 as [n1 km|]; [|contradiction].
  destruct a2 as [|n2 bm]; [contradiction|].
  destruct a3 as [n3 kr|]; [|contradiction].
  destruct a4 as [|n4 br]; [contradiction|].
  cbn in H1, H2, H3, H4. cbn [layer_assign fst snd units].
  split; [|split; [reflexivity|exact Hvs]].
  unfold layer_shaped. cbn [kernel_mu kernel_rho bias_mu bias_rho units].
  split; [rewrite (Forall2_length _ _ _ H1); exact Hd|].
  split.
  { apply (rectangular_same_shape (units l) (kernel_mu l) km);
      [apply same_shape_sym, H1|exact Hrows]. }
  split.
  { eapply same_shape_trans; [exact H1|].
    eapply same_shape_trans; [exact Hshape|]. apply same_shape_sym, H3. }
  split; congruence.
Qed.

Lemma layers_assign_shaped (ls : list (DenseVariational R)) (d : nat)
    (vs : list (variable R)) :
  layers_shaped d ls ->
  Forall2 same_variable_shape vs (concat (layer_trainable_variables <$> ls)) ->
  layers_shaped d (layers_assign ls vs)
  /\ output_width d (layers_assign ls vs) = output_width d ls.
Proof.
  revert d vs. induction ls as [|l ls IH]; intros d vs Hls Hvs.
  - split; reflexivity.
  - destruct Hls as [Hl Hls]. rewrite fmap_cons in Hvs. cbn [concat] in Hvs.
    destruct (layer_assign_shaped d l vs _ Hl Hvs) as (Hl' & Hu & Hrest).
    cbn [layers_assign]. destruct (layer_assign l vs) as [l' rest].
    cbn [fst snd] in *.
    destruct (IH (units l) rest Hls Hrest) as [Hls' How].
    split.
    + cbn [layers_shaped]. rewrite Hu. split; assumption.
    + unfold output_width in *. cbn [foldl]. rewrite Hu. exact How.
Qed.

(** An epoch of [fit] leaves a network of consistent shapes. *)
Lemma fit_epoch_shaped (X_v v : matrix R) (self : BayesianNeuralNetwork R)
    (e : nat) (w : world R) :
  network_shaped self ->
  network_shaped (fit_epoch tape_gradient apply_gradients X_v v self e w).1.
Proof.
  intros [Hls Hlast]. unfold fit_epoch, bind, ret. rewrite grad_unfold.
  pose proof (tape_gradient_shapes (taped_loss self X_v v w)
                (trainable_variables (model self))) as Hg.
  pose proof (apply_gradients_shapes (optimizer self)
                (zip (tape_gradient (taped_loss self X_v v w)
                        (trainable_variables (model self)))
                     (trainable_variables (model self)))) as Ha.
  rewrite snd_zip in Ha by (rewrite (Forall2_length _ _ _ Hg); lia).
  destruct (apply_gradients _ _) as [opt values]. cbn [fst snd] in *.
  destruct (layers_assign_shaped (seq_layers (model self)) _ values Hls Ha)
    as [Hls' How].
  eapply network_shaped_congr;
    [apply log_keeps|apply (log_keeps (T := R))|].
  split; cbn [model set_trained assign input_width seq_layers layers];
    [exact Hls'|]. rewrite How. exact Hlast.
Qed.

Lemma fit_loop_shaped (X_v v : matrix R) (es : list nat)
    (self : BayesianNeuralNetwork R) (w : world R) :
  network_shaped self ->
  network_shaped (fit_loop tape_gradient apply_gradients X_v v self es w).1.
Proof.
  revert self w. induction es as [|e es IH]; intros self w Hshaped;
    [exact Hshaped|].
  cbn [fit_loop]. unfold bind.
  pose proof (fit_epoch_shaped X_v v self e w Hshaped) as H1.
  destruct (fit_epoch tape_gradient apply_gradients X_v v self e w)
    as [self1 w1].
  apply IH, H1.
Qed.
End FitShapes.

(** X3. For a network of consistent shapes, a non-empty training array
    [X_v] of the model's input width and targets [v] of the model's
    output shape, over exact reals: whenever the bounds can be computed
    from the training array, [fit] returns normally after exactly
    [epochs] passes of its loop: it keeps every constructor
    hyperparameter, the number of layers and the shapes of the network,
    leaves the bounds computed from the training array in the instance,
    and a logger receives, after what it held, the start event, one
    epoch event per epoch with the epoch numbers 0 .. epochs - 1 in
    order, and the end event with [epochs] and 0; without a logger none
    is created.  This holds for any differentiation operator that
    returns one gradient per variable, of its shape, and any optimizer
    step that keeps the shapes of the variables. *)
Theorem fit_runs_epochs_and_keeps_hyperparameters
    (tape_gradient :
       (list (variable R) -> R) -> list (variable R) -> list (variable R))
    (apply_gradients :
       Adam R -> list (variable R * variable R) -> Adam R * list (variable R))
    (self self0 : BayesianNeuralNetwork R) (X_v v : matrix R) (epochs : nat)
    (lg : option (list (log_event R))) (w : world R) :
  (forall f vs, Forall2 same_variable_shape (tape_gradient f vs) vs) ->
  (forall o gv,
     Forall2 same_variable_shape (apply_gradients o gv).2 (snd <$> gv)) ->
  network_shaped self ->
  X_v <> [] ->
  rectangular (input_width (model self)) X_v ->
  shaped (length X_v)
    (output_width (input_width (model self)) (seq_layers (model self))) v ->
  set_normalize_bounds self X_v = Ok self0 ->
  exists self' w',
    fit tape_gradient apply_gradients self X_v v epochs lg w = (Ok self', w')
    /\ same_hyperparameters self' self
    /\ norm_bounds self' = norm_bounds self0
    /\ network_shaped self'
    /\ length (seq_layers (model self')) = length (seq_layers (model self))
    /\ match lg with
       | None => logger self' = None
       | Some evs =>
           exists ls,
             length ls = epochs
             /\ logger self'
                = Some (evs ++ [log_train_start]
                        ++ zip_with log_train_epoch (seq 0 epochs) ls
                        ++ [log_train_end epochs (of_Z 0)])
       end.
Proof.
  intros Hgrad Hstep Hshaped _ _ _ Hbounds. unfold fit.
  destruct (log_keeps log_train_start (set_logger lg self))
    as (Hh0 & Hb0 & Hm0 & Hl0).
  set (self1 := log log_train_start (set_logger lg self)) in *.
  destruct (set_normalize_bounds_congr self self1 self0 X_v) as (self2 & Hset & Hb2);
    [symmetry; apply Hh0|symmetry; exact Hb0|exact Hbounds|].
  rewrite Hset. unfold bind, ret.
  destruct (set_normalize_bounds_keeps self1 self2 X_v Hset) as (Hh2 & Hl2 & Hm2).
  assert (Hshaped2 : network_shaped self2).
  { apply (network_shaped_congr self2 self1); [exact Hm2|apply Hh2|].
    apply (network_shaped_congr self1 self); [exact Hm0|apply Hh0|exact Hshaped]. }
  pose proof (fit_loop_shaped tape_gradient apply_gradients Hgrad Hstep
                (normalize self2 X_v) (tensor v) (seq 0 epochs) self2 w Hshaped2)
    as Hshaped3.
  destruct (fit_loop_spec tape_gradient apply_gradients
              (normalize self2 X_v) (tensor v) (seq 0 epochs) self2 w)
    as (ls & Hlen & Hh3 & Hb3 & Hn3 & Hl3).
  destruct (fit_loop tape_gradient apply_gradients (normalize self2 X_v)
              (tensor v) self2 (seq 0 epochs) w) as [self3 w3].
  cbn [fst] in *.
  destruct (log_keeps (log_train_end epochs (of_Z 0)) self3)
    as (Hh4 & Hb4 & Hm4 & Hl4).
  eexists _, w3. split; [reflexivity|].
  split.
  { eapply same_hyperparameters_trans; [exact Hh4|].
    eapply same_hyperparameters_trans; [exact Hh3|].
    eapply same_hyperparameters_trans; [exact Hh2|exact Hh0]. }
  split; [congruence|].
  split; [apply (network_shaped_congr _ self3); [exact Hm4|apply Hh4|exact Hshaped3]|].
  split; [rewrite Hm4, Hn3, Hm2, Hm0; reflexivity|].
  rewrite Hl4, Hl3, Hl2, Hl0. cbn [logger set_logger].
  destruct lg as [evs|]; [|reflexivity].
  exists ls. split; [rewrite Hlen; apply length_seq|].
  rewrite <- !app_assoc. reflexivity.
Qed.

(** An optimizer step that leaves every variable where it is, and a
    differentiation operator that returns the variables themselves. *)
Definition idle_gradient
    (f : list (variable R) -> R) (vs : list (variable R)) : list (variable R) := vs.
Definition idle_step (o : Adam R) (gv : list (variable R * variable R))
  : Adam R * list (variable R) := (o, snd <$> gv).

Lemma fit_runs_epochs_witness :
  exists self' w',
    fit idle_gradient idle_step (unit_network (dec 1 100)) [[0%R]] [[0%R]] 2
        (Some []) quiet_world = (Ok self', w')
    /\ same_hyperparameters self' (unit_network (dec 1 100))
    /\ norm_bounds self' = norm_bounds (unit_network (dec 1 100))
    /\ network_shaped self'
    /\ length (seq_layers (model self'))
       = length (seq_layers (model (unit_network (dec 1 100))))
    /\ exists ls,
         length ls = 2
         /\ logger self'
            = Some ([] ++ [log_train_start]
                    ++ zip_with log_train_epoch (seq 0 2) ls
                    ++ [log_train_end 2 (of_Z 0)]).
Proof.
  apply (fit_runs_epochs_and_keeps_hyperparameters idle_gradient idle_step
           (unit_network (dec 1 100)) (unit_network (dec 1 100))
           [[0%R]] [[0%R]] 2 (Some []) quiet_world).
  - intros f vs. apply same_variable_shapes_refl.
  - intros o gv. apply same_variable_shapes_refl.
  - exact unit_network_shaped.
  - discriminate.
  - repeat constructor.
  - split; [reflexivity|repeat constructor].
  - reflexivity.
Defined.

(** X4. An empty training matrix in mode [center] or [minmax]: the
    column minimum of no rows is numpy's [ValueError], which
    [set_normalize_bounds] and hence [fit] let through; [fit] raises it
    before its first training step, with the random stream and the
    collected losses untouched. *)
Theorem fit_on_empty_matrix_raises
    {T : Type} `{Arith T} `{Transcendental T}
    (tape_gradient :
       (list (variable T) -> T) -> list (variable T) -> list (variable T))
    (apply_gradients :
       Adam T -> list (variable T * variable T) -> Adam T * list (variable T))
    (self : BayesianNeuralNetwork T) (v : matrix T) (epochs : nat)
    (lg : option (list (log_event T))) (w : world T) :
  norm self = NORM_CENTER \/ norm self = NORM_MINMAX ->
  set_normalize_bounds self []
    = Raise (ValueError
        "zero-size array to reduction operation minimum which has no identity")
  /\ fit tape_gradient apply_gradients self [] v epochs lg w
     = (Raise (ValueError
          "zero-size array to reduction operation minimum which has no identity"),
        w).
Proof.
  intros Hmode.
  assert (Hraise : forall a : BayesianNeuralNetwork T,
             norm a = norm self ->
             set_normalize_bounds a []
             = Raise (ValueError
                 "zero-size array to reduction operation minimum which has no identity")).
  { intros a Ha. unfold set_normalize_bounds. rewrite Ha.
    destruct Hmode as [-> | ->]; reflexivity. }
  split; [apply Hraise; reflexivity|].
  unfold fit. rewrite Hraise; [reflexivity|].
  apply (log_keeps log_train_start (set_logger lg self)).
Qed.

Lemma fit_on_empty_matrix_witness :
  set_normalize_bounds (real_network NORM_CENTER) []
    = Raise (ValueError
        "zero-size array to reduction operation minimum which has no identity")
  /\ fit idle_gradient idle_step (real_network NORM_CENTER) [] [] 3 None quiet_world
     = (Raise (ValueError
          "zero-size array to reduction operation minimum which has no identity"),
        quiet_world).
Proof.
  apply (fit_on_empty_matrix_raises idle_gradient idle_step
           (real_network NORM_CENTER) [] 3 None quiet_world).
  left. reflexivity.
Defined.

(** The unit network with its list of layer widths emptied. *)
Definition no_widths_network : BayesianNeuralNetwork R :=
  {| dtype := "float64";
     optimizer := optimizer (unit_network (dec 1 100));
     layers := [];
     lr := dec 1 100;
     klw := 1%R;
     norm_bounds := None;
     logger := None;
     batch_size := 0;
     norm := NORM_NONE;
     adv_eps := None;
     soft_0 := dec 1 100;
     sigma_alea := dec 1 100;
     model := model (unit_network (dec 1 100)) |}.

(** X5. An empty list of layer widths is an [IndexError]: on an input
    array that the stored bounds fit (or with no bounds stored),
    [predict] raises it (from [self.layers[-1]]) before any forward
    pass, and the constructor raises it (from [build_model]) when it is
    given no model; in both cases no draw is taken. *)
Theorem empty_layers_is_index_error
    {T : Type} `{Arith T} `{Transcendental T}
    (self : BayesianNeuralNetwork T) (X : matrix T) (k samples : nat)
    (lr klw : T) (soft_0 sigma_alea adv_eps : option T) (norm : option string)
    (norm_bounds : option (vec T * vec T)) (w : world T) :
  layers self = [] ->
  array_of_width k X -> bounds_fit self k ->
  predict self X samples w
    = (Raise (IndexError "list index out of range"), w)
  /\ BayesianNeuralNetwork_init (layers self) lr klw soft_0 sigma_alea adv_eps
       norm None norm_bounds w
     = (Raise (IndexError "list index out of range"), w).
Proof.
  intros Hempty _ _. unfold predict, BayesianNeuralNetwork_init, build_model.
  rewrite Hempty. split; reflexivity.
Qed.

Lemma empty_layers_witness :
  predict no_widths_network [[0%R]] 5 quiet_world
    = (Raise (IndexError "list index out of range"), quiet_world)
  /\ BayesianNeuralNetwork_init (layers no_widths_network) 1%R 1%R None None None
       None None None quiet_world
     = (Raise (IndexError "list index out of range"), quiet_world).
Proof.
  apply (empty_layers_is_index_error no_widths_network [[0%R]] 1 5 1%R 1%R
           None None None None None quiet_world).
  - reflexivity.
  - repeat constructor.
  - exact I.
Defined.

(** ** Construction: [build], [build_model], [__init__] *)

Section BuildFacts.
Local Open Scope R_scope.

Lemma zeros2_same_shape_mfill (d u : nat) (f : nat -> R) (g : R -> R) :
  length ((fun row : list R => g <$> row) <$> mfill (zeros2 d u) f) = d
  /\ rectangular u ((fun row : list R => g <$> row) <$> mfill (zeros2 d u) f)
  /\ same_shape ((fun row : list R => g <$> row) <$> mfill (zeros2 d u) f)
       (zeros2 (T := R) d u).
Proof.
  destruct (zeros2_shaped d u) as [Hn Hk].
  pose proof (same_shape_mfill (zeros2 d u) f) as Hfill.
  pose proof (same_shape_fmap g (mfill (zeros2 d u) f)) as Hmap.
  pose proof (same_shape_trans _ _ _ Hfill Hmap) as Hall.
  split; [|split].
  - rewrite <- (Forall2_length _ _ _ Hall). exact Hn.
  - apply (rectangular_same_shape u _ _ Hall Hk).
  - apply same_shape_sym, Hall.
Qed.

(** A layer after [build] on inputs of width [d]. *)
Lemma build_spec (d : nat) (l0 : DenseVariational R) (w : world R) :
  layer_shaped d (build d l0 w).1
  /\ units (build d l0 w).1 = units l0
  /\ kl_weight (build d l0 w).1 = kl_weight l0
  /\ activation (build d l0 w).1 = activation l0
  /\ kernel_rho (build d l0 w).1 = zeros2 d (units l0)
  /\ bias_rho (build d l0 w).1 = zeros1 (units l0)
  /\ noise (build d l0 w).2 = noise w
  /\ cursor (build d l0 w).2 = (cursor w + weight_count (build d l0 w).1)%nat.
Proof.
  unfold build, bind, ret, random_normal. cbn [fst snd].
  cbn [units kl_weight activation kernel_rho bias_rho noise cursor losses].
  set (f := fun i => noise w (cursor w + i)%nat).
  destruct (zeros2_same_shape_mfill d (units l0) f (fun z => init_sigma l0 * z))
    as (Hn & Hk & Hs).
  assert (Hcount : length (concat (zeros2 (T := R) d (units l0)))
                   = length (concat ((fun row : list R =>
                                        (fun z => init_sigma l0 * z) <$> row)
                                     <$> mfill (zeros2 d (units l0)) f))).
  { clear Hn Hk. apply same_shape_sym in Hs. revert Hs.
    generalize ((fun row : list R => (fun z => init_sigma l0 * z) <$> row)
                <$> mfill (zeros2 d (units l0)) f).
    generalize (zeros2 (T := R) d (units l0)).
    induction 1 as [|r1 r2 M N Hr _ IH]; [reflexivity|].
    cbn. rewrite !length_app. lia. }
  split; [|repeat split].
  - unfold layer_shaped. cbn [kernel_mu kernel_rho bias_mu bias_rho units].
    cbn [tmap tfill telems matrix_tensor vec_tensor].
    split; [exact Hn|]. split; [exact Hk|]. split; [exact Hs|].
    unfold zeros1. rewrite !length_fmap, length_seq, !length_replicate.
    split; reflexivity.
  - unfold weight_count. cbn [kernel_mu bias_mu].
    cbn [tmap tfill telems matrix_tensor vec_tensor].
    rewrite !length_fmap, length_seq.
    change (fun z : R => (init_sigma l0 * z)%sc)
      with (fun z : R => init_sigma l0 * z).
    rewrite <- Hcount. lia.
Qed.

Lemma build_layers_spec (klw : R) (specs : list (nat * Activation)) (d : nat)
    (w : world R) :
  layers_shaped d (build_layers d klw specs w).1
  /\ output_width d (build_layers d klw specs w).1
     = foldl (fun _ s => s.1) d specs
  /\ (fun l : DenseVariational R => units l) <$> (build_layers d klw specs w).1
     = (fun s : nat * Activation => s.1) <$> specs
  /\ (fun l : DenseVariational R => activation l) <$> (build_layers d klw specs w).1
     = (fun s : nat * Activation => s.2) <$> specs
  /\ Forall (fun l : DenseVariational R => kl_weight l = klw)
       (build_layers d klw specs w).1
  /\ Forall (fun l : DenseVariational R =>
               Forall (Forall (fun r => r = 0)) (kernel_rho l)
               /\ Forall (fun r => r = 0) (bias_rho l))
       (build_layers d klw specs w).1
  /\ noise (build_layers d klw specs w).2 = noise w
  /\ cursor (build_layers d klw specs w).2
     = (cursor w + sum_list (weight_count <$> (build_layers d klw specs w).1))%nat.
Proof.
  revert d w. induction specs as [|[width act] specs IH]; intros d w.
  - cbn. repeat split; try constructor. lia.
  - cbn [build_layers]. unfold bind, ret.
    destruct (build_spec d
                (DenseVariational_init width klw act default_prior_sigma_1
                   default_prior_sigma_2 default_prior_pi) w)
      as (Hsh & Hu & Hk & Ha & Hkr & Hbr & Hn & Hc).
    destruct (build d _ w) as [l w1]. cbn [fst snd] in *.
    destruct (IH width w1) as (Hls & How & Hus & Has & Hks & Hrs & Hns & Hcs).
    destruct (build_layers width klw specs w1) as [ls w2]. cbn [fst snd] in *.
    cbn [units DenseVariational_init kl_weight activation] in Hu, Hk, Ha.
    split; [cbn; rewrite Hu; split; assumption|].
    split; [unfold output_width in *; cbn [foldl]; rewrite Hu; exact How|].
    split; [rewrite !fmap_cons, Hu, Hus; reflexivity|].
    split; [rewrite !fmap_cons, Ha, Has; reflexivity|].
    split; [constructor; assumption|].
    split.
    { constructor; [|exact Hrs]. rewrite Hkr, Hbr. unfold zeros2, zeros1. split.
      - apply Forall_replicate, Forall_replicate. reflexivity.
      - apply Forall_replicate. reflexivity. }
    split; [congruence|].
    rewrite Hcs, Hc. cbn. lia.
Qed.
End BuildFacts.

(** X6. For every non-empty list of widths, the constructor called
    without a model returns an instance whose model has consistent
    shapes, from [layers[0]] inputs to [layers[-1]] outputs
    ([network_shaped], the hypothesis under which [predict] is shown to
    succeed): one layer per width in [layers[1:-1]] with the activation
    [relu], then one of [layers[-1]] units with the linear activation,
    every layer with the instance's KL weight and every [rho] at 0; it
    takes exactly one draw per [mu]. *)
Theorem constructor_builds_consistent_network
    (widths : list nat) (lr klw : R) (soft_0 sigma_alea adv_eps : option R)
    (mode : option string) (bounds : option (vec R * vec R)) (w : world R) :
  widths <> [] ->
  exists self w' n_L,
    BayesianNeuralNetwork_init widths lr klw soft_0 sigma_alea adv_eps mode
      None bounds w = (Ok self, w')
    /\ layers self = widths /\ last widths = Some n_L
    /\ network_shaped self
    /\ input_width (model self) = hd 0 widths
    /\ (fun l : DenseVariational R => units l) <$> seq_layers (model self)
       = take (length widths - 2) (drop 1 widths) ++ [n_L]
    /\ (fun l : DenseVariational R => activation l) <$> seq_layers (model self)
       = replicate (length (take (length widths - 2) (drop 1 widths))) relu
         ++ [linear]
    /\ Forall (fun l : DenseVariational R =>
                 kl_weight l = klw
                 /\ Forall (Forall (fun r => r = 0%R)) (kernel_rho l)
                 /\ Forall (fun r => r = 0%R) (bias_rho l))
         (seq_layers (model self))
    /\ noise w' = noise w
    /\ cursor w' = cursor w + model_weight_count (model self).
Proof.
  intros Hne.
  destruct (last widths) as [n_L|] eqn:Hlast;
    [|apply last_None in Hlast; contradiction].
  destruct widths as [|n_0 rest] eqn:Hw; [contradiction|]. rewrite <- Hw in *.
  unfold BayesianNeuralNetwork_init, build_model, bind, ret.
  rewrite Hlast. replace (head widths) with (Some n_0) by (rewrite Hw; reflexivity).
  set (hidden := take (length widths - 2) (drop 1 widths)).
  set (specs := ((fun width => (width, relu)) <$> hidden) ++ [(n_L, linear)]).
  destruct (build_layers_spec klw specs n_0 w)
    as (Hls & How & Hus & Has & Hks & Hrs & Hn & Hc).
  destruct (build_layers n_0 klw specs w) as [ls w1]. cbn [fst snd] in *.
  eexists _, w1, n_L. split; [cbn; reflexivity|].
  cbn [layers model input_width seq_layers].
  split; [reflexivity|]. split; [reflexivity|].
  assert (Hfold : foldl (fun (_ : nat) (s : nat * Activation) => s.1) n_0 specs = n_L).
  { unfold specs. rewrite foldl_app. reflexivity. }
  split; [split; [exact Hls|]; cbn [layers model input_width seq_layers];
          rewrite Hlast, How, Hfold; reflexivity|].
  split; [rewrite Hw; reflexivity|].
  split.
  { rewrite Hus. unfold specs. rewrite fmap_app, <- list_fmap_compose.
    cbn. f_equal. apply list_fmap_id. }
  split.
  { rewrite Has. unfold specs. rewrite fmap_app, <- list_fmap_compose. cbn.
    f_equal. generalize hidden. intros h. induction h as [|a h IH];
      [reflexivity|]. cbn. rewrite IH. reflexivity. }
  split.
  { apply Forall_and. split; [exact Hks|exact Hrs]. }
  split; [exact Hn|exact Hc].
Qed.

Lemma constructor_builds_consistent_network_witness :
  exists self w' n_L,
    BayesianNeuralNetwork_init [2; 3; 1] (dec 1 100) 1%R None None None None
      None None quiet_world = (Ok self, w')
    /\ layers self = [2; 3; 1] /\ last [2; 3; 1] = Some n_L
    /\ network_shaped self
    /\ input_width (model self) = hd 0 [2; 3; 1]
    /\ (fun l : DenseVariational R => units l) <$> seq_layers (model self)
       = take (length [2; 3; 1] - 2) (drop 1 [2; 3; 1]) ++ [n_L]
    /\ (fun l : DenseVariational R => activation l) <$> seq_layers (model self)
       = replicate (length (take (length [2; 3; 1] - 2) (drop 1 [2; 3; 1]))) relu
         ++ [linear]
    /\ Forall (fun l : DenseVariational R =>
                 kl_weight l = 1%R
                 /\ Forall (Forall (fun r => r = 0%R)) (kernel_rho l)
                 /\ Forall (fun r => r = 0%R) (bias_rho l))
         (seq_layers (model self))
    /\ noise w' = noise quiet_world
    /\ cursor w' = cursor quiet_world + model_weight_count (model self).
Proof.
  apply (constructor_builds_consistent_network [2; 3; 1] (dec 1 100) 1%R
           None None None None None quiet_world).
  discriminate.
Defined.

(** ** The two terms of the objective *)

(** The unit layer with its KL weight set to 0. *)
Definition unweighted_layer : DenseVariational R :=
  (layer_assign
     (DenseVariational_init 1 0%R linear default_prior_sigma_1
        default_prior_sigma_2 default_prior_pi)
     [VMat "kernel_mu" [[0%R]]; VVec "bias_mu" [0%R];
      VMat "kernel_rho" [[0%R]]; VVec "bias_rho" [0%R]]).1.

(** X7. A layer whose KL weight is 0 contributes nothing: over exact
    reals, whatever its weights, its prior, the batch and the draws,
    its forward pass adds the entry 0 to the collected losses. *)
Theorem zero_kl_weight_adds_zero (self : DenseVariational R)
    (inputs : matrix R) (w : world R) :
  kl_weight self = 0%R ->
  losses (call self inputs w).2 = losses w ++ [0%R].
Proof.
  intros Hzero. rewrite call_unfold. cbn [snd losses]. f_equal. f_equal.
  unfold kl_loss. rewrite Hzero. cbn [add_ mul_ R_arith]. ring.
Qed.

Lemma zero_kl_weight_witness :
  losses (call unweighted_layer [[1%R]] quiet_world).2
    = losses quiet_world ++ [0%R].
Proof.
  apply (zero_kl_weight_adds_zero unweighted_layer [[1%R]] quiet_world).
  reflexivity.
Defined.

Section Likelihood.
Local Open Scope R_scope.

Lemma concat_zip_with {A B C : Type} (f : A -> B -> C)
    (M : list (list A)) (N : list (list B)) :
  same_shape M N ->
  concat (zip_with (zip_with f) M N) = zip_with f (concat M) (concat N).
Proof.
  induction 1 as [|r1 r2 M N Hr _ IH]; [reflexivity|].
  cbn. rewrite IH, zip_with_app by exact Hr. reflexivity.
Qed.

(** The negative log-density of one observation. *)
Lemma neg_normal_log_prob (loc scale x : R) :
  0 < scale ->
  - normal_log_prob loc scale x
  = (x - loc) * (x - loc) / (2 * (scale * scale))
    + (ln (2 * PI) / 2 + ln scale).
Proof.
  intros Hs. unfold normal_log_prob, dec. cbn. field. lra.
Qed.

Lemma rsum_plus_const (c : R) (g : R -> R -> R) (ps ys : list R) :
  rsum (zip_with (fun p y => g p y + c) ps ys)
  = rsum (zip_with g ps ys) + INR (length (zip_with g ps ys)) * c.
Proof.
  revert ys. induction ps as [|p ps IH]; intros [|y ys]; unfold rsum in *;
    cbn [zip_with foldr length]; try (cbn; ring).
  rewrite IH, S_INR. ring.
Qed.

Lemma rsum_squares_pos (ps ys : list R) :
  0 <= rsum (zip_with (fun p y => (y - p) * (y - p)) ps ys).
Proof.
  revert ys. induction ps as [|p ps IH]; intros [|y ys]; unfold rsum in *;
    cbn; try lra.
  specialize (IH ys). pose proof (Rle_0_sqr (y - p)) as Hsq.
  unfold Rsqr in Hsq. lra.
Qed.

Lemma rsum_squares_self (ys : list R) :
  rsum (zip_with (fun p y => (y - p) * (y - p)) ys ys) = 0.
Proof.
  induction ys as [|y ys IH]; unfold rsum in *; cbn; [reflexivity|].
  rewrite IH. ring.
Qed.

Lemma loss_closed_form (self : BayesianNeuralNetwork R) (y_obs y_pred : matrix R) :
  0 < sigma_alea self -> same_shape y_pred y_obs ->
  loss self y_obs y_pred
  = rsum (zip_with (fun p y => (y - p) * (y - p)) (concat y_pred) (concat y_obs))
    / (2 * (sigma_alea self * sigma_alea self))
    + INR (length (concat y_obs)) * (ln (2 * PI) / 2 + ln (sigma_alea self)).
Proof.
  intros Hs Hshape. unfold loss. rewrite K_sum_matrix.
  cbn [tmap tzip matrix_tensor].
  assert (Hneg : (fun row : list R => neg_ <$> row)
                 <$> zip_with (zip_with (fun loc x =>
                        normal_log_prob loc (sigma_alea self) x)) y_pred y_obs
                 = zip_with (zip_with (fun p y =>
                      (y - p) * (y - p) / (2 * (sigma_alea self * sigma_alea self))
                      + (ln (2 * PI) / 2 + ln (sigma_alea self)))) y_pred y_obs).
  { clear Hshape. revert y_obs.
    induction y_pred as [|r1 M IH]; intros [|r2 N]; try reflexivity.
    cbn [zip_with fmap list_fmap]. rewrite IH. f_equal.
    revert r2. induction r1 as [|p r1 IHr]; intros [|y r2]; try reflexivity.
    cbn [zip_with fmap list_fmap]. rewrite IHr. f_equal.
    apply neg_normal_log_prob, Hs. }
  rewrite Hneg, (concat_zip_with _ _ _ Hshape).
  rewrite (rsum_plus_const _
             (fun p y => (y - p) * (y - p) / (2 * (sigma_alea self * sigma_alea self)))).
  assert (Hlen : length (zip_with (fun p y : R =>
                   (y - p) * (y - p) / (2 * (sigma_alea self * sigma_alea self)))
                   (concat y_pred) (concat y_obs)) = length (concat y_obs)).
  { rewrite length_zip_with.
    assert (length (concat y_pred) = length (concat y_obs)); [|lia].
    clear Hneg. induction Hshape as [|r1 r2 M N Hr _ IH]; [reflexivity|].
    cbn. rewrite !length_app. lia. }
  rewrite Hlen. f_equal.
  generalize (concat y_pred) (concat y_obs). intros ps.
  induction ps as [|p ps IH]; intros [|y ys]; unfold rsum in *; cbn;
    try (unfold Rdiv; ring).
  rewrite IH. unfold Rdiv. ring.
Qed.
End Likelihood.

(** X8. For a positive noise scale and predictions of the shape of the
    observations, over exact reals, [loss] is the sum of squared errors
    divided by [2 sigma_alea^2], plus [log(sigma_alea sqrt(2 pi))] for
    every observed element; so it is smallest, among predictions of
    that shape, at the observations themselves. *)
Theorem loss_is_scaled_squared_error
    (self : BayesianNeuralNetwork R) (y_obs y_pred : matrix R) :
  (0 < sigma_alea self)%R -> same_shape y_pred y_obs ->
  loss self y_obs y_pred
  = (rsum (zip_with (fun p y => (y - p) * (y - p)) (concat y_pred) (concat y_obs))
     / (2 * (sigma_alea self * sigma_alea self))
     + INR (length (concat y_obs)) * (ln (2 * PI) / 2 + ln (sigma_alea self)))%R
  /\ (loss self y_obs y_obs <= loss self y_obs y_pred)%R.
Proof.
  intros Hs Hshape. split; [apply loss_closed_form; assumption|].
  rewrite (loss_closed_form self y_obs y_pred Hs Hshape).
  rewrite (loss_closed_form self y_obs y_obs Hs (same_shape_refl y_obs)).
  rewrite rsum_squares_self.
  pose proof (rsum_squares_pos (concat y_pred) (concat y_obs)) as Hpos.
  apply Rplus_le_compat_r. unfold Rdiv. rewrite Rmult_0_l.
  apply Rmult_le_pos; [exact Hpos|].
  left. apply Rinv_0_lt_compat. nra.
Qed.

Lemma loss_is_scaled_squared_error_witness :
  loss (unit_network 1) [[1%R]] [[3%R]]
  = (rsum (zip_with (fun p y => (y - p) * (y - p)) (concat [[3%R]]) (concat [[1%R]]))
     / (2 * (sigma_alea (unit_network 1) * sigma_alea (unit_network 1)))
     + INR (length (concat [[1%R]]))
       * (ln (2 * PI) / 2 + ln (sigma_alea (unit_network 1))))%R
  /\ (loss (unit_network 1) [[1%R]] [[1%R]]
      <= loss (unit_network 1) [[1%R]] [[3%R]])%R.
Proof.
  apply (loss_is_scaled_squared_error (unit_network 1) [[1%R]] [[3%R]]).
  - cbn. lra.
  - repeat constructor.
Defined.

(** ** Persistence and prediction together *)

Section Reload.
Context {T : Type} `{Arith T} `{Transcendental T}.

(** [predict] reads the instance through its model, its widths, its
    mode and its bounds only. *)
Lemma predict_loop_model (a b : BayesianNeuralNetwork T) (X : matrix T)
    (n k : nat) (idx : list nat) (acc : list (matrix T)) (w : world T) :
  model a = model b ->
  predict_loop a X n k idx acc w = predict_loop b X n k idx acc w.
Proof.
  intros Hm. revert acc w. induction idx as [|i idx IH]; intros acc w;
    [reflexivity|].
  cbn [predict_loop]. unfold bind. rewrite Hm.
  destruct (Sequential_call (model b) X w) as [Y w1].
  destruct (broadcast_to n k Y); [apply IH|reflexivity].
Qed.

Lemma normalize_congr (a b : BayesianNeuralNetwork T) (X : matrix T) :
  norm a = norm b -> norm_bounds a = norm_bounds b ->
  normalize a X = normalize b X.
Proof. intros Hn Hb. unfold normalize. rewrite Hn, Hb. reflexivity. Qed.

Lemma predict_congr (a b : BayesianNeuralNetwork T) (X : matrix T)
    (samples : nat) (w : world T) :
  model a = model b -> layers a = layers b ->
  norm a = norm b -> norm_bounds a = norm_bounds b ->
  predict a X samples w = predict b X samples w.
Proof.
  intros Hm Hl Hn Hb. unfold predict.
  rewrite (normalize_congr a b X Hn Hb), Hl.
  destruct (last (layers b)); [|reflexivity].
  unfold bind. rewrite (predict_loop_model a b) by exact Hm. reflexivity.
Qed.

Lemma predict_dist_congr (a b : BayesianNeuralNetwork T) (X : matrix T)
    (w : world T) :
  model a = model b -> norm a = norm b -> norm_bounds a = norm_bounds b ->
  (predict_dist a X w).1.1 = (predict_dist b X w).1.1
  /\ (predict_dist a X w).2 = (predict_dist b X w).2.
Proof.
  intros Hm Hn Hb. unfold predict_dist, bind, ret.
  rewrite (normalize_congr a b X Hn Hb), Hm.
  destruct (Sequential_call (model b) (normalize b X) w) as [loc w1].
  split; reflexivity.
Qed.
End Reload.

(** X9. A reloaded instance predicts as the saved one did: for
    distinct paths, the instance that [load_from] returns after
    [save_to] normalizes every input as the saved instance does and,
    started from the same state of the random stream, its [predict]
    returns the same result for every input and sample count, and its
    [predict_dist] the same location.  (The scale of [predict_dist] is
    the noise scale, which is not persisted.) *)
Theorem reloaded_network_predicts_the_same
    {T : Type} `{Arith T} `{Transcendental T}
    (self : BayesianNeuralNetwork T) (model_path params_path : string)
    (fs : gmap string (artifact T)) (w0 : world T) :
  model_path <> params_path ->
  exists self',
    (load_from model_path params_path
       (save_to self model_path params_path fs) w0).1.1 = Ok self'
    /\ (forall X : matrix T, normalize self' X = normalize self X)
    /\ (forall (X : matrix T) (samples : nat) (w : world T),
          predict self' X samples w = predict self X samples w)
    /\ (forall (X : matrix T) (w : world T),
          (predict_dist self' X w).1.1 = (predict_dist self X w).1.1
          /\ (predict_dist self' X w).2 = (predict_dist self X w).2).
Proof.
  intros Hne. eexists. split.
  - rewrite load_from_save_to by exact Hne. reflexivity.
  - split; [|split].
    + intros X. apply normalize_congr; reflexivity.
    + intros X samples w. apply predict_congr; reflexivity.
    + intros X w. apply predict_dist_congr; reflexivity.
Qed.

Lemma reloaded_network_witness :
  exists self',
    (load_from "weights.h5" "params.pkl"
       (save_to (unit_network (dec 5 100)) "weights.h5" "params.pkl" ∅)
       quiet_world).1.1 = Ok self'
    /\ (forall X : matrix R,
          normalize self' X = normalize (unit_network (dec 5 100)) X)
    /\ (forall (X : matrix R) (samples : nat) (w : world R),
          predict self' X samples w
          = predict (unit_network (dec 5 100)) X samples w)
    /\ (forall (X : matrix R) (w : world R),
          (predict_dist self' X w).1.1
          = (predict_dist (unit_network (dec 5 100)) X w).1.1
          /\ (predict_dist self' X w).2
             = (predict_dist (unit_network (dec 5 100)) X w).2).
Proof.
  apply (reloaded_network_predicts_the_same (unit_network (dec 5 100))
           "weights.h5" "params.pkl" ∅ quiet_world).
  discriminate.
Defined.

(** ** Shapes *)

(** [DenseVariational.compute_output_shape] *)
Definition compute_output_shape {T : Type} (self : DenseVariational T)
    (input_shape : nat * nat) : nat * nat :=
  (input_shape.1, units self).

(** X11. The output of [call] has the shape that
    [compute_output_shape] announces for the shape of the batch: for a
    layer with the shapes of [build] on inputs of width [d] and every
    batch of [n] rows of width [d], whatever the draws, the output has
    [n] rows of [units] entries. *)
Theorem call_output_has_announced_shape (d : nat) (self : DenseVariational R)
    (inputs : matrix R) (w : world R) :
  layer_shaped d self ->
  rectangular d inputs ->
  length (call self inputs w).1
    = (compute_output_shape self (length inputs, d)).1
  /\ rectangular (compute_output_shape self (length inputs, d)).2
       (call self inputs w).1.
Proof.
  intros Hshaped _. cbn [compute_output_shape fst snd].
  apply (call_output_shape self d inputs w Hshaped).
Qed.

Lemma call_output_has_announced_shape_witness :
  length (call unit_layer [[0%R]; [1%R]] quiet_world).1
    = (compute_output_shape unit_layer (length [[0%R]; [1%R]], 1)).1
  /\ rectangular (compute_output_shape unit_layer (length [[0%R]; [1%R]], 1)).2
       (call unit_layer [[0%R]; [1%R]] quiet_world).1.
Proof.
  apply (call_output_has_announced_shape 1 unit_layer [[0%R]; [1%R]] quiet_world).
  - exact unit_layer_shaped.
  - repeat constructor.
Defined.

(** A linear layer of two units on inputs of width 1, and an instance
    that announces three outputs around it. *)
Definition two_unit_layer : DenseVariational R :=
  (layer_assign
     (DenseVariational_init 2 1%R linear default_prior_sigma_1
        default_prior_sigma_2 default_prior_pi)
     [VMat "kernel_mu" [[0%R; 0%R]]; VVec "bias_mu" [0%R; 0%R];
      VMat "kernel_rho" [[0%R; 0%R]]; VVec "bias_rho" [0%R; 0%R]]).1.

Definition mismatched_network : BayesianNeuralNetwork R :=
  {| dtype := "float64";
     optimizer := optimizer (unit_network (dec 1 100));
     layers := [1; 3];
     lr := dec 1 100;
     klw := 1%R;
     norm_bounds := None;
     logger := None;
     batch_size := 0;
     norm := NORM_NONE;
     adv_eps := None;
     soft_0 := dec 1 100;
     sigma_alea := dec 1 100;
     model := {| input_width := 1; seq_layers := [two_unit_layer] |} |}.

Section Mismatch.
Local Open Scope R_scope.

Lemma broadcast_to_refuses (n k u : nat) (Y : matrix R) :
  Y <> [] -> rectangular u Y -> u <> k -> u <> 1%nat ->
  broadcast_to n k Y = Raise (broadcast_error (length Y) u n k).
Proof.
  intros Hne Hrect Hk H1. destruct Y as [|row Y]; [congruence|].
  apply Forall_cons in Hrect as [Hrow _].
  unfold broadcast_to. cbv zeta. cbn [broadcast_rows ncols]. unfold broadcast_row.
  destruct (decide (length row = k)) as [Heq|_]; [lia|].
  rewrite Hrow.
  destruct row as [|e [|e' row]]; cbn in *; try reflexivity. lia.
Qed.
End Mismatch.

(** X12. When the model's output width [u] is neither [layers[-1]] nor
    1, [predict] on a non-empty batch [X] of the model's input width
    (the stored bounds unset or of that width) fails: the first forward
    pass is made, its output cannot be stored in the slot of shape
    [(rows, layers[-1])], and numpy's [ValueError] of the array
    assignment, which names the two shapes, comes out of [predict]; no
    later pass is made. *)
Theorem predict_refuses_mismatched_width
    (self : BayesianNeuralNetwork R) (X : matrix R) (samples k : nat)
    (w : world R) :
  layers_shaped (input_width (model self)) (seq_layers (model self)) ->
  rectangular (input_width (model self)) X ->
  bounds_fit self (input_width (model self)) ->
  X <> [] ->
  last (layers self) = Some k ->
  output_width (input_width (model self)) (seq_layers (model self)) <> k ->
  output_width (input_width (model self)) (seq_layers (model self)) <> 1 ->
  0 < samples ->
  predict self X samples w
    = (Raise (ValueError
         ("could not broadcast input array from shape " +:+
          shape_string (length X)
            (output_width (input_width (model self)) (seq_layers (model self)))
          +:+ " into shape " +:+ shape_string (length X) k)),
       (Sequential_call (model self) (normalize self X) w).2).
Proof.
  intros Hls HX0 Hfit Hne Hlast Hk H1 Hpos.
  destruct (normalize_rectangular self X _ HX0 Hfit) as [HXn HX].
  unfold predict. rewrite Hlast.
  destruct samples as [|samples]; [lia|].
  unfold bind, ret. cbn [seq predict_loop]. unfold bind.
  destruct (Sequential_call_shape (model self) (normalize self X) w Hls HX)
    as [Hlen Hrect].
  destruct (Sequential_call (model self) (normalize self X) w) as [Y w1].
  cbn [fst snd] in *.
  rewrite (broadcast_to_refuses (length (normalize self X)) k
             (output_width (input_width (model self)) (seq_layers (model self)))
             Y); [|  |exact Hrect|exact Hk|exact H1].
  - rewrite Hlen, HXn. reflexivity.
  - destruct Y; [|discriminate].
    destruct (normalize self X); [|discriminate].
    destruct X; [congruence|discriminate].
Qed.

Lemma predict_refuses_mismatched_width_witness :
  predict mismatched_network [[0%R]] 4 quiet_world
    = (Raise (ValueError
         "could not broadcast input array from shape (1,2) into shape (1,3)"),
       (Sequential_call (model mismatched_network)
          (normalize mismatched_network [[0%R]]) quiet_world).2).
Proof.
  apply (predict_refuses_mismatched_width mismatched_network [[0%R]] 4 3
           quiet_world).
  - split; [|exact I]. repeat split; repeat constructor.
  - repeat constructor.
  - exact I.
  - discriminate.
  - reflexivity.
  - cbn. lia.
  - cbn. lia.
  - lia.
Defined.

(** ** The arrays returned by [predict] *)

Section PredictArrays.
Local Open Scope R_scope.

Lemma foldl_mzip_shaped (Ms : list (matrix R)) (M : matrix R) (n k : nat) :
  Forall (shaped n k) Ms -> shaped n k M ->
  shaped n k (foldl (zip_with (zip_with Rplus)) M Ms).
Proof.
  intros HMs. revert M. induction HMs as [|M1 Ms HM1 _ IH]; intros M HM;
    [exact HM|].
  cbn [foldl]. apply IH, mzip_shaped; assumption.
Qed.

Lemma np_sum0_3_shaped (S : list (matrix R)) (n k : nat) :
  Forall (shaped n k) S -> shaped n k (np_sum0_3 n k S).
Proof.
  intros HS. destruct HS as [|M Ms HM HMs]; [apply zeros2_shaped|].
  apply (foldl_mzip_shaped Ms M n k HMs HM).
Qed.

Lemma np_var0_3_shaped (S : list (matrix R)) (n k : nat) :
  Forall (shaped n k) S -> shaped n k (np_var0_3 n k S).
Proof.
  intros HS. unfold np_var0_3. cbn [tmap matrix_tensor].
  apply mmap_shaped, np_sum0_3_shaped.
  apply Forall_fmap, Forall_fmap. eapply Forall_impl; [exact HS|].
  intros M HM. cbn.
  apply mmap_shaped, mzip_shaped; [exact HM|].
  unfold np_mean0_3. cbn [tmap matrix_tensor].
  apply mmap_shaped, np_sum0_3_shaped, HS.
Qed.

Lemma np_mean0_3_shaped (S : list (matrix R)) (n k : nat) :
  Forall (shaped n k) S -> shaped n k (np_mean0_3 n k S).
Proof.
  intros HS. unfold np_mean0_3. cbn [tmap matrix_tensor].
  apply mmap_shaped, np_sum0_3_shaped, HS.
Qed.

(** A property of every entry of a matrix of known shape. *)
Lemma shaped_Forall (P : R -> Prop) (n k : nat) (M : matrix R) :
  shaped n k M ->
  (forall i j v, (i < n)%nat -> (j < k)%nat -> entry i j M = Some v -> P v) ->
  Forall (Forall P) M.
Proof.
  intros [Hn Hk] Hall. apply Forall_lookup_2. intros i row Hrow.
  apply Forall_lookup_2. intros j v Hv.
  pose proof (lookup_lt_Some _ _ _ Hrow) as Hi.
  pose proof (lookup_lt_Some _ _ _ Hv) as Hj.
  pose proof (Forall_lookup_1 _ _ _ _ Hk Hrow) as Hlen. cbn in Hlen.
  apply (Hall i j v); [lia|lia|].
  unfold entry. rewrite Hrow. exact Hv.
Qed.

Lemma normalize_length (self : BayesianNeuralNetwork R) (X : matrix R) :
  length (normalize self X) = length X.
Proof.
  unfold normalize.
  destruct (norm_bounds self) as [[lb ub]|]; [|rewrite tensor_id; reflexivity].
  destruct (String.eqb (norm self) NORM_CENTER);
    [|destruct (String.eqb (norm self) NORM_MEANSTD)];
    rewrite tensor_id; unfold bcast; rewrite ?length_fmap; reflexivity.
Qed.

Lemma predict_returns (self : BayesianNeuralNetwork R) (X : matrix R)
    (N : nat) (w : world R) :
  network_shaped self ->
  rectangular (input_width (model self)) X ->
  bounds_fit self (input_width (model self)) ->
  predict self X N w
    = (Ok (np_mean0_3 (length (normalize self X))
             (output_width (input_width (model self)) (seq_layers (model self)))
             (predict_samples self X N w),
           np_var0_3 (length (normalize self X))
             (output_width (input_width (model self)) (seq_layers (model self)))
             (predict_samples self X N w)),
       (passes (model self) (normalize self X) N w).2).
Proof.
  intros [Hls Hlast] HX0 Hfit.
  destruct (normalize_rectangular self X _ HX0 Hfit) as [_ HX].
  unfold predict. rewrite Hlast. unfold bind, ret.
  rewrite (predict_loop_spec self (normalize self X) N 0 _ w Hls HX)
    by (rewrite length_replicate; lia).
  reflexivity.
Qed.
End PredictArrays.

Section OneSample.
Local Open Scope R_scope.

Lemma mmap_div_one (M : matrix R) :
  (fun row : list R => (fun s => s / IZR (Z.of_nat 1)) <$> row) <$> M = M.
Proof.
  induction M as [|row M IH]; [reflexivity|].
  rewrite fmap_cons, IH. f_equal.
  induction row as [|x row IHr]; [reflexivity|].
  rewrite fmap_cons, IHr. f_equal. cbn. field.
Qed.

Lemma squared_deviation_from_itself (M : matrix R) (n k : nat) :
  shaped n k M ->
  (fun row : list R => (fun e => e * e) <$> row) <$> zip_with (zip_with Rminus) M M
    = zeros2 n k.
Proof.
  intros [<- Hk]. unfold zeros2, zeros1.
  induction Hk as [|row M Hrow _ IH]; [reflexivity|].
  cbn [zip_with fmap list_fmap length replicate]. f_equal; [|exact IH].
  rewrite <- Hrow. clear. induction row as [|x row IHr]; [reflexivity|].
  cbn [zip_with fmap list_fmap length replicate]. f_equal; [|exact IHr].
  cbn. ring.
Qed.
End OneSample.

(** X13. [predict] with one sample is [predict_dist]: for a network of
    consistent shapes and an input array of the model's input width
    (stored bounds unset or of that width), over exact reals,
    [predict(X, samples=1)] returns as its mean the location of
    [predict_dist(X)] taken from the same state of the random stream,
    a variance array of zeros of the same shape, and leaves the stream
    where [predict_dist] leaves it; the scale of [predict_dist] is the
    fixed noise scale [sigma_alea]. *)
Theorem predict_with_one_sample_is_predict_dist
    (self : BayesianNeuralNetwork R) (X : matrix R) (w : world R) :
  network_shaped self ->
  rectangular (input_width (model self)) X ->
  bounds_fit self (input_width (model self)) ->
  exists n_L,
    last (layers self) = Some n_L
    /\ predict self X 1 w
       = (Ok ((predict_dist self X w).1.1, zeros2 (length X) n_L),
          (predict_dist self X w).2)
    /\ (predict_dist self X w).1.2 = sigma_alea self.
Proof.
  intros Hshaped HX0 Hfit.
  pose proof (predict_returns self X 1 w Hshaped HX0 Hfit) as Hpred.
  destruct (normalize_rectangular self X _ HX0 Hfit) as [HXn HX].
  destruct Hshaped as [Hls Hlast].
  set (k := output_width (input_width (model self)) (seq_layers (model self))) in *.
  exists k. split; [exact Hlast|].
  rewrite Hpred. unfold predict_samples, predict_dist, bind, ret.
  cbn [passes].
  destruct (Sequential_call_shape (model self) (normalize self X) w Hls HX)
    as [Hlen Hrect].
  destruct (Sequential_call (model self) (normalize self X) w) as [loc w1].
  cbn [fst snd] in *. split; [|reflexivity].
  unfold np_var0_3, np_mean0_3. cbn [np_sum0_3 foldl fmap list_fmap length].
  cbn [tmap tzip matrix_tensor].
  change (fun s : R => (s / of_Z (Z.of_nat 1))%sc)
    with (fun s : R => (s / IZR (Z.of_nat 1))%R).
  rewrite !mmap_div_one.
  change (@sub_ R R_arith) with Rminus.
  change (fun e : R => (e * e)%sc) with (fun e : R => (e * e)%R).
  rewrite (squared_deviation_from_itself loc (length (normalize self X)) k)
    by (split; assumption).
  rewrite HXn. reflexivity.
Qed.

Lemma predict_with_one_sample_witness :
  exists n_L,
    last (layers (unit_network (dec 1 100))) = Some n_L
    /\ predict (unit_network (dec 1 100)) [[0%R]; [1%R]] 1 quiet_world
       = (Ok ((predict_dist (unit_network (dec 1 100)) [[0%R]; [1%R]]
                 quiet_world).1.1,
              zeros2 (length [[0%R]; [1%R]]) n_L),
          (predict_dist (unit_network (dec 1 100)) [[0%R]; [1%R]] quiet_world).2)
    /\ (predict_dist (unit_network (dec 1 100)) [[0%R]; [1%R]] quiet_world).1.2
       = sigma_alea (unit_network (dec 1 100)).
Proof.
  apply (predict_with_one_sample_is_predict_dist (unit_network (dec 1 100))
           [[0%R]; [1%R]] quiet_world).
  - exact unit_network_shaped.
  - repeat constructor.
  - exact I.
Defined.

(** X14. The two arrays that [predict] returns have one row per row of
    the input and [layers[-1]] entries per row, and, over exact reals,
    no entry of the variance array is negative (for networks of
    consistent shapes, an input array of the model's input width,
    stored bounds unset or of that width, and a positive sample
    count). *)
Theorem predict_returns_shaped_arrays_and_nonnegative_variance
    (self : BayesianNeuralNetwork R) (X : matrix R) (N : nat) (w : world R) :
  network_shaped self ->
  rectangular (input_width (model self)) X ->
  bounds_fit self (input_width (model self)) ->
  0 < N ->
  exists n_L y_pred y_pred_var w',
    last (layers self) = Some n_L
    /\ predict self X N w = (Ok (y_pred, y_pred_var), w')
    /\ length y_pred = length X /\ rectangular n_L y_pred
    /\ length y_pred_var = length X /\ rectangular n_L y_pred_var
    /\ Forall (Forall (fun v => 0 <= v)%R) y_pred_var.
Proof.
  intros Hshaped HX0 Hfit HN.
  pose proof (predict_returns self X N w Hshaped HX0 Hfit) as Hpred.
  destruct (normalize_rectangular self X _ HX0 Hfit) as [_ HX].
  destruct Hshaped as [Hls Hlast].
  set (k := output_width (input_width (model self)) (seq_layers (model self))) in *.
  assert (HS : Forall (shaped (length (normalize self X)) k)
                 (predict_samples self X N w)).
  { apply passes_shape; assumption. }
  destruct (np_mean0_3_shaped _ _ _ HS) as [Hmn Hmk].
  pose proof (np_var0_3_shaped _ _ _ HS) as Hvar.
  destruct Hvar as [Hvn Hvk].
  eexists k, _, _, _. split; [exact Hlast|]. split; [exact Hpred|].
  rewrite <- (normalize_length self X).
  split; [exact Hmn|]. split; [exact Hmk|].
  split; [exact Hvn|]. split; [exact Hvk|].
  apply (shaped_Forall _ (length (normalize self X)) k); [split; assumption|].
  intros i j v Hi Hj Hv.
  rewrite (np_var0_3_entry _ _ _ i j HS Hi Hj) in Hv. injection Hv as <-.
  apply var_of_nonneg. intros Hnil.
  apply (f_equal length) in Hnil. rewrite entries_length in Hnil.
  unfold predict_samples in Hnil. rewrite passes_length in Hnil. cbn in Hnil. lia.
Qed.

Lemma predict_returns_shaped_arrays_witness :
  exists n_L y_pred y_pred_var w',
    last (layers (unit_network (dec 1 100))) = Some n_L
    /\ predict (unit_network (dec 1 100)) [[0%R]; [1%R]] 3 quiet_world
       = (Ok (y_pred, y_pred_var), w')
    /\ length y_pred = length [[0%R]; [1%R]] /\ rectangular n_L y_pred
    /\ length y_pred_var = length [[0%R]; [1%R]] /\ rectangular n_L y_pred_var
    /\ Forall (Forall (fun v => 0 <= v)%R) y_pred_var.
Proof.
  apply (predict_returns_shaped_arrays_and_nonnegative_variance
           (unit_network (dec 1 100)) [[0%R]; [1%R]] 3 quiet_world).
  - exact unit_network_shaped.
  - repeat constructor.
  - exact I.
  - lia.
Defined.
